(** * Live media analysis pipeline: embedding of the core and its properties

    Shallow embedding of the live modality-fusion pipeline
    (4-live-media-analysis-agent): [ShotChangeDetector], [StreamMonitor],
    [ChunkProcessor._verify_chunk_ready], [AdaptiveFilmstripProcessor] layout
    arithmetic and the [FusionAnalyzer] merge / windowing logic; with them
    the [FilmstripProcessor], the loops of [ChunkProcessor] around the
    check, [create_adaptive_filmstrips] and the [FusionAnalyzer] worker and
    shutdown.

    Conventions.
    - Python [float] is the kernel's binary64 [float]; Python [int] is [Z].
    - A Python function that can raise returns [option]: [None] is "raised".
    - Objects mutated in place are threaded explicitly: a method returns its
      result together with the new object.
    - Calls into OpenCV / numpy / json / ffprobe are parameters of a Section. *)

From Stdlib Require Import ZArith Floats String Ascii List Bool Lia Sorted.
From stdpp Require Import gmap strings list pretty.
Import ListNotations.

Set Warnings "-inexact-float".

(* ===================================================================== *)
(** * Part I. The embedding                                               *)
(* ===================================================================== *)

(** ** Python arithmetic used by the pipeline *)
Module Py.

(** [float(n)] for an [int] (round to nearest even, as CPython does). *)
Definition float_of_int (z : Z) : float :=
  SF2Prim (binary_normalize prec emax z 0 false).

(** [int(x)] for a [float]: truncation toward zero; raises on nan and
    infinities. *)
Definition int_of_float (x : float) : option Z :=
  match Prim2SF x with
  | S754_zero _ => Some 0%Z
  | S754_finite s m e =>
      let a := if (0 <=? e)%Z then (Z.pos m * 2 ^ e)%Z
               else (Z.pos m / 2 ^ (- e))%Z in
      Some (if s then (- a)%Z else a)
  | S754_infinity _ => None
  | S754_nan => None
  end.

(** [a // b] on [int]: floor division, [ZeroDivisionError] when [b = 0].
    [Z.div] rounds toward minus infinity for every sign of [b], like
    Python. *)
Definition floordiv (a b : Z) : option Z :=
  if (b =? 0)%Z then None else Some (a / b)%Z.

(** [a / b] on two [int]s: true division, [ZeroDivisionError] when
    [b = 0]. *)
Definition truediv (a b : Z) : option float :=
  if (b =? 0)%Z then None else Some (float_of_int a / float_of_int b)%float.

(** [x / y] on [float]s: Python raises on a zero divisor where IEEE gives an
    infinity or a nan. *)
Definition fdiv (x y : float) : option float :=
  if (y =? 0)%float then None else Some (x / y)%float.

(** Option-monad fold: a [for] loop whose body can raise. *)
Fixpoint for_each {S A : Type} (body : S -> A -> option S) (l : list A)
    (s : S) : option S :=
  match l with
  | [] => Some s
  | a :: rest =>
      match body s a with
      | Some s' => for_each body rest s'
      | None => None
      end
  end.

(** Whitespace as [\s] and [str.strip] see it, on ASCII text. *)
Definition is_space (c : ascii) : bool :=
  let n := nat_of_ascii c in
  ((9 <=? n) && (n <=? 13) || (28 <=? n) && (n <=? 32))%nat.

Fixpoint lstrip (s : string) : string :=
  match s with
  | String c rest => if is_space c then lstrip rest else s
  | EmptyString => EmptyString
  end.

Fixpoint rstrip (s : string) : string :=
  match s with
  | String c rest =>
      match rstrip rest with
      | EmptyString => if is_space c then EmptyString
                       else String c EmptyString
      | r => String c r
      end
  | EmptyString => EmptyString
  end.

(** [s.strip()]. *)
Definition strip (s : string) : string := rstrip (lstrip s).

(** [needle in hay] on [str]. *)
Fixpoint contains (needle hay : string) : bool :=
  String.prefix needle hay ||
  match hay with
  | String _ rest => contains needle rest
  | EmptyString => false
  end.

(** [Some rest] when [s] is [p] followed by [rest]. *)
Fixpoint strip_prefix (p s : string) : option string :=
  match p, s with
  | EmptyString, _ => Some s
  | String a p', String b s' =>
      if Ascii.eqb a b then strip_prefix p' s' else None
  | String _ _, EmptyString => None
  end.

(** The text that follows the leftmost occurrence of [marker] in [hay]. *)
Fixpoint find_after (marker hay : string) : option string :=
  match strip_prefix marker hay with
  | Some rest => Some rest
  | None =>
      match hay with
      | String _ rest => find_after marker rest
      | EmptyString => None
      end
  end.

(** [sorted(l, key=key)] for [float] keys: a stable sort that compares
    with [<] only (on keys without nan, where [<] is a strict weak order,
    the stable sort is unique). *)
Fixpoint insert_by_key {A : Type} (key : A -> float) (x : A) (l : list A)
    : list A :=
  match l with
  | [] => [x]
  | y :: rest =>
      if (key y <? key x)%float then y :: insert_by_key key x rest
      else x :: l
  end.

Definition sorted {A : Type} (key : A -> float) (l : list A) : list A :=
  foldr (insert_by_key key) [] l.

(** [l[start:]] for a possibly negative [start]. *)
Definition slice_from {A : Type} (start : Z) (l : list A) : list A :=
  if (start <? 0)%Z
  then drop (Z.to_nat (Z.of_nat (length l) + start)) l
  else drop (Z.to_nat start) l.

(** [x // 3600] and the like raise inside [int(...)] on nan and
    infinities. *)
Definition is_finite (x : float) : bool :=
  match Prim2SF x with
  | S754_zero _ => true
  | S754_finite _ _ _ => true
  | S754_infinity _ => false
  | S754_nan => false
  end.

Definition zeros (n : nat) : string := string_of_list_ascii (repeat "0"%char n).

(** [f"{n:04d}"]: sign-aware zero padding to width 4. *)
Definition format_04d (n : Z) : string :=
  let digits := pretty (Z.abs_N n) in
  if (n <? 0)%Z
  then "-" +:+ zeros (3 - String.length digits) +:+ digits
  else zeros (4 - String.length digits) +:+ digits.

(** [a % b] on [int]: the sign of the result follows [b], as [Z.modulo]
    has it; [ZeroDivisionError] when [b = 0]. *)
Definition mod_ (a b : Z) : option Z :=
  if (b =? 0)%Z then None else Some (a mod b)%Z.

(** [l[:stop]] for a possibly negative [stop]. *)
Definition slice_to {A : Type} (stop : Z) (l : list A) : list A :=
  if (stop <? 0)%Z
  then take (Z.to_nat (Z.of_nat (length l) + stop)) l
  else take (Z.to_nat stop) l.

(** [l[start:stop]] with Python's clamping of both bounds. *)
Definition slice {A : Type} (start stop : Z) (l : list A) : list A :=
  let n := Z.of_nat (length l) in
  let clamp i := if (i <? 0)%Z then Z.max 0 (n + i) else Z.min i n in
  let a := clamp start in
  let b := clamp stop in
  take (Z.to_nat (b - a)) (drop (Z.to_nat a) l).

(** [[i for i, x in enumerate(l) if x]], counting from [i]. *)
Fixpoint indices_of_true (i : nat) (l : list bool) : list nat :=
  match l with
  | [] => []
  | b :: rest =>
      if b then i :: indices_of_true (S i) rest
      else indices_of_true (S i) rest
  end.

(** [x or default] on a [float]: a float is falsy when it equals zero. *)
Definition float_or (x default : float) : float :=
  if (x =? 0)%float then default else x.

(** [l[i]] for a possibly negative [i]; [None] is [IndexError]. *)
Definition getitem {A : Type} (i : Z) (l : list A) : option A :=
  if (i <? 0)%Z
  then (if (Z.of_nat (length l) + i <? 0)%Z then None
        else l !! Z.to_nat (Z.of_nat (length l) + i))
  else l !! Z.to_nat i.

(** [min(a, b)] on [float]s: [b] when [b < a], else [a]. *)
Definition fmin (a b : float) : float := if (b <? a)%float then b else a.

End Py.

(* --------------------------------------------------------------------- *)
(** ** src/shared/shot_change_detector.py                                  *)
(* --------------------------------------------------------------------- *)
Module ShotChangeDetector.

Inductive method_t := histogram | mse.

Section Detector.

(** Frames are numpy arrays; histograms are what [cv2.calcHist] returns. *)
Context {frame hist : Type}.
(** [cv2.cvtColor(frame, COLOR_BGR2HSV)] followed by [cv2.calcHist] with
    the detector's [hist_bins]. *)
Variable calcHist : Z * Z * Z -> frame -> hist.
(** [cv2.compareHist(h1, h2, cv2.HISTCMP_CORREL)]. *)
Variable compareHist : hist -> hist -> float.
(** [_calculate_mse]: grayscale conversion, resize and [np.mean] of the
    squared difference. *)
Variable _calculate_mse : frame -> frame -> float.

Record detector := {
  method : method_t;
  threshold : float;
  enable_cross_chunk : bool;
  hist_bins : Z * Z * Z;
  last_frame : option frame;
  previous_histogram : option hist
}.

(** [__init__]: a method other than 'histogram' or 'mse' raises
    [ValueError], which the type [method_t] excludes. *)
Definition __init__ (m : method_t) (thr : float) (cross : bool)
    (bins : Z * Z * Z) : detector :=
  {| method := m; threshold := thr; enable_cross_chunk := cross;
     hist_bins := bins; last_frame := None; previous_histogram := None |}.

Definition set_last_frame (d : detector) (f : option frame) : detector :=
  {| method := method d; threshold := threshold d;
     enable_cross_chunk := enable_cross_chunk d; hist_bins := hist_bins d;
     last_frame := f; previous_histogram := previous_histogram d |}.

Definition set_previous_histogram (d : detector) (h : option hist) : detector :=
  {| method := method d; threshold := threshold d;
     enable_cross_chunk := enable_cross_chunk d; hist_bins := hist_bins d;
     last_frame := last_frame d; previous_histogram := h |}.

Definition reset (d : detector) : detector :=
  set_previous_histogram (set_last_frame d None) None.

Definition _detect_histogram_single (d : detector) (f : frame)
    : bool * detector :=
  let h := calcHist (hist_bins d) f in
  match previous_histogram d with
  | Some ph =>
      let correlation := compareHist ph h in
      ((correlation <? threshold d)%float, set_previous_histogram d (Some h))
  | None => (false, set_previous_histogram d (Some h))
  end.

Definition _compare_frames_histogram (d : detector) (f1 f2 : frame) : bool :=
  let hist1 := calcHist (hist_bins d) f1 in
  let hist2 := calcHist (hist_bins d) f2 in
  (compareHist hist1 hist2 <? threshold d)%float.

Definition _detect_mse_single (d : detector) (f : frame) : bool * detector :=
  match last_frame d with
  | Some lf =>
      let e := _calculate_mse lf f in
      ((threshold d <? e)%float, set_last_frame d (Some f))
  | None => (false, set_last_frame d (Some f))
  end.

Definition _compare_frames_mse (d : detector) (f1 f2 : frame) : bool :=
  (threshold d <? _calculate_mse f1 f2)%float.

(** The method dispatch shared by both branches of [detect_batch]. *)
Definition compare_frames (d : detector) (f1 f2 : frame) : bool :=
  match method d with
  | histogram => _compare_frames_histogram d f1 f2
  | mse => _compare_frames_mse d f1 f2
  end.

(** [detect_single]; the elapsed wall-clock time it also returns is left
    out. *)
Definition detect_single (d : detector) (f : frame) (frame_number : Z)
    : bool * detector :=
  match method d with
  | histogram => _detect_histogram_single d f
  | mse => _detect_mse_single d f
  end.

(** One round of [for i in range(1, len(frames))]. *)
Definition batch_step (d : detector) (frames : list frame)
    (shot_changes : list bool) (i : nat) : list bool :=
  match frames !! (i - 1)%nat, frames !! i with
  | Some a, Some b =>
      if compare_frames d a b then <[i := true]> shot_changes
      else shot_changes
  | _, _ => shot_changes
  end.

Definition detect_batch (d : detector) (frames : list frame)
    : list bool * detector :=
  match frames with
  | [] => ([], d)
  | f0 :: _ =>
      let shot_changes := replicate (length frames) false in
      if (length frames <? 2)%nat then (shot_changes, d)
      else
        let shot_changes :=
          match enable_cross_chunk d, last_frame d with
          | true, Some lf =>
              if compare_frames d lf f0 then <[0%nat := true]> shot_changes
              else shot_changes
          | _, _ => shot_changes
          end in
        let shot_changes :=
          fold_left (batch_step d frames)
                    (seq 1 (length frames - 1)) shot_changes in
        let d' := if enable_cross_chunk d
                  then set_last_frame d (last frames) else d in
        (shot_changes, d')
  end.

(** Feeding frames one at a time: the replay loop of the single-frame
    callers, [frame_number] counting from [n]. *)
Fixpoint detect_single_all (d : detector) (n : Z) (frames : list frame)
    : list bool * detector :=
  match frames with
  | [] => ([], d)
  | f :: rest =>
      let '(b, d1) := detect_single d f n in
      let '(bs, d2) := detect_single_all d1 (n + 1) rest in
      (b :: bs, d2)
  end.

End Detector.

Definition create_visual_detector {frame hist} (threshold : float)
    (m : method_t) : @detector frame hist :=
  __init__ m threshold false (8, 8, 8)%Z.

Definition create_fusion_detector {frame hist} (threshold : float)
    : @detector frame hist :=
  __init__ histogram threshold true (8, 8, 8)%Z.

End ShotChangeDetector.

(* --------------------------------------------------------------------- *)
(** ** src/shared/filmstrip_processor.py: FilmstripProcessor               *)
(* --------------------------------------------------------------------- *)
Module FilmstripProcessor.

Section Processor.

Context {frame hist : Type}.
Variable calcHist : Z * Z * Z -> frame -> hist.
Variable compareHist : hist -> hist -> float.
Variable _calculate_mse : frame -> frame -> float.
(** [np.zeros_like(frame)] and [np.zeros((480, 640, 3), dtype=np.uint8)]. *)
Variable zeros_like : frame -> frame.
Variable black_480x640 : frame.

(** The fields of a processor that its methods compute with; colours and
    the label font are left out. *)
Record processor := {
  grid_rows : Z;
  grid_cols : Z;
  cell_width : Z;
  cell_height : Z;
  cell_size : Z;
  border_thickness : Z;
  label_height : Z;
  shot_detector : option (@ShotChangeDetector.detector frame hist);
  last_frame : option frame
}.

Definition __init__ (grid_rows grid_cols cell_size : Z)
    (cell_width cell_height : option Z) (border_thickness label_height : Z)
    (shot_detector : option (@ShotChangeDetector.detector frame hist))
    : processor :=
  {| grid_rows := grid_rows; grid_cols := grid_cols;
     cell_width := default cell_size cell_width;
     cell_height := default cell_size cell_height;
     cell_size := cell_size;
     border_thickness := border_thickness; label_height := label_height;
     shot_detector := shot_detector; last_frame := None |}.

Definition set_detection (p : processor)
    (d : option (@ShotChangeDetector.detector frame hist))
    (lf : option frame) : processor :=
  {| grid_rows := grid_rows p; grid_cols := grid_cols p;
     cell_width := cell_width p; cell_height := cell_height p;
     cell_size := cell_size p;
     border_thickness := border_thickness p; label_height := label_height p;
     shot_detector := d; last_frame := lf |}.

(** What [cv2.VideoCapture(video_file)] gives: whether it opens, at once
    or at the second try two seconds later; the two properties read; and
    [read_at t], the frame of [cap.set(CAP_PROP_POS_MSEC, t)] followed by
    [cap.read()], [None] when [ret] is false or the frame is [None]. *)
Record capture := {
  opens : bool;
  opens_on_retry : bool;
  CAP_PROP_FPS : float;
  CAP_PROP_FRAME_COUNT : float;
  read_at : float -> option frame
}.

(** The offset of frame [i], in seconds from the start of the file: the
    middle of its interval. *)
Definition time_offset (interval : float) (i : nat) : float :=
  (Py.float_of_int (Z.of_nat i) * interval + interval / 2)%float.

(** Body of [for i in range(num_frames)]. *)
Definition extract_step (cap : capture) (start_time interval : float)
    (frames_with_timestamps : list (frame * float)) (i : nat)
    : list (frame * float) :=
  let time_ms := (time_offset interval i * 1000)%float in
  let timestamp := (start_time + time_offset interval i)%float in
  match read_at cap time_ms with
  | Some frame => frames_with_timestamps ++ [(frame, timestamp)]
  | None =>
      let black_frame :=
        match frames_with_timestamps with
        | (first, _) :: _ => zeros_like first
        | [] => black_480x640
        end in
      frames_with_timestamps ++ [(black_frame, timestamp)]
  end.

(** [extract_frames_from_video]; [None] is the exception of
    [int(cap.get(cv2.CAP_PROP_FRAME_COUNT))] on a count that is not
    finite.  The duration computed from the two properties is only
    logged. *)
Definition extract_frames_from_video (cap : capture) (start_time : float)
    (num_frames : Z) (interval : float) : option (list (frame * float)) :=
  if opens cap || opens_on_retry cap then
    let fps := Py.float_or (CAP_PROP_FPS cap) 30 in
    total_frames ← Py.int_of_float (CAP_PROP_FRAME_COUNT cap);
    Some (fold_left (extract_step cap start_time interval)
                    (seq 0 (Z.to_nat num_frames)) [])
  else Some [].

(** [create_filmstrip].  [grid_saved] says whether [_create_grid] (the
    drawing and the saving of the image) returned; when it raised, so does
    the call, after the detector has seen the batch.  The result is the
    returned list, [None] for the exception, and the processor as the call
    leaves it. *)
Definition create_filmstrip (p : processor)
    (frames_with_timestamps : list (frame * float)) (grid_saved : bool)
    (detect_shot_changes : bool) : option (list nat) * processor :=
  match frames_with_timestamps with
  | [] => (Some [], p)
  | _ :: _ =>
      let frames := fst <$> frames_with_timestamps in
      let '(shot_change_frames, detector) :=
        match detect_shot_changes, shot_detector p with
        | true, Some d =>
            let '(shot_changes, d) :=
              ShotChangeDetector.detect_batch calcHist compareHist
                _calculate_mse d frames in
            (Py.indices_of_true 0 shot_changes, Some d)
        | _, _ => ([], shot_detector p)
        end in
      if grid_saved
      then (Some shot_change_frames, set_detection p detector (last frames))
      else (None, set_detection p detector (last_frame p))
  end.

(** [create_filmstrip_from_video]. *)
Definition create_filmstrip_from_video (p : processor) (cap : capture)
    (grid_saved : bool) (start_time : float) (num_frames : Z)
    (interval : float) (detect_shot_changes : bool)
    : option (list nat) * processor :=
  match extract_frames_from_video cap start_time num_frames interval with
  | None => (None, p)
  | Some [] => (Some [], p)
  | Some frames_with_timestamps =>
      create_filmstrip p frames_with_timestamps grid_saved detect_shot_changes
  end.

Definition reset_cross_chunk_tracking (p : processor) : processor :=
  set_detection p (shot_detector p) None.

(** *** The geometry of [_create_grid] *)

Definition total_width (p : processor) : Z :=
  (grid_cols p * cell_width p + (grid_cols p + 1) * border_thickness p)%Z.

Definition total_height (p : processor) : Z :=
  (grid_rows p * (cell_height p + label_height p)
   + (grid_rows p + 1) * border_thickness p)%Z.

(** Where frame [idx] goes: its grid position, the corner its image is
    pasted at and the top of its label box, which is as wide as the cell
    and [label_height] high. *)
Record placement := {
  row : Z;
  col : Z;
  x : Z;
  y : Z;
  label_y : Z
}.

(** Body of the loop over [enumerate(frames_with_timestamps[:max_frames])]
    up to the pasting. *)
Definition place (p : processor) (idx : nat) : option placement :=
  row ← Py.floordiv (Z.of_nat idx) (grid_cols p);
  col ← Py.mod_ (Z.of_nat idx) (grid_cols p);
  let x := (col * (cell_width p + border_thickness p)
            + border_thickness p)%Z in
  let y := (row * (cell_height p + label_height p + border_thickness p)
            + border_thickness p)%Z in
  Some {| row := row; col := col; x := x; y := y;
          label_y := (y + cell_height p)%Z |}.

(** The placements of [_create_grid] for a list of [n] frames; [None] is
    [ZeroDivisionError]. *)
Definition placements (p : processor) (n : nat) : option (list placement) :=
  let max_frames := (grid_rows p * grid_cols p)%Z in
  mapM (place p) (Py.slice_to max_frames (seq 0 n)).

End Processor.

Definition create_fusion_filmstrip_processor {frame hist}
    (shot_detector : option (@ShotChangeDetector.detector frame hist))
    : @processor frame hist :=
  __init__ 4 5 512 None None 8 40 shot_detector.

Definition create_visual_filmstrip_processor {frame hist}
    (shot_detector : option (@ShotChangeDetector.detector frame hist))
    : @processor frame hist :=
  __init__ 5 4 512 None None 8 40 shot_detector.

End FilmstripProcessor.

(* --------------------------------------------------------------------- *)
(** ** 03-modality-fused-understanding/components/stream_monitor.py        *)
(* --------------------------------------------------------------------- *)
Module StreamMonitor.

(** What one call reads from the two monitored objects:
    [getattr(chunk_processor, 'chunk_count', 0)] and, when
    [hasattr(transcription_processor, 'is_running')], its value. *)
Record components := {
  chunk_count : option Z;
  is_running : option bool
}.

Record monitor := {
  stream_timeout : float;
  last_activity_time : float;
  last_chunk_count : Z;
  transcription_was_running : bool
}.

Definition default_stream_timeout : float := 60.

(** [__init__]; [now] is the reading of [time.time()]. *)
Definition __init__ (now : float) (timeout : float) : monitor :=
  {| stream_timeout := timeout;
     last_activity_time := now;
     last_chunk_count := 0;
     transcription_was_running := false |}.

Definition update_activity (current_time : float) (c : components)
    (m : monitor) : bool * monitor :=
  let current_chunk_count := default 0%Z (chunk_count c) in
  if (last_chunk_count m <? current_chunk_count)%Z then
    (true,
     {| stream_timeout := stream_timeout m;
        last_activity_time := current_time;
        last_chunk_count := current_chunk_count;
        transcription_was_running := transcription_was_running m |})
  else (false, m).

(** The first test of [stream_appears_ended]. *)
Definition transcription_stopped (c : components) (m : monitor) : bool :=
  transcription_was_running m &&
  match is_running c with
  | Some r => negb r
  | None => false
  end.

(** [stream_appears_ended]; [t1] is the clock reading taken inside
    [update_activity], [t2] the one taken after it. *)
Definition stream_appears_ended (t1 t2 : float) (c : components)
    (m : monitor) : bool * monitor :=
  if transcription_stopped c m then (true, m)
  else
    let '(_, m1) := update_activity t1 c m in
    let time_since_activity := (t2 - last_activity_time m1)%float in
    ((stream_timeout m1 <=? time_since_activity)%float, m1).

Record status := {
  stream_active : bool;
  time_since_activity : float;
  status_chunk_count : Z;
  transcription_running : bool;
  status_transcription_was_running : bool
}.

(** [get_status]; [t0 .. t3] are its four clock readings in order. *)
Definition get_status (t0 t1 t2 t3 : float) (c : components) (m : monitor)
    : status * monitor :=
  let '(_, m1) := update_activity t0 c m in
  let '(ended, m2) := stream_appears_ended t1 t2 c m1 in
  ({| stream_active := negb ended;
      time_since_activity := (t3 - last_activity_time m2)%float;
      status_chunk_count := last_chunk_count m2;
      transcription_running :=
        match is_running c with Some r => r | None => false end;
      status_transcription_was_running := transcription_was_running m2 |},
   m2).

(** The calls a client can make on a monitor, with what each one observes. *)
Inductive call :=
| CallUpdateActivity (now : float) (c : components)
| CallStreamAppearsEnded (t1 t2 : float) (c : components)
| CallGetStatus (t0 t1 t2 t3 : float) (c : components).

Definition step (m : monitor) (k : call) : monitor :=
  match k with
  | CallUpdateActivity now c => snd (update_activity now c m)
  | CallStreamAppearsEnded t1 t2 c => snd (stream_appears_ended t1 t2 c m)
  | CallGetStatus t0 t1 t2 t3 c => snd (get_status t0 t1 t2 t3 c m)
  end.

Definition run (m : monitor) (ks : list call) : monitor :=
  fold_left step ks m.

End StreamMonitor.

(* --------------------------------------------------------------------- *)
(** ** 03-modality-fused-understanding/components/chunk_processor.py       *)
(* --------------------------------------------------------------------- *)
Module ChunkProcessor.

(** Outcome of [subprocess.run(probe_cmd, ..., timeout=5)]. *)
Inductive probe_result :=
| ProbeRaised                                  (* TimeoutExpired, OSError *)
| ProbeCompleted (returncode : Z) (stdout : string).

(** What [_verify_chunk_ready] sees of one path: [os.path.exists],
    [os.path.getsize] ([None] when it raises) and the ffprobe run. *)
Record file_view := {
  path_exists : bool;
  getsize : option Z;
  probe : probe_result
}.

Inductive log_event :=
| FinalChunkReady (duration : float)
| FinalChunkTooShort (duration : float)
| ChunkReady (duration : float) (expected : Z)
| ChunkWaiting (duration : float) (expected : Z)
| ErrorVerifyingChunk.

Section Verify.

(** [float(json.loads(stdout).get('format', {}).get('duration', 0))];
    [None] when [json.loads] or [float] raises. *)
Variable parse_duration : string -> option float.

(** [self.chunk_duration], an [int] (20 by default). *)
Variable chunk_duration : Z.

Definition _verify_chunk_ready (fv : file_view) (is_final : bool)
    : bool * list log_event :=
  if negb (path_exists fv) then (false, [])
  else
    match getsize fv with
    | None => (false, [ErrorVerifyingChunk])
    | Some size =>
        if (size <? 50000)%Z then (false, [])
        else
          match probe fv with
          | ProbeRaised => (false, [ErrorVerifyingChunk])
          | ProbeCompleted returncode stdout =>
              if negb (returncode =? 0)%Z then (false, [])
              else
                match parse_duration stdout with
                | None => (false, [ErrorVerifyingChunk])
                | Some duration =>
                    if is_final then
                      if (1 <=? duration)%float
                      then (true, [FinalChunkReady duration])
                      else (false, [FinalChunkTooShort duration])
                    else
                      let expected_duration := chunk_duration in
                      let duration_diff :=
                        abs (duration - Py.float_of_int expected_duration)%float in
                      if (duration_diff <=? 1)%float
                      then (true, [ChunkReady duration expected_duration])
                      else (false, [ChunkWaiting duration expected_duration])
                end
          end
    end.

(** The duration the check obtains from its probe, when it gets that far. *)
Definition probed_duration (fv : file_view) : option float :=
  if negb (path_exists fv) then None
  else
    match getsize fv with
    | None => None
    | Some size =>
        if (size <? 50000)%Z then None
        else
          match probe fv with
          | ProbeRaised => None
          | ProbeCompleted returncode stdout =>
              if negb (returncode =? 0)%Z then None
              else parse_duration stdout
          end
    end.

(** A probe error: one of the guarded calls raised. *)
Definition probe_error (fv : file_view) : Prop :=
  path_exists fv = true /\
  (getsize fv = None \/
   exists size, getsize fv = Some size /\ (50000 <= size)%Z /\
     (probe fv = ProbeRaised \/
      exists stdout, probe fv = ProbeCompleted 0 stdout /\
                     parse_duration stdout = None)).

End Verify.

(** *** The monitoring loop and the creation of a filmstrip *)

Section Monitor.

(** As in [_verify_chunk_ready]. *)
Variable parse_duration : string -> option float.
Variable chunk_duration : Z.

Context {frame hist spectrogram : Type}.
Variable calcHist : Z * Z * Z -> frame -> hist.
Variable compareHist : hist -> hist -> float.
Variable _calculate_mse : frame -> frame -> float.
Variable zeros_like : frame -> frame.
Variable black_480x640 : frame.

Local Abbreviation _verify_chunk_ready :=
  (_verify_chunk_ready parse_duration chunk_duration).

(** The arguments of a call of [fusion_analyzer.queue_analysis]. *)
Record queue_analysis_call := {
  queued_chunk_id : Z;
  queued_filmstrip_path : string;
  queued_start_time : Z;
  queued_end_time : Z;
  queued_shot_change_frames : list nat;
  queued_spectrogram_data : option spectrogram
}.

(** The wait of [_create_filmstrip]: [for attempt in range(max_wait)] with
    its [else]; [view_at a] is the file as attempt [a] finds it.  Returns
    the number of [time.sleep(1)], whether the loop ran out (the
    "not ready, proceeding anyway" warning) and the lines of the checks. *)
Fixpoint wait_for_chunk (view_at : nat -> file_view) (attempts : list nat)
    : nat * bool * list log_event :=
  match attempts with
  | [] => (0%nat, true, [])
  | attempt :: rest =>
      let '(ready, lines) := _verify_chunk_ready (view_at attempt) false in
      if ready then (0%nat, false, lines)
      else
        let '(sleeps, ran_out, lines') := wait_for_chunk view_at rest in
        (S sleeps, ran_out, lines ++ lines')
  end.

Definition max_wait : nat := 30.

Definition filmstrip_path (output_dir : string) (chunk_id : Z) : string :=
  output_dir +:+ "/filmstrips/filmstrip_" +:+ Py.format_04d chunk_id
  +:+ "_4x5.jpg".

(** What one call of [_create_filmstrip] does. *)
Record creation := {
  sleeps : nat;
  not_ready_warning : bool;
  verify_lines : list log_event;
  filmstrip_error : bool;
  queued : option queue_analysis_call;
  processor_after : option (@FilmstripProcessor.processor frame hist)
}.

(** [_create_filmstrip] followed by [_trigger_analysis].  [cap] and
    [grid_saved] are what [create_filmstrip_from_video] meets;
    [has_analyzer] is the truth of [self.fusion_analyzer];
    [spectrogram_data] is the result of [analyze_audio_file], [None] when
    it raised.  An exception of the filmstrip creation is caught and
    logged, and nothing is queued. *)
Definition _create_filmstrip (output_dir : string)
    (filmstrip_processor : option (@FilmstripProcessor.processor frame hist))
    (has_analyzer : bool) (view_at : nat -> file_view)
    (cap : @FilmstripProcessor.capture frame) (grid_saved : bool)
    (spectrogram_data : option spectrogram) (chunk_id : Z) : creation :=
  let '(sleeps, ran_out, lines) :=
    wait_for_chunk view_at (seq 0 max_wait) in
  let path := filmstrip_path output_dir chunk_id in
  let '(shot_change_frames, processor) :=
    match filmstrip_processor with
    | Some p =>
        let '(returned, p) :=
          FilmstripProcessor.create_filmstrip_from_video calcHist
            compareHist _calculate_mse zeros_like black_480x640 p cap
            grid_saved (Py.float_of_int (chunk_id * chunk_duration)) 20 1
            true in
        (returned, Some p)
    | None => (Some [], None)
    end in
  match shot_change_frames with
  | None =>
      {| sleeps := sleeps; not_ready_warning := ran_out;
         verify_lines := lines; filmstrip_error := true;
         queued := None; processor_after := processor |}
  | Some shot_change_frames =>
      let start_time := (chunk_id * chunk_duration)%Z in
      let end_time := (start_time + chunk_duration)%Z in
      {| sleeps := sleeps; not_ready_warning := ran_out;
         verify_lines := lines; filmstrip_error := false;
         queued :=
           if has_analyzer
           then Some {| queued_chunk_id := chunk_id;
                        queued_filmstrip_path := path;
                        queued_start_time := start_time;
                        queued_end_time := end_time;
                        queued_shot_change_frames := shot_change_frames;
                        queued_spectrogram_data := spectrogram_data |}
           else None;
         processor_after := processor |}
  end.

(** A path of the directory listing as one round of [_monitor_chunks]
    meets it: the number [int(chunk_match.group(1))] when the name matches
    [chunk_(\d+)_], [os.path.exists] at the test, and the file as the call
    of [_verify_chunk_ready] inside [print] and the one that decides find
    it. *)
Record listed_file := {
  chunk_match : option N;
  exists_at_test : bool;
  at_print : file_view;
  at_check : file_view
}.

(** The variables of [_monitor_chunks]: the local set, [self.chunk_count],
    the chunk ids [_create_filmstrip] was called with, in order, and the
    lines of the checks. *)
Record monitor_state := {
  processed_chunks : gset Z;
  chunk_count : Z;
  created : list Z;
  lines : list log_event
}.

(** Body of [for chunk_file in sorted(chunk_files)]; the loop after the
    stop has [is_final] and no [print]. *)
Definition monitor_step (is_final : bool) (st : monitor_state)
    (f : listed_file) : monitor_state :=
  match chunk_match f with
  | None => st
  | Some n =>
      let chunk_id := Z.of_N n in
      if negb (bool_decide (chunk_id ∈ processed_chunks st))
         && exists_at_test f
      then
        let printed :=
          if is_final then []
          else snd (_verify_chunk_ready (at_print f) false) in
        let '(ready, checked) := _verify_chunk_ready (at_check f) is_final in
        if ready then
          {| processed_chunks := {[chunk_id]} ∪ processed_chunks st;
             chunk_count := Z.max (chunk_count st) (chunk_id + 1);
             created := created st ++ [chunk_id];
             lines := lines st ++ printed ++ checked |}
        else
          {| processed_chunks := processed_chunks st;
             chunk_count := chunk_count st;
             created := created st;
             lines := lines st ++ printed ++ checked |}
      else st
  end.

(** [_monitor_chunks]: one [sorted(chunk_files)] per round of the
    [while], then the listing of the round after the stop.
    [chunk_count] is [self.chunk_count] on entry. *)
Definition _monitor_chunks (chunk_count : Z)
    (rounds : list (list listed_file)) (final_round : list listed_file)
    : monitor_state :=
  let st := {| processed_chunks := ∅; chunk_count := chunk_count;
               created := []; lines := [] |} in
  let st :=
    fold_left (fun st round => fold_left (monitor_step false) round st)
              rounds st in
  fold_left (monitor_step true) final_round st.

End Monitor.

End ChunkProcessor.

(* --------------------------------------------------------------------- *)
(** ** src/shared/filmstrip_processor.py: AdaptiveFilmstripProcessor       *)
(* --------------------------------------------------------------------- *)
Module AdaptiveFilmstripProcessor.

(** The constructor's arguments that the layout arithmetic reads (colours,
    font and shot detector do not enter it). *)
Record config := {
  max_grid_width : Z;
  max_grid_height : Z;
  max_grid_images : Z;
  border_thickness : Z;
  label_height : Z;
  preserve_source_resolution : bool;
  fixed_grid_layout : option (Z * Z);
  max_file_size_mb : option float
}.

(** [(cell_width, cell_height, grid_rows, grid_cols)]. *)
Definition grid : Type := Z * Z * Z * Z.

Definition fallback_grid : grid := (512, 512, 4, 5)%Z.

Record layout := {
  total_frames : Z;
  frames_per_grid : Z;
  grid_rows : Z;
  grid_cols : Z;
  cell_size : Z * Z;
  num_grids_needed : Z;
  sampling_rate : Z;
  frames_to_extract : Z;
  extraction_interval : float;
  max_frames_capacity : Z
}.

(** [x ** 0.5] on a [float]: C's [pow(x, 0.5)], taken to be the correctly
    rounded square root; a negative base gives a Python [complex], on which
    the [int(...)] that follows raises. *)
Definition pow_half (x : float) : option float :=
  if (x <? 0)%float then None else Some (sqrt x).

Definition total_width_of (cfg : config) (cols cell_width : Z) : Z :=
  (cols * cell_width + (cols + 1) * border_thickness cfg)%Z.

Definition total_height_of (cfg : config) (rows cell_height : Z) : Z :=
  (rows * (cell_height + label_height cfg)
   + (rows + 1) * border_thickness cfg)%Z.

Definition _estimate_file_size (grid_width grid_height : Z) (quality : Z)
    : float :=
  let bits_per_pixel : float :=
    if (90 <=? quality)%Z then 2.8%float
    else if (80 <=? quality)%Z then 2.0%float
    else 1.5%float in
  let total_pixels := (grid_width * grid_height)%Z in
  ((Py.float_of_int total_pixels * bits_per_pixel)
   / Py.float_of_int (8 * 1024 * 1024))%float.

(** [_apply_file_size_constraint], called only when [max_file_size_mb] is
    set to [limit]. *)
Definition _apply_file_size_constraint (cfg : config) (limit : float)
    (cell_width cell_height grid_rows grid_cols : Z) (aspect_ratio : float)
    : option (Z * Z) :=
  let total_width := total_width_of cfg grid_cols cell_width in
  let total_height := total_height_of cfg grid_rows cell_height in
  let current_size_mb := _estimate_file_size total_width total_height 95 in
  if (current_size_mb <=? limit)%float then Some (cell_width, cell_height)
  else
    ratio ← Py.fdiv limit current_size_mb;
    scale_factor ← pow_half ratio;
    new_cell_width ←
      Py.int_of_float (Py.float_of_int cell_width * scale_factor)%float;
    new_cell_height ←
      Py.int_of_float (Py.float_of_int cell_height * scale_factor)%float;
    let min_cell_size := 100%Z in
    if ((new_cell_width <? min_cell_size)
        || (new_cell_height <? min_cell_size))%Z
    then
      w ← Py.int_of_float (Py.float_of_int min_cell_size * aspect_ratio)%float;
      Some (w, min_cell_size)
    else Some (new_cell_width, new_cell_height).

(** "Adjust to maintain aspect ratio": the same five lines in the fixed
    and in the optimising branch. *)
Definition fit_aspect (cell_width cell_height : Z) (aspect_ratio : float)
    : option (Z * Z) :=
  q ← Py.truediv cell_width cell_height;
  if (aspect_ratio <? q)%float then
    w ← Py.int_of_float (Py.float_of_int cell_height * aspect_ratio)%float;
    Some (w, cell_height)
  else
    r ← Py.fdiv (Py.float_of_int cell_width) aspect_ratio;
    h ← Py.int_of_float r;
    Some (cell_width, h).

(** The closing "Apply file size constraint if specified" of each branch. *)
Definition finish (cfg : config) (aspect_ratio : float) (g : grid)
    : option grid :=
  let '(cell_width, cell_height, rows, cols) := g in
  match max_file_size_mb cfg with
  | Some limit =>
      '(w, h) ← _apply_file_size_constraint cfg limit cell_width cell_height
                  rows cols aspect_ratio;
      Some (w, h, rows, cols)
  | None => Some g
  end.

Definition fits (cfg : config) (g : grid) : bool :=
  let '(cell_width, cell_height, rows, cols) := g in
  ((total_width_of cfg cols cell_width <=? max_grid_width cfg)
   && (total_height_of cfg rows cell_height <=? max_grid_height cfg))%Z.

(** Body of the two nested [for] loops of the optimising branch; the state
    is [(best_layout, max_frames)]. *)
Definition try_grid (cfg : config) (aspect_ratio : float)
    (st : option grid * Z) (rc : Z * Z) : option (option grid * Z) :=
  let '(best_layout, max_frames) := st in
  let '(rows, cols) := rc in
  let available_width :=
    (max_grid_width cfg - (cols + 1) * border_thickness cfg)%Z in
  let available_height :=
    (max_grid_height cfg - (rows + 1) * border_thickness cfg
     - rows * label_height cfg)%Z in
  cell_width ← Py.floordiv available_width cols;
  cell_height ← Py.floordiv available_height rows;
  if ((cell_width <? 100) || (cell_height <? 100))%Z then Some st
  else
    '(cell_width, cell_height) ← fit_aspect cell_width cell_height aspect_ratio;
    if fits cfg (cell_width, cell_height, rows, cols) then
      let frames := (rows * cols)%Z in
      if (max_frames <? frames)%Z
      then Some (Some (cell_width, cell_height, rows, cols), frames)
      else Some st
    else Some st.

(** [for rows in range(1, 21): for cols in range(1, 21)], in order. *)
Definition candidates : list (Z * Z) :=
  rows ← seqZ 1 20; cols ← seqZ 1 20; [(rows, cols)].

Definition _calculate_grid_dimensions (cfg : config) (aspect_ratio : float)
    (source_resolution : Z * Z) : option grid :=
  let '(source_width, source_height) := source_resolution in
  match fixed_grid_layout cfg with
  | Some (fixed_rows, fixed_cols) =>
      '(cell_width, cell_height) ←
        (if preserve_source_resolution cfg
         then Some (source_width, source_height)
         else
           let available_width :=
             (max_grid_width cfg
              - (fixed_cols + 1) * border_thickness cfg)%Z in
           let available_height :=
             (max_grid_height cfg
              - (fixed_rows + 1) * border_thickness cfg
              - fixed_rows * label_height cfg)%Z in
           cell_width ← Py.floordiv available_width fixed_cols;
           cell_height ← Py.floordiv available_height fixed_rows;
           fit_aspect cell_width cell_height aspect_ratio);
      if negb (fits cfg (cell_width, cell_height, fixed_rows, fixed_cols))
      then Some fallback_grid
      else finish cfg aspect_ratio
             (cell_width, cell_height, fixed_rows, fixed_cols)
  | None =>
      if preserve_source_resolution cfg then
        let '(cell_width, cell_height) := (source_width, source_height) in
        max_cols ← Py.floordiv (max_grid_width cfg - border_thickness cfg)
                     (cell_width + border_thickness cfg);
        max_rows ← Py.floordiv (max_grid_height cfg - border_thickness cfg)
                     (cell_height + label_height cfg + border_thickness cfg);
        if ((max_cols <? 1) || (max_rows <? 1))%Z then Some fallback_grid
        else finish cfg aspect_ratio
               (cell_width, cell_height, max_rows, max_cols)
      else
        '(best_layout, _) ←
          Py.for_each (try_grid cfg aspect_ratio) candidates (None, 0%Z);
        match best_layout with
        | None => Some fallback_grid
        | Some g => finish cfg aspect_ratio g
        end
  end.

Definition calculate_optimal_layout (cfg : config)
    (video_duration source_fps : float) (source_resolution : Z * Z)
    : option layout :=
  let '(source_width, source_height) := source_resolution in
  total_frames ← Py.int_of_float (video_duration * source_fps)%float;
  aspect_ratio ← Py.truediv source_width source_height;
  '(cell_width, cell_height, grid_rows, grid_cols) ←
    _calculate_grid_dimensions cfg aspect_ratio source_resolution;
  let frames_per_grid := (grid_rows * grid_cols)%Z in
  let max_total_frames := (frames_per_grid * max_grid_images cfg)%Z in
  '(sampling_rate, frames_to_extract, num_grids_needed) ←
    (if (total_frames <=? max_total_frames)%Z then
       let sampling_rate := 1%Z in
       let frames_to_extract := total_frames in
       num_grids_needed ←
         Py.floordiv (frames_to_extract + frames_per_grid - 1) frames_per_grid;
       Some (sampling_rate, frames_to_extract, num_grids_needed)
     else
       sampling_rate ←
         Py.floordiv (total_frames + max_total_frames - 1) max_total_frames;
       frames_to_extract ←
         Py.floordiv (total_frames + sampling_rate - 1) sampling_rate;
       num_grids_needed ←
         Py.floordiv (frames_to_extract + frames_per_grid - 1) frames_per_grid;
       Some (sampling_rate, frames_to_extract, num_grids_needed));
  let extraction_interval :=
    if (0 <? frames_to_extract)%Z
    then (video_duration / Py.float_of_int frames_to_extract)%float
    else 1.0%float in
  Some {| total_frames := total_frames;
          frames_per_grid := frames_per_grid;
          grid_rows := grid_rows;
          grid_cols := grid_cols;
          cell_size := (cell_width, cell_height);
          num_grids_needed := num_grids_needed;
          sampling_rate := sampling_rate;
          frames_to_extract := frames_to_extract;
          extraction_interval := extraction_interval;
          max_frames_capacity := max_total_frames |}.

(** The three bounds of a layout under a configuration. *)
Definition width_ok (cfg : config) (l : layout) : Prop :=
  (grid_cols l * fst (cell_size l)
   + (grid_cols l + 1) * border_thickness cfg <= max_grid_width cfg)%Z.

Definition height_ok (cfg : config) (l : layout) : Prop :=
  (grid_rows l * (snd (cell_size l) + label_height cfg)
   + (grid_rows l + 1) * border_thickness cfg <= max_grid_height cfg)%Z.

Definition grids_ok (cfg : config) (l : layout) : Prop :=
  (num_grids_needed l <= max_grid_images cfg)%Z.

Definition grid_of (l : layout) : grid :=
  (fst (cell_size l), snd (cell_size l), grid_rows l, grid_cols l).

(** The constructor's defaults, with the grid size of the call. *)
Definition default_config (max_grid_size : Z * Z) : config :=
  {| max_grid_width := fst max_grid_size;
     max_grid_height := snd max_grid_size;
     max_grid_images := 20;
     border_thickness := 8;
     label_height := 40;
     preserve_source_resolution := false;
     fixed_grid_layout := None;
     max_file_size_mb := None |}.

(** *** [create_adaptive_filmstrips] *)

Section Filmstrips.

Context {frame hist : Type}.
Variable calcHist : Z * Z * Z -> frame -> hist.
Variable compareHist : hist -> hist -> float.
Variable _calculate_mse : frame -> frame -> float.
Variable zeros_like : frame -> frame.
Variable black_480x640 : frame.

(** An element of 'shot_segments'. *)
Record shot_segment := {
  frame_index : nat;
  global_frame_index : Z;
  segment_row : Z;
  segment_col : Z;
  segment_timestamp : float
}.

(** An element of the returned 'shot_changes' list: one per grid. *)
Record grid_report := {
  grid_index : Z;
  output_file : string;
  shot_changes : list nat;
  shot_segments : list shot_segment;
  frame_range : Z * Z
}.

(** Body of [for shot_idx in shot_changes]: [None] in the outer option is
    an exception, [None] in the inner one a shot change left out. *)
Definition shot_segment_of (all_frames : list (frame * float))
    (grid_cols start_idx : Z) (shot_idx : nat)
    : option (option shot_segment) :=
  row ← Py.floordiv (Z.of_nat shot_idx) grid_cols;
  col ← Py.mod_ (Z.of_nat shot_idx) grid_cols;
  let global_frame_idx := (start_idx + Z.of_nat shot_idx)%Z in
  if (global_frame_idx <? Z.of_nat (length all_frames))%Z then
    '(_, timestamp) ← Py.getitem global_frame_idx all_frames;
    Some (Some {| frame_index := shot_idx;
                  global_frame_index := global_frame_idx;
                  segment_row := (row + 1)%Z;
                  segment_col := (col + 1)%Z;
                  segment_timestamp := timestamp |})
  else Some None.

(** [for grid_idx in range(layout['num_grids_needed'])], over the indices
    still to come; an empty slice ends the loop.  [grid_saved i] says
    whether [_create_grid] returns for grid [i].  The result is the list
    of reports, [None] for an exception, and the processor as the loop
    leaves it. *)
Fixpoint grids_loop (output_prefix : string) (detect_shot_changes : bool)
    (grid_saved : Z -> bool) (all_frames : list (frame * float))
    (frames_per_grid grid_cols : Z) (grid_indices : list Z)
    (processor : @FilmstripProcessor.processor frame hist)
    : option (list grid_report) * @FilmstripProcessor.processor frame hist :=
  match grid_indices with
  | [] => (Some [], processor)
  | grid_idx :: rest =>
      let start_idx := (grid_idx * frames_per_grid)%Z in
      let end_idx := Z.min (start_idx + frames_per_grid)
                           (Z.of_nat (length all_frames)) in
      let grid_frames := Py.slice start_idx end_idx all_frames in
      match grid_frames with
      | [] => (Some [], processor)
      | _ :: _ =>
          let output_file :=
            output_prefix +:+ "_" +:+ Py.format_04d grid_idx +:+ ".jpg" in
          let '(returned, processor) :=
            FilmstripProcessor.create_filmstrip calcHist compareHist
              _calculate_mse processor grid_frames (grid_saved grid_idx)
              detect_shot_changes in
          match
            shot_changes ← returned;
            segments ←
              mapM (shot_segment_of all_frames grid_cols start_idx)
                   shot_changes;
            Some (shot_changes, segments)
          with
          | None => (None, processor)
          | Some (shot_changes, segments) =>
              let report :=
                {| grid_index := grid_idx;
                   output_file := output_file;
                   shot_changes := shot_changes;
                   shot_segments := omap id segments;
                   frame_range := (start_idx, end_idx - 1)%Z |} in
              let '(reports, processor) :=
                grids_loop output_prefix detect_shot_changes grid_saved
                  all_frames frames_per_grid grid_cols rest processor in
              (cons report <$> reports, processor)
          end
      end
  end.

(** The returned dict. *)
Record filmstrips := {
  result_layout : option layout;
  output_files : list string;
  result_shot_changes : list grid_report
}.

(** The first capture of [create_adaptive_filmstrips], opened to read the
    properties of the video. *)
Record probe := {
  probe_opens : bool;
  probe_fps : float;
  probe_frame_width : float;
  probe_frame_height : float;
  probe_frame_count : float
}.

(** [create_adaptive_filmstrips].  [cap] is the capture that
    [extract_frames_from_video] opens afterwards.  The result is the
    returned dict, [None] for an exception, with the shot detector as the
    call leaves it. *)
Definition create_adaptive_filmstrips (cfg : config)
    (shot_detector : option (@ShotChangeDetector.detector frame hist))
    (pr : probe) (cap : @FilmstripProcessor.capture frame)
    (grid_saved : Z -> bool) (output_prefix : string)
    (video_duration source_fps : option float)
    (source_resolution : option (Z * Z)) (detect_shot_changes : bool)
    (start_time : float) (process_duration : option float)
    : option filmstrips * option (@ShotChangeDetector.detector frame hist) :=
  if negb (probe_opens pr) then
    (Some {| result_layout := None; output_files := [];
             result_shot_changes := [] |}, shot_detector)
  else
    let source_fps :=
      match source_fps with
      | Some fps => fps
      | None => Py.float_or (probe_fps pr) 30
      end in
    let prepared :=
      source_resolution ←
        match source_resolution with
        | Some r => Some r
        | None =>
            width ← Py.int_of_float (probe_frame_width pr);
            height ← Py.int_of_float (probe_frame_height pr);
            Some (width, height)
        end;
      video_duration ←
        match video_duration with
        | Some d => Some d
        | None =>
            total_frames ← Py.int_of_float (probe_frame_count pr);
            Some (if (0 <? source_fps)%float
                  then (Py.float_of_int total_frames / source_fps)%float
                  else 0%float)
        end;
      let video_duration :=
        match process_duration with
        | Some pd => Py.fmin pd (video_duration - start_time)%float
        | None =>
            if (0 <? start_time)%float
            then (video_duration - start_time)%float
            else video_duration
        end in
      layout ← calculate_optimal_layout cfg video_duration source_fps
                 source_resolution;
      all_frames ←
        FilmstripProcessor.extract_frames_from_video zeros_like
          black_480x640 cap start_time (frames_to_extract layout)
          (extraction_interval layout);
      Some (layout, all_frames) in
    match prepared with
    | None => (None, shot_detector)
    | Some (layout, all_frames) =>
        let processor :=
          FilmstripProcessor.__init__ (grid_rows layout) (grid_cols layout)
            512 (Some (fst (cell_size layout)))
            (Some (snd (cell_size layout)))
            (border_thickness cfg) (label_height cfg) shot_detector in
        let '(reports, processor) :=
          grids_loop output_prefix detect_shot_changes grid_saved all_frames
            (frames_per_grid layout) (grid_cols layout)
            (seqZ 0 (num_grids_needed layout)) processor in
        ((fun reports =>
            {| result_layout := Some layout;
               output_files := output_file <$> reports;
               result_shot_changes := reports |}) <$> reports,
         FilmstripProcessor.shot_detector processor)
    end.

End Filmstrips.

End AdaptiveFilmstripProcessor.

(* --------------------------------------------------------------------- *)
(** ** 03-modality-fused-understanding/components/fusion_analyzer.py       *)
(* --------------------------------------------------------------------- *)
Module FusionAnalyzer.

(** A value used as an identifier or title: Python [None] or a [str]
    (what [action.get('id')] yields under the response contract). *)
Abbreviation pykey := (option string).

(** A topic dict.  [topic_id] is the key 'id': [None] when the key is
    absent (only possible for results injected through the constructor). *)
Record Topic := {
  topic_id : option pykey;
  topic_summary : option string;
  start_time : float;
  end_time : float;
  chunks : list Z
}.

(** A chapter dict.  [chapter_id] is the key '_id' ([None]: key absent),
    [chapter] the key 'chapter' (the title). *)
Record Chapter := {
  chapter_id : option pykey;
  chapter : pykey;
  confidence : float;
  topics : list Topic
}.

Record sentence_json := {
  sentence_start_time_in_sec : float;
  sentence_end_time_in_sec : float;
  sentence : string
}.

(** The 'analysis_status' dict; the analyzer reads only these two keys. *)
Record analysis_status_t := {
  total_chunks_processed : option Z;
  notes : option string
}.

Definition empty_status : analysis_status_t :=
  {| total_chunks_processed := None; notes := None |}.

(** One entry of [analysis_results].  [time_range] keeps the two bounds
    that the source formats as [f"{start_time:.1f}s-{end_time:.1f}s"]. *)
Record analysis_result := {
  chapters : list Chapter;
  chunk_id : Z;
  time_range : float * float;
  transcript : string;
  transcript_sentences : list sentence_json;
  analysis_status : analysis_status_t
}.

(** One element of the response's 'actions' list, by its 'type'.  For
    [update_topic] an optional field is [None] when the key is absent. *)
Inductive action :=
| new_chapter (id chapter : pykey) (confidence : float)
| new_topic (id chapter_id : pykey) (topic_summary : option string)
    (start_time end_time : float) (chunks : list Z)
| update_topic (id : pykey) (topic_summary : option (option string))
    (start_time end_time : option float) (chunks : option (list Z))
| other_action.

(** The parsed response: [incremental_result.get('actions', [])] and
    [incremental_result.get('analysis_status', {})]. *)
Record incremental_result := {
  actions : list action;
  response_status : analysis_status_t
}.

Definition with_topic_id (t : Topic) (k : pykey) : Topic :=
  {| topic_id := Some k; topic_summary := topic_summary t;
     start_time := start_time t; end_time := end_time t;
     chunks := chunks t |}.

Definition with_chapter_id (h : Chapter) (k : pykey) : Chapter :=
  {| chapter_id := Some k; chapter := chapter h;
     confidence := confidence h; topics := topics h |}.

Definition with_topics (h : Chapter) (ts : list Topic) : Chapter :=
  {| chapter_id := chapter_id h; chapter := chapter h;
     confidence := confidence h; topics := ts |}.

(** The local variables of [_process_incremental_updates] that the loop
    over the actions reads and writes. *)
Record merge_state := {
  st_chapters : list Chapter;
  st_chapter_map : gmap (option string) nat;
  st_topic_map : gmap (option string) (nat * nat)
}.

(** [{h.get('chapter'): i for i, h in enumerate(chapters)}]: a later
    chapter with the same title replaces the earlier index. *)
Definition build_chapter_map (chs : list Chapter)
    : gmap (option string) nat :=
  fold_left (fun m ih => <[chapter ih.2 := ih.1]> m) (imap pair chs) ∅.

(** The inner loop [for t_idx, topic in enumerate(chapter.get('topics'))]:
    a topic without 'id' gets [f"t{len(topic_map) + 1}"]. *)
Fixpoint index_topic_list (h_idx t_idx : nat) (ts : list Topic)
    (topic_map : gmap (option string) (nat * nat))
    : list Topic * gmap (option string) (nat * nat) :=
  match ts with
  | [] => ([], topic_map)
  | topic :: rest =>
      let '(topic, key) :=
        match topic_id topic with
        | None =>
            let k := Some ("t" +:+ pretty (size topic_map + 1)%nat) in
            (with_topic_id topic k, k)
        | Some k => (topic, k)
        end in
      let topic_map := <[key := (h_idx, t_idx)]> topic_map in
      let '(rest, topic_map) :=
        index_topic_list h_idx (S t_idx) rest topic_map in
      (topic :: rest, topic_map)
  end.

(** The outer loop [for h_idx, chapter in enumerate(chapters)]. *)
Fixpoint index_chapters (h_idx : nat) (chs : list Chapter)
    (topic_map : gmap (option string) (nat * nat))
    : list Chapter * gmap (option string) (nat * nat) :=
  match chs with
  | [] => ([], topic_map)
  | h :: rest =>
      let '(ts, topic_map) := index_topic_list h_idx 0 (topics h) topic_map in
      let '(rest, topic_map) := index_chapters (S h_idx) rest topic_map in
      (with_topics h ts :: rest, topic_map)
  end.

(** "Find chapter by ID": chapters met before the match get a missing
    '_id' filled in with [f"h{i+1}"]; the loop stops at the first match. *)
Fixpoint find_chapter (i : nat) (chs : list Chapter) (wanted : pykey)
    : list Chapter * option nat :=
  match chs with
  | [] => ([], None)
  | h :: rest =>
      let h := match chapter_id h with
               | None => with_chapter_id h (Some ("h" +:+ pretty (i + 1)%nat))
               | Some _ => h
               end in
      if decide (chapter_id h = Some wanted) then (h :: rest, Some i)
      else
        let '(rest, found) := find_chapter (S i) rest wanted in
        (h :: rest, found)
  end.

(** "Update fields that are provided". *)
Definition patch_topic (topic : Topic)
    (summary : option (option string)) (s e : option float)
    (cks : option (list Z)) : Topic :=
  {| topic_id := topic_id topic;
     topic_summary := default (topic_summary topic) summary;
     start_time := default (start_time topic) s;
     end_time := default (end_time topic) e;
     chunks := default (chunks topic) cks |}.

(** Body of [for action in actions].  [None] is the [IndexError] of
    [chapters[h_idx]['topics'][t_idx]]. *)
Definition apply_action (st : merge_state) (a : action)
    : option merge_state :=
  match a with
  | new_chapter id title conf =>
      let new_chapter :=
        {| chapter_id := Some id; chapter := title; confidence := conf;
           topics := [] |} in
      let chapters := st_chapters st ++ [new_chapter] in
      Some {| st_chapters := chapters;
              st_chapter_map :=
                <[chapter new_chapter := (length chapters - 1)%nat]>
                  (st_chapter_map st);
              st_topic_map := st_topic_map st |}
  | new_topic id wanted summary s e cks =>
      let '(chapters, chapter_idx) := find_chapter 0 (st_chapters st) wanted in
      match chapter_idx with
      | Some chapter_idx =>
          let new_topic :=
            {| topic_id := Some id; topic_summary := summary;
               start_time := s; end_time := e; chunks := cks |} in
          h ← chapters !! chapter_idx;
          let ts := topics h ++ [new_topic] in
          Some {| st_chapters := <[chapter_idx := with_topics h ts]> chapters;
                  st_chapter_map := st_chapter_map st;
                  st_topic_map :=
                    <[id := (chapter_idx, (length ts - 1)%nat)]>
                      (st_topic_map st) |}
      | None =>
          Some {| st_chapters := chapters;
                  st_chapter_map := st_chapter_map st;
                  st_topic_map := st_topic_map st |}
      end
  | update_topic id summary s e cks =>
      match st_topic_map st !! id with
      | Some (h_idx, t_idx) =>
          h ← st_chapters st !! h_idx;
          topic ← topics h !! t_idx;
          let topic := patch_topic topic summary s e cks in
          Some {| st_chapters :=
                    <[h_idx := with_topics h (<[t_idx := topic]> (topics h))]>
                      (st_chapters st);
                  st_chapter_map := st_chapter_map st;
                  st_topic_map := st_topic_map st |}
      | None => Some st
      end
  | other_action => Some st
  end.

(** The structure the merge starts from: a deep copy of the previous
    chunk's chapters, or the empty list. *)
Definition starting_chapters (analysis_results : gmap Z analysis_result)
    (chunk_id : Z) : list Chapter :=
  if (0 <? chunk_id)%Z then
    match analysis_results !! (chunk_id - 1)%Z with
    | Some previous => chapters previous
    | None => []
    end
  else [].

(** The state on entry to the loop over the actions. *)
Definition initial_state (chs : list Chapter) : merge_state :=
  let chapter_map := build_chapter_map chs in
  let '(chs, topic_map) := index_chapters 0 chs ∅ in
  {| st_chapters := chs; st_chapter_map := chapter_map;
     st_topic_map := topic_map |}.

Definition run_actions (acts : list action) (st : merge_state)
    : option merge_state :=
  Py.for_each apply_action acts st.

Definition _process_incremental_updates
    (analysis_results : gmap Z analysis_result)
    (incremental_result : incremental_result) (chunk_id : Z)
    (start_time end_time : float) (transcript_text : string)
    (transcript_sentences : list sentence_json) : option analysis_result :=
  let st := initial_state (starting_chapters analysis_results chunk_id) in
  st ← run_actions (actions incremental_result) st;
  Some {| chapters := st_chapters st;
          chunk_id := chunk_id;
          time_range := (start_time, end_time);
          transcript := transcript_text;
          transcript_sentences := transcript_sentences;
          analysis_status := response_status incremental_result |}.

(** The '_id' values and the 'id' values present in a chapter list. *)
Definition chapter_ids (chs : list Chapter) : list (option string) :=
  omap chapter_id chs.

Definition topic_ids (chs : list Chapter) : list (option string) :=
  h ← chs; omap topic_id (topics h).

(** The ids an action list creates. *)
Definition created_chapter_ids (acts : list action) : list (option string) :=
  omap (fun a => match a with
                 | new_chapter id _ _ => Some id
                 | _ => None
                 end) acts.

Definition created_topic_ids (acts : list action) : list (option string) :=
  omap (fun a => match a with
                 | new_topic id _ _ _ _ _ => Some id
                 | _ => None
                 end) acts.

(** WARNING and ERROR lines of [log_component], with the values they
    interpolate; DEBUG and INFO lines are left out. *)
Inductive log_event :=
| OverlapDetected (chunk_id : Z) (chapter_no : nat)
| OverlapTopicEnds (topic_no : nat) (current_end : float)
| OverlapTopicStarts (topic_no : nat) (next_start : float)
| OverlapDuration (overlap_duration : float)
| TotalOverlaps (chunk_id : Z) (overlap_count : nat)
| FailedToParse (chunk_id : Z)
| RawContent (content : string)
| FusionAnalysisError (chunk_id : Z).

(** [for i in range(len(topics_sorted) - 1)], from index [i] on; returns
    the lines logged and the number of overlaps counted. *)
Fixpoint scan_overlaps (chunk_id : Z) (chapter_idx i : nat)
    (topics_sorted : list Topic) : list log_event * nat :=
  match topics_sorted with
  | current_topic :: ((next_topic :: _) as rest) =>
      let current_end := end_time current_topic in
      let next_start := start_time next_topic in
      let '(logs, overlap_count) :=
        scan_overlaps chunk_id chapter_idx (S i) rest in
      if (next_start <? current_end)%float then
        let overlap_duration := (current_end - next_start)%float in
        ([OverlapDetected chunk_id (chapter_idx + 1);
          OverlapTopicEnds (i + 1) current_end;
          OverlapTopicStarts (i + 2) next_start;
          OverlapDuration overlap_duration] ++ logs,
         S overlap_count)
      else (logs, overlap_count)
  | _ => ([], 0%nat)
  end.

Definition chapter_overlaps (chunk_id : Z) (chapter_idx : nat) (h : Chapter)
    : list log_event * nat :=
  if (length (topics h) <=? 1)%nat then ([], 0%nat)
  else scan_overlaps chunk_id chapter_idx 0 (Py.sorted start_time (topics h)).

(** [for chapter_idx, chapter in enumerate(chapters)]. *)
Fixpoint detect_chapters (chunk_id : Z) (chapter_idx : nat)
    (chs : list Chapter) : list log_event * nat :=
  match chs with
  | [] => ([], 0%nat)
  | h :: rest =>
      let '(logs1, n1) := chapter_overlaps chunk_id chapter_idx h in
      let '(logs2, n2) := detect_chapters chunk_id (S chapter_idx) rest in
      (logs1 ++ logs2, (n1 + n2)%nat)
  end.

(** [_detect_overlapping_topics]: returns its argument as the call leaves
    it, and the lines logged. *)
Definition _detect_overlapping_topics (r : analysis_result) (chunk_id : Z)
    : analysis_result * list log_event :=
  let '(logs, overlap_count) := detect_chapters chunk_id 0 (chapters r) in
  (r, logs ++ (if (0 <? overlap_count)%nat
               then [TotalOverlaps chunk_id overlap_count] else [])).

(** *** Conversation history *)

(** A block of a message's 'content' list.  [text_block t e]: type 'text',
    [t = None] when the key 'text' is absent, [e] the cache-control mark. *)
Inductive content_block :=
| text_block (text : option string) (ephemeral : bool)
| image_block (data : string).

(** A message's 'content': a list of blocks, or something that is not a
    list. *)
Inductive content_t :=
| blocks (bs : list content_block)
| not_a_list.

Record message := {
  role : string;
  content : content_t
}.

(** [next((c.get('text', '') for c in content if c.get('type') == 'text'),
    '')]. *)
Definition text_content (bs : list content_block) : string :=
  default EmptyString
    (head (omap (fun c => match c with
                          | text_block t _ => Some (default EmptyString t)
                          | image_block _ => None
                          end) bs)).

Definition chunk_identifier (chunk_id : Z) : string :=
  "chunk_" +:+ Py.format_04d chunk_id.

(** The chunk ids of every topic of [chapters_to_keep]. *)
Definition chunks_of (chapters_to_keep : list Chapter) : gset Z :=
  list_to_set (h ← chapters_to_keep; t ← topics h; chunks t).

(** [keep_this_pair] after the loop over [chunks_to_keep]. *)
Definition keep_this_pair (chunks_to_keep : gset Z) (text : string) : bool :=
  existsb (fun c => Py.contains (chunk_identifier c) text)
          (elements chunks_to_keep).

(** The [while i < len(self.messages)] loop, from position [i] on: the
    list is what remains from [i], the result what is appended to
    [filtered_messages]. *)
Fixpoint filter_messages (keep : string -> bool) (msgs : list message)
    : list message :=
  match msgs with
  | [] => []
  | m :: rest =>
      if String.eqb (role m) "user" then
        match content m with
        | blocks ((_ :: _) as bs) =>
            if keep (text_content bs) then
              match rest with
              | next :: rest' =>
                  if String.eqb (role next) "assistant"
                  then m :: next :: filter_messages keep rest'
                  else m :: filter_messages keep rest
              | [] => [m]
              end
            else
              match rest with
              | next :: rest' =>
                  if String.eqb (role next) "assistant"
                  then filter_messages keep rest'
                  else filter_messages keep rest
              | [] => []
              end
        | _ => filter_messages keep rest
        end
      else filter_messages keep rest
  end.

Definition chapters_to_keep (k : Z) (all_chapters : list Chapter)
    : list Chapter :=
  Py.slice_from (- (k + 1)) all_chapters.

Definition _cleanup_old_messages (keep_n_chapters : option Z)
    (all_chapters : list Chapter) (messages : list message)
    : list message :=
  match keep_n_chapters with
  | None => messages
  | Some k =>
      if (Z.of_nat (length all_chapters) <=? k + 1)%Z then messages
      else
        filter_messages
          (keep_this_pair (chunks_of (chapters_to_keep k all_chapters)))
          messages
  end.

(** The fields of a [FusionAnalyzer] that the merge path reads or writes.
    [clip_runs] records each start of [_create_chapter_clips] with the
    chapters it was started for. *)
Record analyzer := {
  analysis_results : gmap Z analysis_result;
  keep_n_chapters : option Z;
  messages : list message;
  finalized_chapters : list Chapter;
  all_chapters_for_display : option (list Chapter);
  clip_runs : list (list Chapter);
  log : list log_event
}.

(** [sorted(self.analysis_results.items(), key=lambda x: x[0])[-1][1]]. *)
Definition latest_result (rs : gmap Z analysis_result)
    : option analysis_result :=
  snd <$> map_fold
    (fun k r acc =>
       match acc with
       | Some (k', _) => if (k' <? k)%Z then Some (k, r) else acc
       | None => Some (k, r)
       end) None rs.

Definition update_finalized_chapters (a : analyzer) : analyzer :=
  match latest_result (analysis_results a) with
  | None => a
  | Some latest_result =>
      let all_chapters := chapters latest_result in
      if (1 <=? length all_chapters)%nat then
        if (1 <? length all_chapters)%nat then
          let finalized := take (length all_chapters - 1) all_chapters in
          let newly_finalized_count :=
            (Z.of_nat (length finalized)
             - Z.of_nat (length (finalized_chapters a)))%Z in
          let newly := (0 <? newly_finalized_count)%Z in
          {| analysis_results := analysis_results a;
             keep_n_chapters := keep_n_chapters a;
             messages :=
               _cleanup_old_messages (keep_n_chapters a) all_chapters
                                     (messages a);
             finalized_chapters :=
               if newly then finalized else finalized_chapters a;
             all_chapters_for_display := Some all_chapters;
             clip_runs :=
               if newly then clip_runs a ++ [finalized] else clip_runs a;
             log := log a |}
        else
          {| analysis_results := analysis_results a;
             keep_n_chapters := keep_n_chapters a;
             messages := messages a;
             finalized_chapters := finalized_chapters a;
             all_chapters_for_display := Some all_chapters;
             clip_runs := clip_runs a;
             log := log a |}
      else a
  end.

(** *** One analysis request *)

(** An element of the shared [sentence_buffer]. *)
Record buffered_sentence := {
  buffered_start_time : float;
  buffered_end_time : float;
  buffered_sentence_text : string
}.

Definition no_transcript : string :=
  "[No transcript available for this time range]".

Fixpoint join_with_space (l : list string) : string :=
  match l with
  | [] => EmptyString
  | [x] => x
  | x :: rest => x +:+ " " +:+ join_with_space rest
  end.

(** [_get_transcript_for_timerange]: ['text'] and ['sentences']. *)
Definition _get_transcript_for_timerange (start_time end_time : float)
    (sentence_buffer : list buffered_sentence)
    : string * list sentence_json :=
  let relevant :=
    filter (fun sd => Is_true ((buffered_start_time sd <=? end_time)
                               && (start_time <=? buffered_end_time sd))%float)
           sentence_buffer in
  let relevant_sentences := map buffered_sentence_text relevant in
  let relevant_sentences_json :=
    map (fun sd =>
           {| sentence_start_time_in_sec := buffered_start_time sd;
              sentence_end_time_in_sec := buffered_end_time sd;
              sentence := buffered_sentence_text sd |}) relevant in
  (match relevant_sentences with
   | [] => no_transcript
   | _ => join_with_space relevant_sentences
   end,
   relevant_sentences_json).

(** [re.search(r'```json\s*(.*?)\s*```', content, re.DOTALL)]: after the
    opening fence and the white space that follows it, the lazy group is
    the shortest text after which only white space separates from a
    closing fence. *)
Fixpoint lazy_group (s : string) : option string :=
  if String.prefix "```" (Py.lstrip s) then Some EmptyString
  else
    match s with
    | String c rest => String c <$> lazy_group rest
    | EmptyString => None
    end.

(** [json_match.group(1).strip()] when the search matches. *)
Definition extract_json_block (content : string) : option string :=
  rest ← Py.find_after "```json" content;
  g ← lazy_group (Py.lstrip rest);
  Some (Py.strip g).

(** [_print_analysis_result] evaluates, for every topic,
    [textwrap.fill(summary, ...)], [_format_time] of the two times and of
    their difference, and [chunks[0]]; each raises on the values excluded
    here. *)
Definition topic_prints (t : Topic) : bool :=
  match topic_summary t with Some _ => true | None => false end
  && Py.is_finite (start_time t) && Py.is_finite (end_time t)
  && Py.is_finite (end_time t - start_time t)%float
  && match chunks t with [] => false | _ :: _ => true end.

Definition _print_analysis_result_returns (r : analysis_result) : bool :=
  forallb (fun h => forallb topic_prints (topics h)) (chapters r).

Definition newline : string := String (ascii_of_nat 10) EmptyString.

Record request := {
  request_chunk_id : Z;
  request_start_time : float;
  request_end_time : float
}.

Definition set_messages (a : analyzer) (ms : list message) : analyzer :=
  {| analysis_results := analysis_results a;
     keep_n_chapters := keep_n_chapters a;
     messages := ms;
     finalized_chapters := finalized_chapters a;
     all_chapters_for_display := all_chapters_for_display a;
     clip_runs := clip_runs a;
     log := log a |}.

Definition add_log (a : analyzer) (l : list log_event) : analyzer :=
  {| analysis_results := analysis_results a;
     keep_n_chapters := keep_n_chapters a;
     messages := messages a;
     finalized_chapters := finalized_chapters a;
     all_chapters_for_display := all_chapters_for_display a;
     clip_runs := clip_runs a;
     log := log a ++ l |}.

Definition store_result (a : analyzer) (chunk_id : Z) (r : analysis_result)
    : analyzer :=
  {| analysis_results := <[chunk_id := r]> (analysis_results a);
     keep_n_chapters := keep_n_chapters a;
     messages := messages a;
     finalized_chapters := finalized_chapters a;
     all_chapters_for_display := all_chapters_for_display a;
     clip_runs := clip_runs a;
     log := log a |}.

(** What [json.loads(content)] gives the analyzer: a [JSONDecodeError], a
    response object, or valid JSON that is not one (a list, a number, an
    object of another shape), on which the merge raises. *)
Inductive json_outcome :=
| decode_error
| response_object (r : incremental_result)
| other_json.

Section Response.

(** [json.loads] from the standard library. *)
Variable json_loads : string -> json_outcome.
(** [json.dumps(transcript_sentences, indent=2, ensure_ascii=False)]. *)
Variable json_dumps : list sentence_json -> string.
(** [f"{x:.1f}"]. *)
Variable format_1f : float -> string.

(** The text of the user turn as it stays in the history. *)
Definition stored_user_text (chunk_id : Z) (start_time end_time : float)
    (transcript_json : string) : string :=
  "Chunk identifier: " +:+ chunk_identifier chunk_id
  +:+ ". Time range: " +:+ format_1f start_time +:+ "s - "
  +:+ format_1f end_time +:+ "s." +:+ newline +:+ newline
  +:+ "Here is the audio transcript for this chunk with precise timestamps:"
  +:+ newline +:+ newline +:+ transcript_json +:+ newline +:+ newline.

(** The parse-and-store block, entered with the response text [content];
    the history already holds the request and the response. *)
Definition parse_and_store (a : analyzer) (rq : request)
    (transcript_text : string) (transcript_sentences : list sentence_json)
    (content : string) : analyzer :=
  let chunk_id := request_chunk_id rq in
  match extract_json_block content with
  | None => add_log a [FailedToParse chunk_id; RawContent content]
  | Some content =>
      match json_loads content with
      | decode_error => add_log a [FailedToParse chunk_id; RawContent content]
      | other_json => add_log a [FusionAnalysisError chunk_id]
      | response_object incremental_result =>
          match _process_incremental_updates (analysis_results a)
                  incremental_result chunk_id (request_start_time rq)
                  (request_end_time rq) transcript_text transcript_sentences
          with
          | None => add_log a [FusionAnalysisError chunk_id]
          | Some analysis_result =>
              let '(analysis_result, logs) :=
                _detect_overlapping_topics analysis_result chunk_id in
              let a := add_log a logs in
              let a := store_result a chunk_id analysis_result in
              if _print_analysis_result_returns analysis_result
              then update_finalized_chapters a
              else add_log a [FusionAnalysisError chunk_id]
          end
      end
  end.

(** [_perform_fusion_analysis] for one request.  [sentence_buffer] is the
    shared buffer as the call finds it; [image] is the encoded filmstrip,
    [None] when reading the file raised; [spectrogram_text] and
    [filmstrip_caption] are the prompt parts built from the acoustic
    features and the shot changes; [response] is the text of the model's
    answer, [None] when the call to the model or the decoding of its
    envelope raised.  The token counters are left out. *)
Definition _perform_fusion_analysis (a : analyzer) (rq : request)
    (sentence_buffer : list buffered_sentence) (image : option string)
    (spectrogram_text filmstrip_caption : string)
    (response : option string) : analyzer :=
  let chunk_id := request_chunk_id rq in
  let start_time := request_start_time rq in
  let end_time := request_end_time rq in
  let '(transcript_text, transcript_sentences) :=
    _get_transcript_for_timerange start_time end_time sentence_buffer in
  match image with
  | None => add_log a [FusionAnalysisError chunk_id]
  | Some image =>
  let transcript_json := json_dumps transcript_sentences in
  let stored := stored_user_text chunk_id start_time end_time transcript_json in
  let new_message :=
    {| role := "user";
       content := blocks
         [text_block
            (Some ("Chunk identifier: " +:+ chunk_identifier chunk_id
                   +:+ ". Time range: " +:+ format_1f start_time +:+ "s - "
                   +:+ format_1f end_time +:+ "s." +:+ newline +:+ newline
                   +:+ "Here is the audio transcript for this chunk with precise timestamps:"
                   +:+ newline +:+ newline +:+ transcript_json +:+ " "
                   +:+ newline +:+ newline +:+ spectrogram_text)) true;
          image_block image;
          text_block (Some filmstrip_caption) false] |} in
  let a := set_messages a (messages a ++ [new_message]) in
  match response with
  | None => add_log a [FusionAnalysisError chunk_id]
  | Some content =>
      let ms := <[(length (messages a) - 1)%nat :=
                   {| role := "user";
                      content := blocks [text_block (Some stored) false] |}]>
                  (messages a) in
      let ms := ms ++ [{| role := "assistant";
                          content := blocks [text_block (Some content) false] |}] in
      parse_and_store (set_messages a ms) rq transcript_text
                      transcript_sentences content
  end
  end.

End Response.

(** [FusionAnalyzer(...)] with the constructor's defaults for what the
    merge path uses; [keep_n_chapters] defaults to 1. *)
Definition __init__ (analysis_results : option (gmap Z analysis_result))
    (keep_n_chapters : option Z) : analyzer :=
  {| analysis_results := default ∅ analysis_results;
     keep_n_chapters := keep_n_chapters;
     messages := [];
     finalized_chapters := [];
     all_chapters_for_display := None;
     clip_runs := [];
     log := [] |}.

(** *** Shutdown and the worker *)

(** The two warnings of [finalize_all_chapters]. *)
Inductive finalize_warning :=
| NoAnalysisResultsToFinalize
| NoChaptersFound.

(** [finalize_all_chapters]: every chapter of the latest result becomes
    final, the last one too, and the clips are started for them.  The
    table data [all_chapters_for_display] is not touched. *)
Definition finalize_all_chapters (a : analyzer)
    : analyzer * option finalize_warning :=
  match latest_result (analysis_results a) with
  | None => (a, Some NoAnalysisResultsToFinalize)
  | Some latest_result =>
      match chapters latest_result with
      | [] => (a, Some NoChaptersFound)
      | (_ :: _) as chapters =>
          ({| analysis_results := analysis_results a;
              keep_n_chapters := keep_n_chapters a;
              messages := messages a;
              finalized_chapters := chapters;
              all_chapters_for_display := all_chapters_for_display a;
              clip_runs := clip_runs a ++ [chapters];
              log := log a |}, None)
      end
  end.

(** What one request taken from [analysis_queue] meets when it is
    analysed: the arguments of [_perform_fusion_analysis]. *)
Record work_item := {
  item_request : request;
  item_sentence_buffer : list buffered_sentence;
  item_image : option string;
  item_spectrogram_text : string;
  item_filmstrip_caption : string;
  item_response : option string
}.

Section Worker.

Variable json_loads : string -> json_outcome.
Variable json_dumps : list sentence_json -> string.
Variable format_1f : float -> string.

(** [_analysis_worker]: the requests it gets from the queue, while running
    and while draining, are analysed one after the other in the order of
    the queue. *)
Definition _analysis_worker (a : analyzer) (taken : list work_item)
    : analyzer :=
  fold_left
    (fun a it =>
       _perform_fusion_analysis json_loads json_dumps format_1f a
         (item_request it) (item_sentence_buffer it) (item_image it)
         (item_spectrogram_text it) (item_filmstrip_caption it)
         (item_response it))
    taken a.

End Worker.

End FusionAnalyzer.

(* ===================================================================== *)
(** * Part II. The vocabulary of the properties                           *)
(* ===================================================================== *)

(** ** ShotChangeDetector *)
Section ShotChangeDetectorSpec.

Import ShotChangeDetector.

Context {frame hist : Type}.
Variable calcHist : Z * Z * Z -> frame -> hist.
Variable compareHist : hist -> hist -> float.
Variable _calculate_mse : frame -> frame -> float.

Local Abbreviation detector := (@detector frame hist).
Local Abbreviation compare_frames :=
  (compare_frames calcHist compareHist _calculate_mse).

(** Two detectors built with the same arguments, whatever they retain. *)
Definition same_config (d1 d2 : detector) : Prop :=
  method d1 = method d2 /\ threshold d1 = threshold d2 /\
  hist_bins d1 = hist_bins d2.

(** Nothing retained: the state after [__init__] or [reset]. *)
Definition fresh (d : detector) : Prop :=
  last_frame d = None /\ previous_histogram d = None.

(** What a detector remembers of the frame [prev] seen last, in the field
    its method uses in single-frame mode. *)
Definition remembers (d : detector) (prev : option frame) : Prop :=
  match method d with
  | histogram => previous_histogram d = calcHist (hist_bins d) <$> prev
  | mse => last_frame d = prev
  end.

(** The flags of a frame sequence: each frame against the one before it,
    the first against [prev]. *)
Fixpoint flags (cmp : frame -> frame -> bool) (prev : option frame)
    (frames : list frame) : list bool :=
  match frames with
  | [] => []
  | f :: rest =>
      match prev with Some p => cmp p f | None => false end
      :: flags cmp (Some f) rest
  end.

(** The flag [detect_batch] puts at position 0 of a batch of two frames or
    more. *)
Definition cross_flag (d : detector) (f0 : frame) : bool :=
  enable_cross_chunk d &&
  match last_frame d with
  | Some lf => compare_frames d lf f0
  | None => false
  end.

End ShotChangeDetectorSpec.

(** A toy instance of the external calls, for replaying the detector by
    evaluation: a frame is its brightness, the histogram is the frame, and
    the two scores separate equal from different frames. *)
Definition toy_calcHist (_ : Z * Z * Z) (f : Z) : Z := f.
Definition toy_compareHist (h1 h2 : Z) : float :=
  if (h1 =? h2)%Z then 1%float else 0%float.
Definition toy_mse (f1 f2 : Z) : float :=
  Py.float_of_int ((f1 - f2) * (f1 - f2)).

Definition toy_detector : @ShotChangeDetector.detector Z Z :=
  ShotChangeDetector.create_fusion_detector 0.7.

(** ** ChunkProcessor *)

(** The duration field of ffprobe's JSON output, for the two files of the
    readiness example. *)
Definition toy_parse_duration (stdout : string) : option float :=
  if String.eqb stdout "19.4" then Some 19.4%float
  else if String.eqb stdout "18.5" then Some 18.5%float
  else None.

Definition chunk_file (stdout : string) : ChunkProcessor.file_view :=
  {| ChunkProcessor.path_exists := true;
     ChunkProcessor.getsize := Some 1200000%Z;
     ChunkProcessor.probe := ChunkProcessor.ProbeCompleted 0 stdout |}.

(** ** AdaptiveFilmstripProcessor *)
Section AdaptiveLayoutSpec.

Import AdaptiveFilmstripProcessor.

(** The same configuration without a file-size limit. *)
Definition without_limit (cfg : config) : config :=
  {| max_grid_width := max_grid_width cfg;
     max_grid_height := max_grid_height cfg;
     max_grid_images := max_grid_images cfg;
     border_thickness := border_thickness cfg;
     label_height := label_height cfg;
     preserve_source_resolution := preserve_source_resolution cfg;
     fixed_grid_layout := fixed_grid_layout cfg;
     max_file_size_mb := None |}.

(** Sizes are sizes: no negative border, label, or fixed row and column
    count, and a source resolution that is positive. *)
Definition well_formed (cfg : config) (source_resolution : Z * Z) : Prop :=
  (0 <= border_thickness cfg)%Z /\ (0 <= label_height cfg)%Z
  /\ (0 < fst source_resolution)%Z /\ (0 < snd source_resolution)%Z
  /\ match fixed_grid_layout cfg with
     | Some (rows, cols) => (0 <= rows)%Z /\ (0 <= cols)%Z
     | None => True
     end.

(** The grid each branch of [_calculate_grid_dimensions] reaches before
    its closing file-size step; [Some None] where the branch returns the
    fallback. *)
Definition base_grid (cfg : config) (aspect_ratio : float)
    (source_resolution : Z * Z) : option (option grid) :=
  let '(source_width, source_height) := source_resolution in
  match fixed_grid_layout cfg with
  | Some (fixed_rows, fixed_cols) =>
      '(cell_width, cell_height) ←
        (if preserve_source_resolution cfg
         then Some (source_width, source_height)
         else
           cell_width ←
             Py.floordiv (max_grid_width cfg
                          - (fixed_cols + 1) * border_thickness cfg)
                         fixed_cols;
           cell_height ←
             Py.floordiv (max_grid_height cfg
                          - (fixed_rows + 1) * border_thickness cfg
                          - fixed_rows * label_height cfg)
                         fixed_rows;
           fit_aspect cell_width cell_height aspect_ratio);
      if negb (fits cfg (cell_width, cell_height, fixed_rows, fixed_cols))
      then Some None
      else Some (Some (cell_width, cell_height, fixed_rows, fixed_cols))
  | None =>
      if preserve_source_resolution cfg then
        max_cols ← Py.floordiv (max_grid_width cfg - border_thickness cfg)
                     (source_width + border_thickness cfg);
        max_rows ← Py.floordiv (max_grid_height cfg - border_thickness cfg)
                     (source_height + label_height cfg + border_thickness cfg);
        if ((max_cols <? 1) || (max_rows <? 1))%Z then Some None
        else Some (Some (source_width, source_height, max_rows, max_cols))
      else
        '(best_layout, _) ←
          Py.for_each (try_grid cfg aspect_ratio) candidates (None, 0%Z);
        Some best_layout
  end.

Definition close_grid (cfg : config) (aspect_ratio : float)
    (g : option grid) : option grid :=
  match g with
  | Some g => finish cfg aspect_ratio g
  | None => Some fallback_grid
  end.

(** A grid that respects both pixel bounds and has no negative count. *)
Definition grid_ok (cfg : config) (g : grid) : Prop :=
  let '(cell_width, cell_height, rows, cols) := g in
  (total_width_of cfg cols cell_width <= max_grid_width cfg)%Z
  /\ (total_height_of cfg rows cell_height <= max_grid_height cfg)%Z
  /\ (0 <= rows)%Z /\ (0 <= cols)%Z.

End AdaptiveLayoutSpec.

(** A 1000x1000 grid that keeps the source resolution, for a 1920x1080
    source: no cell fits, so the fallback is returned. *)
Definition small_preserving_config : AdaptiveFilmstripProcessor.config :=
  {| AdaptiveFilmstripProcessor.max_grid_width := 1000;
     AdaptiveFilmstripProcessor.max_grid_height := 1000;
     AdaptiveFilmstripProcessor.max_grid_images := 20;
     AdaptiveFilmstripProcessor.border_thickness := 8;
     AdaptiveFilmstripProcessor.label_height := 40;
     AdaptiveFilmstripProcessor.preserve_source_resolution := true;
     AdaptiveFilmstripProcessor.fixed_grid_layout := None;
     AdaptiveFilmstripProcessor.max_file_size_mb := None |}.

(** The constructor's defaults with a 3.5 MB budget on an 8000x8000 grid. *)
Definition budget_config : AdaptiveFilmstripProcessor.config :=
  {| AdaptiveFilmstripProcessor.max_grid_width := 8000;
     AdaptiveFilmstripProcessor.max_grid_height := 8000;
     AdaptiveFilmstripProcessor.max_grid_images := 20;
     AdaptiveFilmstripProcessor.border_thickness := 8;
     AdaptiveFilmstripProcessor.label_height := 40;
     AdaptiveFilmstripProcessor.preserve_source_resolution := false;
     AdaptiveFilmstripProcessor.fixed_grid_layout := None;
     AdaptiveFilmstripProcessor.max_file_size_mb := Some 3.5%float |}.

Definition budget_layout : AdaptiveFilmstripProcessor.layout :=
  {| AdaptiveFilmstripProcessor.total_frames := 600;
     AdaptiveFilmstripProcessor.frames_per_grid := 400;
     AdaptiveFilmstripProcessor.grid_rows := 20;
     AdaptiveFilmstripProcessor.grid_cols := 20;
     AdaptiveFilmstripProcessor.cell_size := (193, 108)%Z;
     AdaptiveFilmstripProcessor.num_grids_needed := 2;
     AdaptiveFilmstripProcessor.sampling_rate := 1;
     AdaptiveFilmstripProcessor.frames_to_extract := 600;
     AdaptiveFilmstripProcessor.extraction_interval :=
       (20 / Py.float_of_int 600)%float;
     AdaptiveFilmstripProcessor.max_frames_capacity := 8000 |}.

(** ** FusionAnalyzer: the merge *)
Section MergeSpec.

Import FusionAnalyzer.

Implicit Types (chs : list Chapter) (ts : list Topic) (st : merge_state).
Implicit Types (tm : gmap (option string) (nat * nat)) (k : option string).

(** A topic keeps its id; a chapter keeps its '_id', its title and, place
    by place, its topics; a chapter list keeps its chapters place by
    place. *)
Definition topic_kept (t t' : Topic) : Prop :=
  forall k, topic_id t = Some k -> topic_id t' = Some k.

Definition topics_kept ts ts' : Prop :=
  forall j t, ts !! j = Some t -> exists t', ts' !! j = Some t' /\ topic_kept t t'.

Definition chapter_kept (c c' : Chapter) : Prop :=
  (forall k, chapter_id c = Some k -> chapter_id c' = Some k)
  /\ chapter c' = chapter c
  /\ topics_kept (topics c) (topics c').

Definition chapters_kept chs chs' : Prop :=
  forall i c, chs !! i = Some c ->
    exists c', chs' !! i = Some c' /\ chapter_kept c c'.

(** Every entry of [topic_map] points at an existing topic that carries
    the entry's key as its id. *)
Definition map_ok chs tm : Prop :=
  forall k h t, tm !! k = Some (h, t) ->
    exists c tp, chs !! h = Some c /\ topics c !! t = Some tp
                 /\ topic_id tp = Some k.

(** What the search for a chapter may change: a missing '_id' is filled
    in; titles and topics stay. *)
Definition relabelled (c c' : Chapter) : Prop :=
  topics c' = topics c /\ chapter c' = chapter c
  /\ forall k, chapter_id c = Some k -> chapter_id c' = Some k.

(** After the actions [done], applied from the empty structure: the
    chapters are exactly the ones created, each with its '_id', and every
    topic id was created by one of the actions. *)
Definition made_by (done : list action) st : Prop :=
  chapter_id <$> st_chapters st = Some <$> created_chapter_ids done
  /\ forall k, k ∈ topic_ids (st_chapters st) -> k ∈ created_topic_ids done.

End MergeSpec.

(** The three responses of a 60-second video cut in chunks of 20 seconds,
    and the results they build. *)
Definition response_1 : FusionAnalyzer.incremental_result :=
  {| FusionAnalyzer.actions :=
       [FusionAnalyzer.new_chapter (Some "h1") (Some "Introduction") 0;
        FusionAnalyzer.new_topic (Some "t1") (Some "h1") (Some "Welcome")
          0 20 [0%Z]];
     FusionAnalyzer.response_status := FusionAnalyzer.empty_status |}.

Definition response_2 : FusionAnalyzer.incremental_result :=
  {| FusionAnalyzer.actions :=
       [FusionAnalyzer.update_topic (Some "t1") None None (Some 40%float)
          (Some [0%Z; 1%Z])];
     FusionAnalyzer.response_status := FusionAnalyzer.empty_status |}.

Definition response_3 : FusionAnalyzer.incremental_result :=
  {| FusionAnalyzer.actions :=
       [FusionAnalyzer.new_chapter (Some "h2") (Some "Databases") 0;
        FusionAnalyzer.new_topic (Some "t2") (Some "h2") (Some "Tables")
          40 60 [2%Z]];
     FusionAnalyzer.response_status := FusionAnalyzer.empty_status |}.

Definition topic_1 (end_time : float) (chunks : list Z)
    : FusionAnalyzer.Topic :=
  {| FusionAnalyzer.topic_id := Some (Some "t1");
     FusionAnalyzer.topic_summary := Some "Welcome";
     FusionAnalyzer.start_time := 0;
     FusionAnalyzer.end_time := end_time;
     FusionAnalyzer.chunks := chunks |}.

Definition chapter_1 (t : FusionAnalyzer.Topic) : FusionAnalyzer.Chapter :=
  {| FusionAnalyzer.chapter_id := Some (Some "h1");
     FusionAnalyzer.chapter := Some "Introduction";
     FusionAnalyzer.confidence := 0;
     FusionAnalyzer.topics := [t] |}.

Definition chapter_2 : FusionAnalyzer.Chapter :=
  {| FusionAnalyzer.chapter_id := Some (Some "h2");
     FusionAnalyzer.chapter := Some "Databases";
     FusionAnalyzer.confidence := 0;
     FusionAnalyzer.topics :=
       [{| FusionAnalyzer.topic_id := Some (Some "t2");
           FusionAnalyzer.topic_summary := Some "Tables";
           FusionAnalyzer.start_time := 40;
           FusionAnalyzer.end_time := 60;
           FusionAnalyzer.chunks := [2%Z] |}] |}.

Definition result_of (cid : Z) (s e : float)
    (chs : list FusionAnalyzer.Chapter) : FusionAnalyzer.analysis_result :=
  {| FusionAnalyzer.chapters := chs;
     FusionAnalyzer.chunk_id := cid;
     FusionAnalyzer.time_range := (s, e);
     FusionAnalyzer.transcript := EmptyString;
     FusionAnalyzer.transcript_sentences := [];
     FusionAnalyzer.analysis_status := FusionAnalyzer.empty_status |}.

(** The store after chunk 0, and after chunks 0 and 1. *)
Definition store_0 : gmap Z FusionAnalyzer.analysis_result :=
  {[ 0%Z := result_of 0 0 20 [chapter_1 (topic_1 20 [0%Z])] ]}.

Definition store_1 : gmap Z FusionAnalyzer.analysis_result :=
  <[ 1%Z := result_of 1 20 40 [chapter_1 (topic_1 40 [0%Z; 1%Z])] ]> store_0.

(** ** FusionAnalyzer: overlaps *)
Section OverlapSpec.

Import FusionAnalyzer.

Section SortedSpec.

Context {A : Type} (key : A -> float).

(** [b] may follow [a] in an ascending order by [key]. *)
Definition not_before (a b : A) : Prop := (key b <? key a)%float = false.

End SortedSpec.

(** The pairs of neighbours of a list, in order. *)
Definition adjacent {A : Type} (l : list A) : list (A * A) := zip l (tail l).

(** [current_end > next_start]. *)
Definition overlaps (p : Topic * Topic) : bool :=
  (start_time p.2 <? end_time p.1)%float.

(** The overlapping pairs of neighbours among the topics of a chapter
    sorted by start time, each with its position. *)
Definition overlapping_pairs (h : Chapter) : list (nat * (Topic * Topic)) :=
  filter (fun ip => Is_true (overlaps ip.2))
         (imap pair (adjacent (Py.sorted start_time (topics h)))).

(** The four warnings logged for one overlapping pair. *)
Definition overlap_lines (chunk_id : Z) (chapter_idx : nat)
    (ip : nat * (Topic * Topic)) : list log_event :=
  [OverlapDetected chunk_id (chapter_idx + 1);
   OverlapTopicEnds (ip.1 + 1) (end_time ip.2.1);
   OverlapTopicStarts (ip.1 + 2) (start_time ip.2.2);
   OverlapDuration (end_time ip.2.1 - start_time ip.2.2)%float].

End OverlapSpec.

(** ** FusionAnalyzer: the context window *)
Section WindowSpec.

Import FusionAnalyzer.

(** A turn of the conversation: the request, and the response when the
    model gave one. *)
Record turn := {
  turn_user : message;
  turn_assistant : option message
}.

Definition turn_messages (t : turn) : list message :=
  turn_user t :: option_list (turn_assistant t).

Definition history (turns : list turn) : list message :=
  turns ≫= turn_messages.

Definition well_formed_turn (t : turn) : Prop :=
  role (turn_user t) = "user"%string
  /\ match turn_assistant t with
     | Some a => role a = "assistant"%string
     | None => True
     end.

(** The test the loop applies to the request of a turn. *)
Definition turn_kept (keep : string -> bool) (t : turn) : bool :=
  match content (turn_user t) with
  | blocks ((_ :: _) as bs) => keep (text_content bs)
  | _ => false
  end.

(** The request of a turn names, somewhere in its text, the identifier
    [chunk_NNNN] of a chunk listed by a topic of [window]. *)
Definition references_window (window : list Chapter) (t : turn) : Prop :=
  exists b bs c h tp pre post,
    content (turn_user t) = blocks (b :: bs)
    /\ h ∈ window /\ tp ∈ topics h /\ c ∈ chunks tp
    /\ text_content (b :: bs) = pre +:+ chunk_identifier c +:+ post.

Definition set_keep_n_chapters (a : analyzer) (n : option Z) : analyzer :=
  {| analysis_results := analysis_results a;
     keep_n_chapters := n;
     messages := messages a;
     finalized_chapters := finalized_chapters a;
     all_chapters_for_display := all_chapters_for_display a;
     clip_runs := clip_runs a;
     log := log a |}.

End WindowSpec.

(** A session of three chapters, one chunk each, with one retained
    finalized chapter: the turn of chunk 0 leaves the history. *)
Definition user_message (c : Z) : FusionAnalyzer.message :=
  {| FusionAnalyzer.role := "user";
     FusionAnalyzer.content :=
       FusionAnalyzer.blocks
         [FusionAnalyzer.text_block
            (Some ("Chunk identifier: " +:+ FusionAnalyzer.chunk_identifier c
                   +:+ ". Time range: 0.0s - 20.0s."))
            false] |}.

Definition assistant_message (text : string) : FusionAnalyzer.message :=
  {| FusionAnalyzer.role := "assistant";
     FusionAnalyzer.content :=
       FusionAnalyzer.blocks [FusionAnalyzer.text_block (Some text) false] |}.

Definition turn_of (c : Z) : turn :=
  {| turn_user := user_message c;
     turn_assistant := Some (assistant_message "ok") |}.

Definition chapter_with (cid : string) (tid : string) (c : Z)
    : FusionAnalyzer.Chapter :=
  {| FusionAnalyzer.chapter_id := Some (Some cid);
     FusionAnalyzer.chapter := Some cid;
     FusionAnalyzer.confidence := 0;
     FusionAnalyzer.topics :=
       [{| FusionAnalyzer.topic_id := Some (Some tid);
           FusionAnalyzer.topic_summary := Some tid;
           FusionAnalyzer.start_time := 0;
           FusionAnalyzer.end_time := 20;
           FusionAnalyzer.chunks := [c] |}] |}.

Definition three_chapters : FusionAnalyzer.analysis_result :=
  result_of 2 40 60
    [chapter_with "h1" "t1" 0; chapter_with "h2" "t2" 1;
     chapter_with "h3" "t3" 2].

Definition windowed_analyzer : FusionAnalyzer.analyzer :=
  {| FusionAnalyzer.analysis_results := {[ 2%Z := three_chapters ]};
     FusionAnalyzer.keep_n_chapters := Some 1%Z;
     FusionAnalyzer.messages := history [turn_of 0; turn_of 1; turn_of 2];
     FusionAnalyzer.finalized_chapters := [];
     FusionAnalyzer.all_chapters_for_display := None;
     FusionAnalyzer.clip_runs := [];
     FusionAnalyzer.log := [] |}.

(** ** FusionAnalyzer: the response *)

(** The shape of a fenced response: texts without a backtick, and texts
    of white space only. *)
Fixpoint all_chars (p : ascii -> bool) (s : string) : bool :=
  match s with
  | String c rest => p c && all_chars p rest
  | EmptyString => true
  end.

Definition backtick : ascii := ascii_of_nat 96.

Definition no_backtick (s : string) : bool :=
  all_chars (fun c => negb (Ascii.eqb c backtick)) s.

Definition blank (s : string) : bool := all_chars Py.is_space s.

(** The text [{"actions": []}], bare and in a [```json] block after a
    sentence of preamble. *)
Definition double_quote : string := String (ascii_of_nat 34) EmptyString.

Definition bare_json : string :=
  "{" +:+ double_quote +:+ "actions" +:+ double_quote +:+ ": []}".

Definition fenced_json : string :=
  "Here is the analysis." +:+ FusionAnalyzer.newline +:+ "```json"
  +:+ FusionAnalyzer.newline +:+ bare_json +:+ FusionAnalyzer.newline
  +:+ "```".

Definition empty_response : FusionAnalyzer.incremental_result :=
  {| FusionAnalyzer.actions := [];
     FusionAnalyzer.response_status := FusionAnalyzer.empty_status |}.

(** A [json.loads] that knows this one document. *)
Definition toy_json_loads (s : string) : FusionAnalyzer.json_outcome :=
  if String.eqb s bare_json then FusionAnalyzer.response_object empty_response
  else FusionAnalyzer.decode_error.

Definition toy_json_dumps (l : list FusionAnalyzer.sentence_json) : string :=
  "[]".

Definition toy_format_1f (x : float) : string := "0.0".

Definition first_request : FusionAnalyzer.request :=
  {| FusionAnalyzer.request_chunk_id := 0;
     FusionAnalyzer.request_start_time := 0;
     FusionAnalyzer.request_end_time := 20 |}.

(** ** FilmstripProcessor: extraction and the grid *)

(** The frame that ends up at position [i] of an extraction: the one read,
    or a black frame, shaped like the first frame of the list once there
    is one. *)
Definition extracted_frame {frame : Type} (zeros_like : frame -> frame)
    (black_480x640 : frame) (cap : @FilmstripProcessor.capture frame)
    (interval : float) (i : nat) : frame :=
  let read i :=
    FilmstripProcessor.read_at cap
      (FilmstripProcessor.time_offset interval i * 1000)%float in
  let first := default black_480x640 (read 0%nat) in
  match i with
  | O => first
  | S _ => default (zeros_like first) (read i)
  end.

(** The cell of a placement with its label box under it, as the
    half-open rectangle it covers. *)
Definition inside_canvas {frame hist : Type}
    (p : @FilmstripProcessor.processor frame hist)
    (c : FilmstripProcessor.placement) : Prop :=
  (FilmstripProcessor.border_thickness p <= FilmstripProcessor.x c
   /\ FilmstripProcessor.x c + FilmstripProcessor.cell_width p
      + FilmstripProcessor.border_thickness p
      <= FilmstripProcessor.total_width p
   /\ FilmstripProcessor.border_thickness p <= FilmstripProcessor.y c
   /\ FilmstripProcessor.y c + FilmstripProcessor.cell_height p
      + FilmstripProcessor.label_height p
      + FilmstripProcessor.border_thickness p
      <= FilmstripProcessor.total_height p)%Z.

Definition apart {frame hist : Type}
    (p : @FilmstripProcessor.processor frame hist)
    (c c' : FilmstripProcessor.placement) : Prop :=
  (FilmstripProcessor.x c + FilmstripProcessor.cell_width p
     <= FilmstripProcessor.x c'
   \/ FilmstripProcessor.x c' + FilmstripProcessor.cell_width p
     <= FilmstripProcessor.x c
   \/ FilmstripProcessor.y c + FilmstripProcessor.cell_height p
      + FilmstripProcessor.label_height p <= FilmstripProcessor.y c'
   \/ FilmstripProcessor.y c' + FilmstripProcessor.cell_height p
      + FilmstripProcessor.label_height p <= FilmstripProcessor.y c)%Z.

(** Frames as numbers again: a video that shows frame 1 for two seconds,
    frame 5 for three more and cannot be read after that. *)
Definition toy_zeros_like (f : Z) : Z := 0%Z.
Definition toy_black : Z := 0%Z.

Definition toy_capture : @FilmstripProcessor.capture Z :=
  {| FilmstripProcessor.opens := true;
     FilmstripProcessor.opens_on_retry := false;
     FilmstripProcessor.CAP_PROP_FPS := 30;
     FilmstripProcessor.CAP_PROP_FRAME_COUNT := 150;
     FilmstripProcessor.read_at :=
       fun time_ms =>
         if (time_ms <? 2000)%float then Some 1%Z
         else if (time_ms <? 5000)%float then Some 5%Z
         else None |}.

Definition toy_processor : @FilmstripProcessor.processor Z Z :=
  FilmstripProcessor.create_fusion_filmstrip_processor (Some toy_detector).

Definition toy_frames : list (Z * float) :=
  [(1%Z, 0.5%float); (1%Z, 1.5%float); (5%Z, 2.5%float)].

(** ** AdaptiveFilmstripProcessor: a run *)

(** A fixed 2x2 grid on a 2000x2000 image. *)
Definition fixed_config : AdaptiveFilmstripProcessor.config :=
  {| AdaptiveFilmstripProcessor.max_grid_width := 2000;
     AdaptiveFilmstripProcessor.max_grid_height := 2000;
     AdaptiveFilmstripProcessor.max_grid_images := 20;
     AdaptiveFilmstripProcessor.border_thickness := 8;
     AdaptiveFilmstripProcessor.label_height := 40;
     AdaptiveFilmstripProcessor.preserve_source_resolution := false;
     AdaptiveFilmstripProcessor.fixed_grid_layout := Some (2, 2)%Z;
     AdaptiveFilmstripProcessor.max_file_size_mb := None |}.

Definition toy_probe : AdaptiveFilmstripProcessor.probe :=
  {| AdaptiveFilmstripProcessor.probe_opens := true;
     AdaptiveFilmstripProcessor.probe_fps := 30;
     AdaptiveFilmstripProcessor.probe_frame_width := 1920;
     AdaptiveFilmstripProcessor.probe_frame_height := 1080;
     AdaptiveFilmstripProcessor.probe_frame_count := 150 |}.

(** The layout of six seconds of [toy_capture] at one frame a second. *)
Definition toy_layout : AdaptiveFilmstripProcessor.layout :=
  {| AdaptiveFilmstripProcessor.total_frames := 6;
     AdaptiveFilmstripProcessor.frames_per_grid := 4;
     AdaptiveFilmstripProcessor.grid_rows := 2;
     AdaptiveFilmstripProcessor.grid_cols := 2;
     AdaptiveFilmstripProcessor.cell_size := (988, 555)%Z;
     AdaptiveFilmstripProcessor.num_grids_needed := 2;
     AdaptiveFilmstripProcessor.sampling_rate := 1;
     AdaptiveFilmstripProcessor.frames_to_extract := 6;
     AdaptiveFilmstripProcessor.extraction_interval := 1;
     AdaptiveFilmstripProcessor.max_frames_capacity := 80 |}.

(** What [create_adaptive_filmstrips] returns for them: two grids, the
    cut from frame 1 to frame 5 in the first and the black placeholder in
    the second. *)
Definition toy_filmstrips : AdaptiveFilmstripProcessor.filmstrips :=
  {| AdaptiveFilmstripProcessor.result_layout := Some toy_layout;
     AdaptiveFilmstripProcessor.output_files :=
       ["out_0000.jpg"; "out_0001.jpg"];
     AdaptiveFilmstripProcessor.result_shot_changes :=
       [{| AdaptiveFilmstripProcessor.grid_index := 0;
           AdaptiveFilmstripProcessor.output_file := "out_0000.jpg";
           AdaptiveFilmstripProcessor.shot_changes := [2%nat];
           AdaptiveFilmstripProcessor.shot_segments :=
             [{| AdaptiveFilmstripProcessor.frame_index := 2;
                 AdaptiveFilmstripProcessor.global_frame_index := 2;
                 AdaptiveFilmstripProcessor.segment_row := 2;
                 AdaptiveFilmstripProcessor.segment_col := 1;
                 AdaptiveFilmstripProcessor.segment_timestamp := 2.5 |}];
           AdaptiveFilmstripProcessor.frame_range := (0, 3)%Z |};
        {| AdaptiveFilmstripProcessor.grid_index := 1;
           AdaptiveFilmstripProcessor.output_file := "out_0001.jpg";
           AdaptiveFilmstripProcessor.shot_changes := [1%nat];
           AdaptiveFilmstripProcessor.shot_segments :=
             [{| AdaptiveFilmstripProcessor.frame_index := 1;
                 AdaptiveFilmstripProcessor.global_frame_index := 5;
                 AdaptiveFilmstripProcessor.segment_row := 1;
                 AdaptiveFilmstripProcessor.segment_col := 2;
                 AdaptiveFilmstripProcessor.segment_timestamp := 5.5 |}];
           AdaptiveFilmstripProcessor.frame_range := (4, 5)%Z |}] |}.

(** ** StreamMonitor and the monitoring loop *)

(** The chunk count a call of the monitor reads. *)
Definition observed_count (k : StreamMonitor.call) : Z :=
  default 0%Z
    (StreamMonitor.chunk_count
       match k with
       | StreamMonitor.CallUpdateActivity _ c => c
       | StreamMonitor.CallStreamAppearsEnded _ _ c => c
       | StreamMonitor.CallGetStatus _ _ _ _ c => c
       end).

(** What the loop of [_monitor_chunks] keeps true of its variables, [c0]
    being the chunk count on entry. *)
Definition monitor_inv (c0 : Z) (st : ChunkProcessor.monitor_state) : Prop :=
  NoDup (ChunkProcessor.created st)
  /\ (forall c, c ∈ ChunkProcessor.processed_chunks st
                <-> c ∈ ChunkProcessor.created st)
  /\ ChunkProcessor.chunk_count st
     = fold_left Z.max ((fun c => c + 1)%Z <$> ChunkProcessor.created st) c0
  /\ Forall (fun c => (0 <= c)%Z) (ChunkProcessor.created st).

(** A chunk that stays too short at every attempt. *)
Definition short_chunk (attempt : nat) : ChunkProcessor.file_view :=
  chunk_file "18.5".

(** ** FusionAnalyzer: the history, the worker and the shape of a result *)

(** A request that the cleanup keeps: a user message with a non-empty
    block list whose text passes the test. *)
Definition kept_request (keep : string -> bool) (m : FusionAnalyzer.message)
    : Prop :=
  FusionAnalyzer.role m = "user"%string
  /\ exists b bs, FusionAnalyzer.content m = FusionAnalyzer.blocks (b :: bs)
                  /\ keep (FusionAnalyzer.text_content (b :: bs)) = true.

(** A history as the cleanup leaves it: kept requests, each followed by
    at most one assistant message. *)
Inductive cleaned (keep : string -> bool)
    : list FusionAnalyzer.message -> Prop :=
| cleaned_nil : cleaned keep []
| cleaned_pair u a rest :
    kept_request keep u -> FusionAnalyzer.role a = "assistant"%string ->
    cleaned keep rest -> cleaned keep (u :: a :: rest)
| cleaned_single u rest :
    kept_request keep u ->
    (forall next rest', rest = next :: rest' ->
                        FusionAnalyzer.role next <> "assistant"%string) ->
    cleaned keep rest -> cleaned keep (u :: rest).

(** One request changes at most the stored result of its own chunk. *)
Definition touches_only (chunk_id : Z) (a a' : FusionAnalyzer.analyzer)
    : Prop :=
  (FusionAnalyzer.analysis_results a' = FusionAnalyzer.analysis_results a
   \/ exists r, FusionAnalyzer.analysis_results a'
                = <[chunk_id := r]> (FusionAnalyzer.analysis_results a))
  /\ FusionAnalyzer.keep_n_chapters a' = FusionAnalyzer.keep_n_chapters a
  /\ FusionAnalyzer.log a `prefix_of` FusionAnalyzer.log a'
  /\ (length (FusionAnalyzer.finalized_chapters a)
      <= length (FusionAnalyzer.finalized_chapters a'))%nat.

(** An analyzer holding the first two results of the scenario. *)
Definition analyzer_1 : FusionAnalyzer.analyzer :=
  FusionAnalyzer.__init__ (Some store_1) (Some 1%Z).

(** The titles an action list creates, in the order of the actions. *)
Definition created_titles (acts : list FusionAnalyzer.action)
    : list (option string) :=
  omap (fun a => match a with
                 | FusionAnalyzer.new_chapter _ title _ => Some title
                 | _ => None
                 end) acts.

(** [update_topic]'s "fields that are provided", applied to the fields of
    a [new_topic]. *)
Definition patched_new_topic (id wanted : option string)
    (summary : option string) (s e : float) (cks : list Z)
    (summary' : option (option string)) (s' e' : option float)
    (cks' : option (list Z)) : FusionAnalyzer.action :=
  FusionAnalyzer.new_topic id wanted (default summary summary')
    (default s s') (default e e') (default cks cks').

(** A response whose only action adds a topic to a chapter 'h9'. *)
Definition response_lost_topic : FusionAnalyzer.incremental_result :=
  {| FusionAnalyzer.actions :=
       [FusionAnalyzer.new_topic (Some "t9") (Some "h9") (Some "Indexes")
          20 40 [1%Z]];
     FusionAnalyzer.response_status := FusionAnalyzer.empty_status |}.

(** The state the merge starts from when both chapters are stored. *)
Definition two_chapters : FusionAnalyzer.merge_state :=
  FusionAnalyzer.initial_state [chapter_1 (topic_1 20 [0%Z]); chapter_2].

(* ===================================================================== *)
(** * Part III. Properties                                                *)
(* ===================================================================== *)

(* --------------------------------------------------------------------- *)
(** ** ShotChangeDetector: short batches, batch against single frames      *)
(* --------------------------------------------------------------------- *)
Section ShotChangeDetectorProperties.

Import ShotChangeDetector.

Context {frame hist : Type}.
Variable calcHist : Z * Z * Z -> frame -> hist.
Variable compareHist : hist -> hist -> float.
Variable _calculate_mse : frame -> frame -> float.

Local Abbreviation detector := (@detector frame hist).
Local Abbreviation compare_frames := (compare_frames calcHist compareHist _calculate_mse).
Local Abbreviation detect_single := (detect_single calcHist compareHist _calculate_mse).
Local Abbreviation detect_single_all :=
  (detect_single_all calcHist compareHist _calculate_mse).
Local Abbreviation detect_batch := (detect_batch calcHist compareHist _calculate_mse).
Local Abbreviation batch_step := (batch_step calcHist compareHist _calculate_mse).

Local Abbreviation remembers := (remembers calcHist).
Local Abbreviation cross_flag :=
  (cross_flag calcHist compareHist _calculate_mse).

Lemma compare_frames_config (d1 d2 : detector) (a b : frame) :
  same_config d1 d2 -> compare_frames d1 a b = compare_frames d2 a b.
Proof.
  intros (Hm & Ht & Hb).
  unfold ShotChangeDetector.compare_frames, _compare_frames_histogram,
    _compare_frames_mse.
  rewrite Hm, Ht, Hb. reflexivity.
Qed.

Lemma same_config_trans (d1 d2 d3 : detector) :
  same_config d1 d2 -> same_config d2 d3 -> same_config d1 d3.
Proof.
  unfold same_config. intros (? & ? & ?) (? & ? & ?).
  repeat split; congruence.
Qed.

Lemma flags_config (d1 d2 : detector) (frames : list frame) :
  same_config d1 d2 ->
  forall prev, flags (compare_frames d1) prev frames
               = flags (compare_frames d2) prev frames.
Proof.
  intros Hcfg. induction frames as [|f rest IH]; intros prev; [reflexivity|].
  cbn [flags]. rewrite IH. f_equal.
  destruct prev; [apply compare_frames_config; assumption|reflexivity].
Qed.

Lemma detect_single_step (d : detector) (prev : option frame) (f : frame)
    (n : Z) :
  remembers d prev ->
  fst (detect_single d f n)
    = match prev with Some p => compare_frames d p f | None => false end
  /\ same_config (snd (detect_single d f n)) d
  /\ remembers (snd (detect_single d f n)) (Some f).
Proof.
  unfold remembers, ShotChangeDetector.detect_single,
    ShotChangeDetector.compare_frames, same_config.
  destruct (method d) eqn:Hm; intros Hprev.
  - unfold _detect_histogram_single, _compare_frames_histogram.
    rewrite Hprev. destruct prev as [p|]; simpl; rewrite Hm; auto.
  - unfold _detect_mse_single, _compare_frames_mse.
    rewrite Hprev. destruct prev as [p|]; simpl; rewrite Hm; auto.
Qed.

(** Whatever the detector held before, one call leaves it remembering the
    frame it was given. *)
Lemma detect_single_remembers (d : detector) (f : frame) (n : Z) :
  same_config (snd (detect_single d f n)) d
  /\ remembers (snd (detect_single d f n)) (Some f).
Proof.
  unfold remembers, ShotChangeDetector.detect_single, same_config.
  destruct (method d) eqn:Hm.
  - unfold _detect_histogram_single.
    destruct (previous_histogram d); simpl; rewrite Hm; auto.
  - unfold _detect_mse_single.
    destruct (last_frame d); simpl; rewrite Hm; auto.
Qed.

Lemma detect_single_all_flags (frames : list frame) :
  forall (d : detector) (prev : option frame) (n : Z),
    remembers d prev ->
    fst (detect_single_all d n frames) = flags (compare_frames d) prev frames.
Proof.
  induction frames as [|f rest IH]; intros d prev n Hprev; [reflexivity|].
  destruct (detect_single_step d prev f n Hprev) as (Hb & Hcfg & Hrem).
  cbn [ShotChangeDetector.detect_single_all flags].
  destruct (detect_single d f n) as [b d1] eqn:Hstep.
  specialize (IH d1 (Some f) (n + 1)%Z Hrem).
  destruct (detect_single_all d1 (n + 1) rest) as [bs d2] eqn:Hrest.
  cbn [fst snd] in *. subst b bs. f_equal.
  apply flags_config. assumption.
Qed.

Lemma flags_lookup_succ (cmp : frame -> frame -> bool) (frames : list frame) :
  forall (prev : option frame) (i : nat) (a b : frame),
    frames !! i = Some a -> frames !! S i = Some b ->
    flags cmp prev frames !! S i = Some (cmp a b).
Proof.
  induction frames as [|f rest IH]; intros prev i a b Ha Hb; [discriminate|].
  destruct i as [|i]; cbn [flags].
  - destruct rest as [|g rest]; [discriminate|].
    injection Ha as <-. injection Hb as <-. reflexivity.
  - apply (IH (Some f) i a b); assumption.
Qed.

Lemma flags_length (cmp : frame -> frame -> bool) (frames : list frame) :
  forall prev, length (flags cmp prev frames) = length frames.
Proof.
  induction frames as [|f rest IH]; intros prev; [reflexivity|].
  cbn [flags length]. rewrite IH. reflexivity.
Qed.

(** The loop of [detect_batch] after [k] rounds: positions [1..k] hold the
    comparison of their frame with the one before, the others are as they
    were. *)
Lemma batch_loop_lookup (d : detector) (frames : list frame)
    (sc : list bool) (k : nat) :
  length sc = length frames ->
  (forall j, (1 <= j < length frames)%nat -> sc !! j = Some false) ->
  (k < length frames)%nat ->
  let r := fold_left (batch_step d frames) (seq 1 k) sc in
  length r = length frames
  /\ r !! 0%nat = sc !! 0%nat
  /\ (forall j a b, (1 <= j <= k)%nat -> frames !! (j - 1)%nat = Some a ->
        frames !! j = Some b -> r !! j = Some (compare_frames d a b))
  /\ (forall j, (k < j < length frames)%nat -> r !! j = Some false).
Proof.
  intros Hlen Hfalse. induction k as [|k IH]; intros Hk r.
  - subst r. cbn. repeat split; auto; intros; try lia; apply Hfalse; lia.
  - subst r. rewrite seq_S, fold_left_app. cbn [fold_left].
    destruct IH as (Hl & H0 & Hcmp & Hrest); [lia|].
    set (r := fold_left (batch_step d frames) (seq 1 k) sc) in *.
    unfold ShotChangeDetector.batch_step.
    replace (1 + k - 1)%nat with k by lia.
    destruct (lookup_lt_is_Some_2 frames k) as [a Ha]; [lia|].
    destruct (lookup_lt_is_Some_2 frames (1 + k)) as [b Hb]; [lia|].
    rewrite Ha, Hb.
    assert (Hstep : forall j, j <> (1 + k)%nat ->
              (if compare_frames d a b then <[(1 + k)%nat := true]> r else r)
                !! j = r !! j).
    { intros j Hj. destruct (compare_frames d a b); [|reflexivity].
      apply list_lookup_insert_ne. lia. }
    repeat split.
    + destruct (compare_frames d a b); [rewrite length_insert|]; exact Hl.
    + rewrite Hstep by lia. exact H0.
    + intros j a' b' Hj Ha' Hb'.
      destruct (decide (j = (1 + k)%nat)) as [->|Hne].
      * replace (1 + k - 1)%nat with k in Ha' by lia.
        rewrite Ha in Ha'. rewrite Hb in Hb'.
        injection Ha' as <-. injection Hb' as <-.
        destruct (compare_frames d a b) eqn:Hc.
        -- apply list_lookup_insert_eq. lia.
        -- apply Hrest. lia.
      * rewrite Hstep by assumption. apply Hcmp; [lia|assumption..].
    + intros j Hj. rewrite Hstep by lia. apply Hrest. lia.
Qed.

Lemma detect_batch_long (d : detector) (f0 f1 : frame) (rest : list frame) :
  fst (detect_batch d (f0 :: f1 :: rest))
  = cross_flag d f0 :: flags (compare_frames d) (Some f0) (f1 :: rest).
Proof.
  unfold ShotChangeDetector.detect_batch. cbv beta iota zeta.
  change (length (f0 :: f1 :: rest) <? 2)%nat with false. cbv beta iota.
  cbn [fst]. set (frames := f0 :: f1 :: rest).
  set (sc := match enable_cross_chunk d, last_frame d with
             | true, Some lf =>
                 if compare_frames d lf f0
                 then <[0%nat := true]> (replicate (length frames) false)
                 else replicate (length frames) false
             | _, _ => replicate (length frames) false
             end).
  assert (Hsc : length sc = length frames
                /\ sc !! 0%nat = Some (cross_flag d f0)
                /\ forall j, (1 <= j < length frames)%nat ->
                     sc !! j = Some false).
  { subst sc. unfold cross_flag.
    destruct (enable_cross_chunk d), (last_frame d) as [lf|]; cbn [andb];
      try destruct (compare_frames d lf f0);
      rewrite ?length_insert, ?length_replicate;
      (split; [reflexivity|]); (split; [reflexivity|]);
      intros j Hj; rewrite ?list_lookup_insert_ne by lia;
      apply lookup_replicate_2; lia. }
  destruct Hsc as (Hlen & H0 & Hfalse).
  destruct (batch_loop_lookup d frames sc (length frames - 1) Hlen Hfalse)
    as (Hl & Hr0 & Hcmp & _); [subst frames; cbn; lia|].
  set (r := fold_left (batch_step d frames) (seq 1 (length frames - 1)) sc)
    in *.
  apply list_eq. intros i.
  change (cross_flag d f0 :: flags (compare_frames d) (Some f0) (f1 :: rest))
    with (cross_flag d f0 :: flags (compare_frames d) (Some f0) (tail frames)).
  destruct i as [|i].
  - rewrite Hr0, H0. reflexivity.
  - destruct (decide (S i < length frames)%nat) as [Hi|Hi].
    + destruct (lookup_lt_is_Some_2 frames i) as [a Ha]; [lia|].
      destruct (lookup_lt_is_Some_2 frames (S i)) as [b Hb]; [lia|].
      rewrite (Hcmp (S i) a b); [|lia| |assumption].
      2:{ replace (S i - 1)%nat with i by lia. assumption. }
      symmetry.
      change ((cross_flag d f0
                 :: flags (compare_frames d) (Some f0) (tail frames)) !! S i)
        with (flags (compare_frames d) None frames !! S i).
      apply flags_lookup_succ; assumption.
    + rewrite lookup_ge_None_2 by lia.
      symmetry. apply lookup_ge_None_2.
      cbn [length]. rewrite flags_length. subst frames. cbn in *. lia.
Qed.

(** C7.  A batch of length 0 gives the empty list, and a batch of length 1
    gives the one-element list [[false]]: every position is false, in
    cross-batch mode too, since the return for fewer than two frames comes
    before the comparison with the retained frame; the detector is left as
    it was. *)
Theorem detect_batch_short (d : detector) :
  detect_batch d [] = ([], d)
  /\ forall f : frame, detect_batch d [f] = ([false], d).
Proof. split; [reflexivity | intros f; reflexivity]. Qed.

(** Position 0 of a longer batch is true exactly under cross-batch mode
    with a retained frame that compares as a change. *)
Lemma detect_batch_position_0 (d : detector) (f0 f1 : frame)
    (rest : list frame) :
  fst (detect_batch d (f0 :: f1 :: rest)) !! 0%nat = Some true
  <-> enable_cross_chunk d = true
      /\ exists lf, last_frame d = Some lf /\ compare_frames d lf f0 = true.
Proof.
  rewrite detect_batch_long. cbn. unfold cross_flag.
  destruct (enable_cross_chunk d), (last_frame d) as [lf|]; cbn; split.
  - intros [= H]. eauto.
  - intros (_ & lf' & [= <-] & ->). reflexivity.
  - intros [= ]. - intros (_ & lf' & [= ] & _).
  - intros [= ]. - intros ([= ] & _).
  - intros [= ]. - intros ([= ] & _).
Qed.

Lemma detect_single_all_cons (d : detector) (f : frame) (rest : list frame)
    (n : Z) :
  fst (detect_single_all d n (f :: rest))
  = fst (detect_single d f n)
    :: fst (detect_single_all (snd (detect_single d f n)) (n + 1) rest).
Proof.
  cbn [ShotChangeDetector.detect_single_all].
  destruct (detect_single d f n) as [b d1]. cbn [fst snd].
  destruct (detect_single_all d1 (n + 1) rest) as [bs d2]. reflexivity.
Qed.

(** The replay from any state: the first flag is what [detect_single]
    says, the others compare each frame with the one before. *)
Lemma detect_single_all_from (d : detector) (f0 : frame) (rest : list frame)
    (n : Z) :
  fst (detect_single_all d n (f0 :: rest))
  = fst (detect_single d f0 n) :: flags (compare_frames d) (Some f0) rest.
Proof.
  rewrite detect_single_all_cons. f_equal.
  destruct (detect_single_remembers d f0 n) as (Hcfg & Hrem).
  rewrite (detect_single_all_flags rest _ (Some f0) _ Hrem).
  apply flags_config. assumption.
Qed.

Lemma detect_single_fresh (d : detector) (f : frame) (n : Z) :
  fresh d -> fst (detect_single d f n) = false.
Proof.
  intros [Hl Hp].
  assert (Hrem : remembers d None).
  { unfold remembers. rewrite Hl, Hp. destruct (method d); reflexivity. }
  apply (detect_single_step d None f n Hrem).
Qed.

(** C8.  For two detectors with the same method, threshold and bins, the
    frame-by-frame replay through [detect_single] and one [detect_batch]
    call give sequences of the same length that agree at every index from
    1 on; when both detectors are fresh they agree at index 0 too (both
    false), so the sequences are equal. *)
Theorem detect_batch_single_equiv (d1 d2 : detector) (frames : list frame)
    (n : Z) :
  same_config d1 d2 ->
  tail (fst (detect_single_all d1 n frames)) = tail (fst (detect_batch d2 frames))
  /\ length (fst (detect_single_all d1 n frames))
     = length (fst (detect_batch d2 frames))
  /\ (fresh d1 -> fresh d2 ->
      fst (detect_single_all d1 n frames) = fst (detect_batch d2 frames)).
Proof.
  intros Hcfg.
  destruct frames as [|f0 [|f1 rest]].
  - repeat split; intros; reflexivity.
  - rewrite detect_single_all_from. cbn [flags fst tail length].
    change (fst (detect_batch d2 [f0])) with [false].
    repeat split. intros Hf1 _. f_equal. apply detect_single_fresh, Hf1.
  - rewrite detect_single_all_from, detect_batch_long.
    rewrite (flags_config d1 d2 _ Hcfg). cbn [tail length].
    repeat split. intros Hf1 [Hl2 _]. f_equal.
    rewrite (detect_single_fresh _ _ _ Hf1).
    unfold cross_flag. rewrite Hl2. apply eq_sym, andb_false_r.
Qed.

End ShotChangeDetectorProperties.

Lemma detect_batch_single_equiv_witness :
  same_config toy_detector toy_detector
  /\ fst (ShotChangeDetector.detect_single_all toy_calcHist toy_compareHist
            toy_mse toy_detector 0 [1; 1; 5; 5; 2]%Z)
     = fst (ShotChangeDetector.detect_batch toy_calcHist toy_compareHist
              toy_mse toy_detector [1; 1; 5; 5; 2]%Z).
Proof.
  split; [repeat split|].
  apply (detect_batch_single_equiv toy_calcHist toy_compareHist toy_mse
           toy_detector toy_detector [1; 1; 5; 5; 2]%Z 0%Z);
    repeat split.
Defined.

Example detect_batch_toy :
  fst (ShotChangeDetector.detect_batch toy_calcHist toy_compareHist toy_mse
         toy_detector [1; 1; 5; 5; 2]%Z)
  = [false; false; true; false; true].
Proof. vm_compute. reflexivity. Qed.

(** A single-frame batch in cross-batch mode, with a retained frame that
    differs from it: still [[false]], and the retained frame stays. *)
Example detect_batch_single_frame_cross :
  ShotChangeDetector.detect_batch toy_calcHist toy_compareHist toy_mse
    (ShotChangeDetector.set_last_frame toy_detector (Some 1%Z)) [9%Z]
  = ([false], ShotChangeDetector.set_last_frame toy_detector (Some 1%Z)).
Proof. reflexivity. Qed.

(* --------------------------------------------------------------------- *)
(** ** StreamMonitor: the two end-of-stream signals                        *)
(* --------------------------------------------------------------------- *)
Section StreamMonitorProperties.

Import StreamMonitor.

(** The time-out signal: when this call sees no new chunk and the time
    since the last activity has reached [stream_timeout], the answer is
    [True], whatever the transcription state. *)
Lemma timeout_signals (t1 t2 : float) (c : components) (m : monitor) :
  (default 0%Z (chunk_count c) <= last_chunk_count m)%Z ->
  (stream_timeout m <=? t2 - last_activity_time m)%float = true ->
  fst (stream_appears_ended t1 t2 c m) = true.
Proof.
  intros Hcount Htime. unfold stream_appears_ended.
  destruct (transcription_stopped c m); [reflexivity|].
  unfold update_activity.
  destruct (Z.ltb_spec (last_chunk_count m) (default 0%Z (chunk_count c)));
    [lia|].
  cbn. exact Htime.
Qed.

(** The transcription test fires when the flag is set and the processor
    has an [is_running] attribute that is false. *)
Lemma flag_signals (t1 t2 : float) (c : components) (m : monitor) :
  transcription_was_running m = true -> is_running c = Some false ->
  stream_appears_ended t1 t2 c m = (true, m).
Proof.
  intros Hflag Hrun. unfold stream_appears_ended, transcription_stopped.
  rewrite Hflag, Hrun. reflexivity.
Qed.

Lemma update_activity_flag (now : float) (c : components) (m : monitor) :
  transcription_was_running (snd (update_activity now c m))
  = transcription_was_running m.
Proof.
  unfold update_activity.
  destruct (last_chunk_count m <? default 0%Z (chunk_count c))%Z; reflexivity.
Qed.

Lemma stream_appears_ended_flag (t1 t2 : float) (c : components)
    (m : monitor) :
  transcription_was_running (snd (stream_appears_ended t1 t2 c m))
  = transcription_was_running m.
Proof.
  unfold stream_appears_ended.
  destruct (transcription_stopped c m); [reflexivity|].
  pose proof (update_activity_flag t1 c m) as H.
  destruct (update_activity t1 c m) as [b m1]. exact H.
Qed.

(** No method of the monitor writes [transcription_was_running]. *)
Lemma step_flag (m : monitor) (k : call) :
  transcription_was_running (step m k) = transcription_was_running m.
Proof.
  destruct k as [now c | t1 t2 c | t0 t1 t2 t3 c]; cbn [step].
  - apply update_activity_flag.
  - apply stream_appears_ended_flag.
  - unfold get_status.
    pose proof (update_activity_flag t0 c m) as H1.
    destruct (update_activity t0 c m) as [b m1]. cbn [snd] in H1.
    pose proof (stream_appears_ended_flag t1 t2 c m1) as H2.
    destruct (stream_appears_ended t1 t2 c m1) as [e m2]. cbn [snd] in *.
    congruence.
Qed.

Lemma run_flag (ks : list call) :
  forall m, transcription_was_running (run m ks) = transcription_was_running m.
Proof.
  unfold run. induction ks as [|k ks IH]; intros m; [reflexivity|].
  cbn [fold_left]. rewrite IH. apply step_flag.
Qed.

(** C6.  On a monitor built by [__init__] and driven through its own
    methods, the transcription test never fires: the flag it depends on is
    still false, so [stream_appears_ended] answers with the time-out test
    alone, whatever [is_running] was during the earlier calls and is now. *)
Theorem transcription_stop_never_signals (now timeout : float)
    (ks : list call) (t1 t2 : float) (c : components) :
  transcription_stopped c (run (__init__ now timeout) ks) = false
  /\ fst (stream_appears_ended t1 t2 c (run (__init__ now timeout) ks))
     = (let m1 := snd (update_activity t1 c (run (__init__ now timeout) ks)) in
        (stream_timeout m1 <=? t2 - last_activity_time m1)%float).
Proof.
  assert (Hflag : transcription_stopped c (run (__init__ now timeout) ks)
                  = false).
  { unfold transcription_stopped. rewrite run_flag. reflexivity. }
  split; [exact Hflag|].
  unfold stream_appears_ended. rewrite Hflag.
  destruct (update_activity t1 c (run (__init__ now timeout) ks)).
  reflexivity.
Qed.

(** The trace of the divergence: built at time 0 with the default
    time-out; at time 1 a chunk has arrived and the transcription runs; at
    time 2 the transcription has stopped.  The answer at time 2 is
    [False]. *)
Example transcription_stopped_trace :
  let running := {| chunk_count := Some 1%Z; is_running := Some true |} in
  let stopped := {| chunk_count := Some 1%Z; is_running := Some false |} in
  let m0 := __init__ 0 default_stream_timeout in
  let '(e1, m1) := stream_appears_ended 1 1 running m0 in
  let '(e2, m2) := stream_appears_ended 2 2 stopped m1 in
  (e1, e2, transcription_was_running m2) = (false, false, false).
Proof. vm_compute. reflexivity. Qed.

(** The time-out signal on the same monitor: 61 seconds after the last
    chunk the answer is [True]. *)
Example timeout_trace :
  let idle := {| chunk_count := Some 1%Z; is_running := Some true |} in
  let m0 := __init__ 0 default_stream_timeout in
  let '(_, m1) := stream_appears_ended 1 1 idle m0 in
  fst (stream_appears_ended 62 62 idle m1) = true.
Proof. vm_compute. reflexivity. Qed.

End StreamMonitorProperties.

(* --------------------------------------------------------------------- *)
(** ** ChunkProcessor: readiness of a chunk file                           *)
(* --------------------------------------------------------------------- *)
Section ChunkProcessorProperties.

Import ChunkProcessor.

Variable parse_duration : string -> option float.
Variable chunk_duration : Z.

Local Abbreviation _verify_chunk_ready :=
  (_verify_chunk_ready parse_duration chunk_duration).
Local Abbreviation probed_duration := (probed_duration parse_duration).
Local Abbreviation probe_error := (probe_error parse_duration).

(** When the check gets a duration from its probe: the file exists, has
    50000 bytes or more, ffprobe exited with 0 and its output parsed. *)
Lemma probed_duration_Some (fv : file_view) (d : float) :
  probed_duration fv = Some d <->
  path_exists fv = true
  /\ (exists size, getsize fv = Some size /\ (50000 <= size)%Z)
  /\ exists stdout, probe fv = ProbeCompleted 0 stdout
                    /\ parse_duration stdout = Some d.
Proof.
  unfold ChunkProcessor.probed_duration.
  destruct (path_exists fv); cbn [negb].
  2:{ split; [discriminate | intros ([=] & _)]. }
  destruct (getsize fv) as [size|].
  2:{ split; [discriminate | intros (_ & (s & [=] & _) & _)]. }
  destruct (Z.ltb_spec size 50000).
  { split; [discriminate | intros (_ & (s & [= <-] & ?) & _); lia]. }
  destruct (probe fv) as [|rc stdout].
  { split; [discriminate | intros (_ & _ & (s & [=] & _))]. }
  destruct (Z.eqb_spec rc 0) as [->|Hrc]; cbn [negb].
  - split.
    + intros Hd. repeat split; eauto.
    + intros (_ & _ & (s & [= <-] & Hd)). exact Hd.
  - split; [discriminate | intros (_ & _ & (s & [= ? _] & _)); contradiction].
Qed.

Lemma verify_of_probed (fv : file_view) (is_final : bool) :
  fst (_verify_chunk_ready fv is_final)
  = match probed_duration fv with
    | Some d =>
        if is_final then (1 <=? d)%float
        else (abs (d - Py.float_of_int chunk_duration) <=? 1)%float
    | None => false
    end.
Proof.
  unfold ChunkProcessor._verify_chunk_ready, ChunkProcessor.probed_duration.
  destruct (path_exists fv); cbn [negb]; [|reflexivity].
  destruct (getsize fv) as [size|]; [|reflexivity].
  destruct (size <? 50000)%Z; [reflexivity|].
  destruct (probe fv) as [|rc stdout]; [reflexivity|].
  destruct (rc =? 0)%Z; cbn [negb]; [|reflexivity].
  destruct (parse_duration stdout) as [d|]; [|reflexivity].
  destruct is_final.
  - destruct (1 <=? d)%float; reflexivity.
  - destruct (abs (d - Py.float_of_int chunk_duration) <=? 1)%float;
      reflexivity.
Qed.

(** C10.  A non-final chunk is reported ready exactly when the probe
    yields a duration within 1 second of [chunk_duration]; a final chunk
    exactly when the probe yields a duration of 1 second or more; and when
    one of the guarded calls raises, the check returns [False] after
    logging a warning. *)
Theorem verify_chunk_ready_exact (fv : file_view) :
  (fst (_verify_chunk_ready fv false) = true <->
   exists d, probed_duration fv = Some d
             /\ (abs (d - Py.float_of_int chunk_duration) <=? 1)%float = true)
  /\ (fst (_verify_chunk_ready fv true) = true <->
      exists d, probed_duration fv = Some d /\ (1 <=? d)%float = true)
  /\ (probe_error fv ->
      forall is_final,
        _verify_chunk_ready fv is_final = (false, [ErrorVerifyingChunk])).
Proof.
  split; [|split].
  - rewrite verify_of_probed. destruct (probed_duration fv) as [d|].
    + split; [eauto | intros (d' & [= <-] & H); exact H].
    + split; [discriminate | intros (d' & [=] & _)].
  - rewrite verify_of_probed. destruct (probed_duration fv) as [d|].
    + split; [eauto | intros (d' & [= <-] & H); exact H].
    + split; [discriminate | intros (d' & [=] & _)].
  - intros (Hex & Herr) is_final.
    unfold ChunkProcessor._verify_chunk_ready. rewrite Hex. cbn [negb].
    destruct Herr as [-> | (size & -> & Hsize & Herr)]; [reflexivity|].
    destruct (Z.ltb_spec size 50000); [lia|].
    destruct Herr as [-> | (stdout & -> & ->)]; reflexivity.
Qed.

End ChunkProcessorProperties.

(** 19.4s against 20s is accepted, 18.5s is not (but is as a final
    chunk), and unparsable output is a probe error. *)
Lemma verify_chunk_ready_exact_witness :
  fst (ChunkProcessor._verify_chunk_ready toy_parse_duration 20
         (chunk_file "19.4") false) = true
  /\ fst (ChunkProcessor._verify_chunk_ready toy_parse_duration 20
            (chunk_file "18.5") false) <> true
  /\ fst (ChunkProcessor._verify_chunk_ready toy_parse_duration 20
            (chunk_file "18.5") true) = true
  /\ ChunkProcessor._verify_chunk_ready toy_parse_duration 20
       (chunk_file "garbage") false
     = (false, [ChunkProcessor.ErrorVerifyingChunk]).
Proof.
  pose proof (verify_chunk_ready_exact toy_parse_duration 20) as H.
  split; [|split; [|split]].
  - apply (proj1 (H (chunk_file "19.4"))).
    exists 19.4%float. split; reflexivity.
  - intros Hready.
    apply (proj1 (H (chunk_file "18.5"))) in Hready.
    destruct Hready as (d & [= <-] & Hd). vm_compute in Hd. discriminate.
  - apply (proj1 (proj2 (H (chunk_file "18.5")))).
    exists 18.5%float. split; reflexivity.
  - apply (proj2 (proj2 (H (chunk_file "garbage")))).
    split; [reflexivity|]. right. exists 1200000%Z.
    split; [reflexivity|]. split; [lia|].
    right. exists "garbage"%string. split; reflexivity.
Defined.

(* --------------------------------------------------------------------- *)
(** ** AdaptiveFilmstripProcessor: bounds of the computed layout           *)
(* --------------------------------------------------------------------- *)
Section AdaptiveLayoutProperties.

Import AdaptiveFilmstripProcessor.

Lemma grid_dimensions_split (cfg : config) (ar : float) (res : Z * Z) :
  _calculate_grid_dimensions cfg ar res
  = base_grid cfg ar res ≫= close_grid cfg ar.
Proof.
  unfold _calculate_grid_dimensions, base_grid. destruct res as [sw sh].
  destruct (fixed_grid_layout cfg) as [[fr fc]|].
  - match goal with
    | |- context [mbind _ ?m] => destruct m as [[cw ch]|]
    end; [|reflexivity].
    cbn -[fits]. destruct (fits cfg (cw, ch, fr, fc)); reflexivity.
  - destruct (preserve_source_resolution cfg).
    + destruct (Py.floordiv (max_grid_width cfg - border_thickness cfg) _)
        as [mc|]; [|reflexivity].
      cbn -[finish].
      destruct (Py.floordiv (max_grid_height cfg - border_thickness cfg) _)
        as [mr|]; [|reflexivity].
      cbn -[finish].
      destruct ((mc <? 1)%Z || (mr <? 1)%Z); reflexivity.
    + destruct (Py.for_each _ _ _) as [[[g|] mf]|]; reflexivity.
Qed.

Lemma base_grid_without_limit (cfg : config) (ar : float) (res : Z * Z) :
  base_grid (without_limit cfg) ar res = base_grid cfg ar res.
Proof. destruct cfg. reflexivity. Qed.

Lemma close_grid_without_limit (cfg : config) (ar : float) (g : option grid) :
  close_grid (without_limit cfg) ar g = Some (default fallback_grid g).
Proof. destruct g as [[[[cw ch] r] c]|]; reflexivity. Qed.

Lemma fits_true (cfg : config) (cw ch rows cols : Z) :
  fits cfg (cw, ch, rows, cols) = true <->
  (total_width_of cfg cols cw <= max_grid_width cfg)%Z
  /\ (total_height_of cfg rows ch <= max_grid_height cfg)%Z.
Proof. unfold fits. rewrite andb_true_iff, !Z.leb_le. reflexivity. Qed.

Lemma for_each_invariant {S A : Type} (P : S -> Prop) (Q : A -> Prop)
    (body : S -> A -> option S) (l : list A) :
  (forall s a s', P s -> Q a -> body s a = Some s' -> P s') ->
  Forall Q l ->
  forall s s', P s -> Py.for_each body l s = Some s' -> P s'.
Proof.
  intros Hbody Hl. induction Hl as [|a l Ha Hl IH]; intros s s' Hs Hrun.
  - injection Hrun as <-. exact Hs.
  - cbn in Hrun. destruct (body s a) as [s1|] eqn:Hstep; [|discriminate].
    apply (IH s1); [|exact Hrun]. eapply Hbody; eassumption.
Qed.

Lemma candidates_positive :
  Forall (fun rc : Z * Z => (0 <= rc.1)%Z /\ (0 <= rc.2)%Z) candidates.
Proof.
  apply Forall_forall. intros [r c] Hin.
  assert (H : forallb (fun rc : Z * Z => (0 <=? rc.1)%Z && (0 <=? rc.2)%Z)
                candidates = true) by (vm_compute; reflexivity).
  rewrite forallb_forall in H. apply list_elem_of_In in Hin.
  specialize (H (r, c) Hin).
  cbn in H. apply andb_true_iff in H as [H1 H2]. cbn. lia.
Qed.

(** The optimiser keeps a grid only after checking that it fits. *)
Lemma try_grid_keeps_ok (cfg : config) (ar : float) (st st' : option grid * Z)
    (rc : Z * Z) :
  (forall g, st.1 = Some g -> grid_ok cfg g) ->
  (0 <= rc.1)%Z /\ (0 <= rc.2)%Z ->
  try_grid cfg ar st rc = Some st' ->
  forall g, st'.1 = Some g -> grid_ok cfg g.
Proof.
  intros Hst [Hr Hc]. destruct st as [best mf], rc as [rows cols].
  unfold try_grid. cbn [fst snd] in *.
  intros H. apply bind_Some in H as (cw & _ & H).
  apply bind_Some in H as (ch & _ & H).
  destruct ((cw <? 100)%Z || (ch <? 100)%Z).
  { injection H as <-. exact Hst. }
  apply bind_Some in H as ([cw' ch'] & _ & H).
  destruct (fits cfg (cw', ch', rows, cols)) eqn:Hfit.
  2:{ injection H as <-. exact Hst. }
  destruct (mf <? rows * cols)%Z.
  2:{ injection H as <-. exact Hst. }
  injection H as <-. cbn. intros g [= <-].
  apply fits_true in Hfit. cbn. tauto.
Qed.

Lemma base_grid_ok (cfg : config) (ar : float) (res : Z * Z) (g : grid) :
  well_formed cfg res ->
  base_grid cfg ar res = Some (Some g) -> grid_ok cfg g.
Proof.
  intros (Hb & Hl & Hsw & Hsh & Hfixed). unfold base_grid.
  destruct res as [sw sh]. cbn [fst snd] in *.
  destruct (fixed_grid_layout cfg) as [[fr fc]|].
  - intros H. apply bind_Some in H as ([cw ch] & _ & H).
    destruct (fits cfg (cw, ch, fr, fc)) eqn:Hfit; cbn in H; [|discriminate].
    injection H as <-. apply fits_true in Hfit. cbn. tauto.
  - destruct (preserve_source_resolution cfg).
    + intros H. apply bind_Some in H as (mc & Hmc & H).
      apply bind_Some in H as (mr & Hmr & H).
      destruct (Z.ltb_spec mc 1), (Z.ltb_spec mr 1); cbn in H;
        try discriminate.
      injection H as <-.
      unfold Py.floordiv in Hmc, Hmr.
      destruct (Z.eqb_spec (sw + border_thickness cfg) 0); [discriminate|].
      destruct (Z.eqb_spec (sh + label_height cfg + border_thickness cfg) 0);
        [discriminate|].
      injection Hmc as <-. injection Hmr as <-.
      unfold grid_ok, total_width_of, total_height_of.
      pose proof (Z.mul_div_le (max_grid_width cfg - border_thickness cfg)
                    (sw + border_thickness cfg) ltac:(lia)).
      pose proof (Z.mul_div_le (max_grid_height cfg - border_thickness cfg)
                    (sh + label_height cfg + border_thickness cfg)
                    ltac:(lia)).
      repeat split; nia.
    + intros H. apply bind_Some in H as ([best mf] & Hrun & H).
      injection H as ->.
      refine (for_each_invariant
                (fun st : option grid * Z =>
                   forall g, st.1 = Some g -> grid_ok cfg g)
                _ _ _ _ candidates_positive _ _ _ Hrun g eq_refl).
      * intros s a s' Hs Ha Hstep. eapply try_grid_keeps_ok; eassumption.
      * intros g' [=].
Qed.

(** Rounding up a quotient. *)
Lemma ceil_div_le (a b c : Z) :
  (0 < b)%Z -> (a <= b * c)%Z -> ((a + b - 1) / b <= c)%Z.
Proof.
  intros Hb Ha. apply Z.lt_succ_r, Z.div_lt_upper_bound; lia.
Qed.

Lemma ceil_div_mul_ge (t m : Z) :
  (0 < m)%Z -> (t <= (t + m - 1) / m * m)%Z.
Proof.
  intros Hm. pose proof (Z.mul_succ_div_gt (t + m - 1) m Hm). lia.
Qed.

(** The number of grids, as computed from the frame count [t], the frames
    per grid [f] and the grid limit [g]. *)
Lemma grids_within_limit (t f g s e n : Z) :
  (0 < f)%Z -> (0 <= g)%Z ->
  (if (t <=? f * g)%Z then
     n ← Py.floordiv (t + f - 1) f; Some (1%Z, t, n)
   else
     s ← Py.floordiv (t + f * g - 1) (f * g);
     e ← Py.floordiv (t + s - 1) s;
     n ← Py.floordiv (e + f - 1) f;
     Some (s, e, n)) = Some (s, e, n) ->
  (n <= g)%Z.
Proof.
  intros Hf Hg. unfold Py.floordiv.
  destruct (Z.leb_spec t (f * g)) as [Hle|Hgt].
  - destruct (Z.eqb_spec f 0); [lia|]. cbn. intros [= _ _ <-].
    apply ceil_div_le; assumption.
  - destruct (Z.eqb_spec (f * g) 0) as [|Hm]; [discriminate|]. cbn.
    set (s0 := ((t + f * g - 1) / (f * g))%Z).
    assert (Hs : (t <= s0 * (f * g))%Z) by (apply ceil_div_mul_ge; nia).
    assert (Hs0 : (0 < s0)%Z) by nia.
    destruct (Z.eqb_spec s0 0); [lia|]. cbn.
    destruct (Z.eqb_spec f 0); [lia|]. cbn. intros [= _ _ <-].
    apply ceil_div_le; [assumption|].
    apply ceil_div_le; [assumption|]. lia.
Qed.

(** C9, as the code has it.  For a well-formed configuration and input on
    which [calculate_optimal_layout] returns a layout whose cells are no
    larger than those computed without the file-size limit: the layout is
    the fallback 512x512 cells in 4 rows of 5, or it satisfies the width
    and the height bound; and whenever it holds at least one frame per
    grid and [max_grid_images] is not negative, [num_grids_needed] is at
    most [max_grid_images]. *)
Theorem layout_bounds_unless_fallback (cfg : config)
    (video_duration source_fps : float) (source_resolution : Z * Z)
    (l : layout) :
  well_formed cfg source_resolution ->
  calculate_optimal_layout cfg video_duration source_fps source_resolution
    = Some l ->
  (forall l0,
     calculate_optimal_layout (without_limit cfg) video_duration source_fps
       source_resolution = Some l0 ->
     (fst (cell_size l) <= fst (cell_size l0))%Z
     /\ (snd (cell_size l) <= snd (cell_size l0))%Z) ->
  (grid_of l = fallback_grid \/ (width_ok cfg l /\ height_ok cfg l))
  /\ ((0 < frames_per_grid l)%Z -> (0 <= max_grid_images cfg)%Z ->
      grids_ok cfg l).
Proof.
  intros Hwf Hl Hshrink.
  unfold calculate_optimal_layout in Hl, Hshrink.
  destruct source_resolution as [sw sh].
  apply bind_Some in Hl as (t & Ht & Hl).
  apply bind_Some in Hl as (ar & Har & Hl).
  apply bind_Some in Hl as ([[[cw ch] rows] cols] & Hgd & Hl).
  apply bind_Some in Hl as ([[s e] n] & Hnum & Hl).
  injection Hl as <-. cbn [grid_of cell_size grid_rows grid_cols fst snd
                             frames_per_grid].
  split.
  2:{ unfold grids_ok. cbn. intros Hf Hg.
      eapply grids_within_limit; eassumption. }
  rewrite grid_dimensions_split in Hgd.
  apply bind_Some in Hgd as (base & Hbase & Hclose).
  destruct base as [[[[cw0 ch0] rows0] cols0]|]; cbn in Hclose.
  2:{ left. inversion Hclose. reflexivity. }
  right.
  pose proof (base_grid_ok cfg ar (sw, sh) _ Hwf Hbase)
    as (Hw0 & Hh0 & Hrows & Hcols).
  assert (Hsame : rows = rows0 /\ cols = cols0).
  { unfold finish in Hclose. destruct (max_file_size_mb cfg).
    - apply bind_Some in Hclose as ([w h] & _ & [= ]). auto.
    - injection Hclose as [= ]. auto. }
  destruct Hsame as [-> ->].
  rewrite Ht, Har in Hshrink. cbn [mbind option_bind] in Hshrink.
  rewrite grid_dimensions_split, base_grid_without_limit, Hbase in Hshrink.
  cbn [mbind option_bind close_grid] in Hshrink.
  change (finish (without_limit cfg) ar (cw0, ch0, rows0, cols0))
    with (Some (cw0, ch0, rows0, cols0)) in Hshrink.
  cbn [mbind option_bind] in Hshrink.
  change (max_grid_images (without_limit cfg)) with (max_grid_images cfg)
    in Hshrink.
  rewrite Hnum in Hshrink. cbn [mbind option_bind] in Hshrink.
  destruct (Hshrink _ eq_refl) as [Hcw Hch]. cbn in Hcw, Hch.
  unfold width_ok, height_ok, total_width_of, total_height_of in *. cbn.
  destruct Hwf as (Hb & Hlh & _). split; nia.
Qed.

End AdaptiveLayoutProperties.

(** C9 as stated fails: the fallback layout is 2608 pixels wide and 2248
    high in a grid limited to 1000x1000. *)
Lemma layout_bounds_counterexample :
  exists l,
    AdaptiveFilmstripProcessor.calculate_optimal_layout
      small_preserving_config 20 30 (1920, 1080)%Z = Some l
    /\ ~ AdaptiveFilmstripProcessor.width_ok small_preserving_config l
    /\ ~ AdaptiveFilmstripProcessor.height_ok small_preserving_config l.
Proof.
  eexists. split; [vm_compute; reflexivity|].
  unfold AdaptiveFilmstripProcessor.width_ok,
    AdaptiveFilmstripProcessor.height_ok. cbn. lia.
Qed.

Lemma layout_bounds_unless_fallback_witness :
  AdaptiveFilmstripProcessor.calculate_optimal_layout budget_config 20 30
    (1920, 1080)%Z = Some budget_layout
  /\ AdaptiveFilmstripProcessor.width_ok budget_config budget_layout
  /\ AdaptiveFilmstripProcessor.height_ok budget_config budget_layout
  /\ AdaptiveFilmstripProcessor.grids_ok budget_config budget_layout.
Proof.
  assert (Hrun : AdaptiveFilmstripProcessor.calculate_optimal_layout
                   budget_config 20 30 (1920, 1080)%Z = Some budget_layout)
    by (vm_compute; reflexivity).
  assert (Hwf : well_formed budget_config (1920, 1080)%Z)
    by (unfold well_formed; cbn; lia).
  assert (Hshrink : forall l0,
            AdaptiveFilmstripProcessor.calculate_optimal_layout
              (without_limit budget_config) 20 30 (1920, 1080)%Z = Some l0 ->
            (fst (AdaptiveFilmstripProcessor.cell_size budget_layout)
             <= fst (AdaptiveFilmstripProcessor.cell_size l0))%Z
            /\ (snd (AdaptiveFilmstripProcessor.cell_size budget_layout)
                <= snd (AdaptiveFilmstripProcessor.cell_size l0))%Z).
  { intros l0 H0. vm_compute in H0. injection H0 as <-. cbn. lia. }
  destruct (layout_bounds_unless_fallback budget_config 20 30 (1920, 1080)%Z
              budget_layout Hwf Hrun Hshrink) as [Hpix Hgrids].
  split; [exact Hrun|].
  destruct Hpix as [Hfb | [Hw Hh]]; [discriminate Hfb|].
  split; [exact Hw|]. split; [exact Hh|].
  apply Hgrids; cbn; lia.
Defined.

(* --------------------------------------------------------------------- *)
(** ** FusionAnalyzer: the merge of a response                             *)
(* --------------------------------------------------------------------- *)
Section MergeProperties.

Import FusionAnalyzer.

Implicit Types (chs : list Chapter) (ts : list Topic) (st : merge_state).
Implicit Types (tm : gmap (option string) (nat * nat)) (k : option string).

Lemma topics_kept_refl ts : topics_kept ts ts.
Proof. intros j t Ht. exists t. split; [assumption | intros k Hk; exact Hk]. Qed.

Lemma topics_kept_trans ts1 ts2 ts3 :
  topics_kept ts1 ts2 -> topics_kept ts2 ts3 -> topics_kept ts1 ts3.
Proof.
  intros H12 H23 j t Ht.
  destruct (H12 j t Ht) as (t2 & Ht2 & Hk2).
  destruct (H23 j t2 Ht2) as (t3 & Ht3 & Hk3).
  exists t3. split; [assumption|]. intros k Hk. auto.
Qed.

Lemma chapter_kept_refl (c : Chapter) : chapter_kept c c.
Proof. repeat split; auto using topics_kept_refl. Qed.

Lemma chapters_kept_refl chs : chapters_kept chs chs.
Proof. intros i c Hc. exists c. auto using chapter_kept_refl. Qed.

Lemma chapters_kept_trans chs1 chs2 chs3 :
  chapters_kept chs1 chs2 -> chapters_kept chs2 chs3 -> chapters_kept chs1 chs3.
Proof.
  intros H12 H23 i c Hc.
  destruct (H12 i c Hc) as (c2 & Hc2 & Hi2 & Ht2 & Hk2).
  destruct (H23 i c2 Hc2) as (c3 & Hc3 & Hi3 & Ht3 & Hk3).
  exists c3. split; [assumption|]. split; [auto|].
  split; [congruence | eauto using topics_kept_trans].
Qed.

Lemma index_topic_list_spec (h : nat) ts :
  forall (t0 : nat) tm ts' tm',
    index_topic_list h t0 ts tm = (ts', tm') ->
    topics_kept ts ts'
    /\ (forall k h' t', tm' !! k = Some (h', t') ->
          tm !! k = Some (h', t')
          \/ (h' = h /\ exists j tp, t' = (t0 + j)%nat /\ ts' !! j = Some tp
                                     /\ topic_id tp = Some k)).
Proof.
  induction ts as [|topic rest IH]; intros t0 tm ts' tm' H.
  - injection H as <- <-. split; [apply topics_kept_refl | auto].
  - cbn [index_topic_list] in H.
    set (p := match topic_id topic with
              | Some k => (topic, k)
              | None =>
                  (with_topic_id topic
                     (Some ("t" +:+ pretty (size tm + 1)%nat)),
                   Some ("t" +:+ pretty (size tm + 1)%nat))
              end) in H.
    assert (Hp : topic_kept topic p.1 /\ topic_id p.1 = Some p.2).
    { subst p. destruct (topic_id topic) as [k0|] eqn:Hid; cbn.
      - split; [intros k Hk; exact Hk | assumption].
      - split; [intros k Hk; congruence | reflexivity]. }
    destruct p as [topic1 key]. cbn [fst snd] in Hp. destruct Hp as [Hk1 Hid1].
    destruct (index_topic_list h (S t0) rest (<[key := (h, t0)]> tm))
      as [rest' tm1] eqn:Hrest.
    injection H as <- <-.
    destruct (IH _ _ _ _ Hrest) as (Hkept & Hmap). split.
    + intros [|j] t Ht; cbn in Ht |- *.
      * injection Ht as <-. eauto.
      * apply Hkept. assumption.
    + intros k h' t' Hk. destruct (Hmap k h' t' Hk) as [Hin | (-> & j & tp & -> & Hj & Hid)].
      * destruct (decide (key = k)) as [->|Hne].
        -- rewrite lookup_insert_eq in Hin. injection Hin as <- <-.
           right. split; [reflexivity|]. exists 0%nat, topic1.
           repeat split; [lia | assumption].
        -- rewrite lookup_insert_ne in Hin by assumption. left. assumption.
      * right. split; [reflexivity|]. exists (S j), tp.
        repeat split; [lia | assumption..].
Qed.

Lemma index_chapters_spec chs :
  forall (h0 : nat) tm chs' tm',
    index_chapters h0 chs tm = (chs', tm') ->
    chapters_kept chs chs'
    /\ (forall k h' t', tm' !! k = Some (h', t') ->
          tm !! k = Some (h', t')
          \/ exists i c tp, h' = (h0 + i)%nat /\ chs' !! i = Some c
                            /\ topics c !! t' = Some tp
                            /\ topic_id tp = Some k).
Proof.
  induction chs as [|h rest IH]; intros h0 tm chs' tm' H.
  - injection H as <- <-. split; [apply chapters_kept_refl | auto].
  - cbn [index_chapters] in H.
    destruct (index_topic_list h0 0 (topics h) tm) as [ts tm1] eqn:Hts.
    destruct (index_chapters (S h0) rest tm1) as [rest' tm2] eqn:Hrest.
    injection H as <- <-.
    destruct (index_topic_list_spec _ _ _ _ _ _ Hts) as (Hkept1 & Hmap1).
    destruct (IH _ _ _ _ Hrest) as (Hkept2 & Hmap2). split.
    + intros [|i] c Hc; cbn in Hc |- *.
      * injection Hc as <-. eexists. split; [reflexivity|].
        repeat split; auto.
      * apply Hkept2. assumption.
    + intros k h' t' Hk.
      destruct (Hmap2 k h' t' Hk)
        as [Hin | (i & c & tp & -> & Hc & Ht & Hid)].
      * destruct (Hmap1 k h' t' Hin)
          as [Hin0 | (-> & j & tp & -> & Hj & Hid)]; [left; assumption|].
        right. exists 0%nat, (with_topics h ts), tp.
        repeat split; [lia | assumption..].
      * right. exists (S i), c, tp. repeat split; [lia | assumption..].
Qed.

Lemma initial_state_spec chs :
  chapters_kept chs (st_chapters (initial_state chs))
  /\ map_ok (st_chapters (initial_state chs)) (st_topic_map (initial_state chs)).
Proof.
  unfold initial_state.
  destruct (index_chapters 0 chs ∅) as [chs' tm] eqn:H. cbn.
  destruct (index_chapters_spec _ _ _ _ _ H) as (Hkept & Hmap).
  split; [assumption|].
  intros k h t Hk.
  destruct (Hmap k h t Hk) as [Hin | (i & c & tp & -> & Hc & Ht & Hid)].
  - rewrite lookup_empty in Hin. discriminate.
  - exists c, tp. auto.
Qed.

Lemma find_chapter_spec chs :
  forall (i : nat) k chs' found,
    find_chapter i chs k = (chs', found) ->
    Forall2 relabelled chs chs'
    /\ forall idx, found = Some idx ->
         exists j c, idx = (i + j)%nat /\ chs' !! j = Some c.
Proof.
  induction chs as [|h rest IH]; intros i k chs' found H.
  - injection H as <- <-. split; [constructor | discriminate].
  - cbn [find_chapter] in H.
    set (h1 := match chapter_id h with
               | Some _ => h
               | None => with_chapter_id h (Some ("h" +:+ pretty (i + 1)%nat))
               end) in H.
    assert (Hh1 : relabelled h h1).
    { subst h1. destruct (chapter_id h) eqn:Hid; repeat split; auto.
      intros k0 Hk0. congruence. }
    destruct (decide (chapter_id h1 = Some k)).
    + injection H as <- <-. split.
      * constructor; [assumption|]. apply Forall2_same_length_lookup.
        split; [reflexivity|]. intros j x y Hx Hy.
        rewrite Hx in Hy. injection Hy as <-. repeat split; auto.
      * intros idx [= <-]. exists 0%nat, h1. split; [lia | reflexivity].
    + destruct (find_chapter (S i) rest k) as [rest' found'] eqn:Hrest.
      injection H as <- <-.
      destruct (IH _ _ _ _ Hrest) as (Hrel & Hfound). split.
      * constructor; assumption.
      * intros idx Hidx. destruct (Hfound idx Hidx) as (j & c & -> & Hc).
        exists (S j), c. split; [lia | assumption].
Qed.

Lemma relabelled_kept chs chs' :
  Forall2 relabelled chs chs' -> chapters_kept chs chs'.
Proof.
  intros Hrel i c Hc.
  destruct (Forall2_lookup_l _ _ _ _ _ Hrel Hc) as (c' & Hc' & Ht & Hn & Hid).
  exists c'. split; [assumption|]. repeat split; [assumption..|].
  rewrite Ht. apply topics_kept_refl.
Qed.

Lemma relabelled_map_ok chs chs' tm :
  Forall2 relabelled chs chs' -> map_ok chs tm -> map_ok chs' tm.
Proof.
  intros Hrel Hok k h t Hk.
  destruct (Hok k h t Hk) as (c & tp & Hc & Ht & Hid).
  destruct (Forall2_lookup_l _ _ _ _ _ Hrel Hc) as (c' & Hc' & Htc & _).
  exists c', tp. rewrite Htc. auto.
Qed.

Lemma apply_action_spec st (a : action) :
  map_ok (st_chapters st) (st_topic_map st) ->
  exists st', apply_action st a = Some st'
    /\ map_ok (st_chapters st') (st_topic_map st')
    /\ chapters_kept (st_chapters st) (st_chapters st').
Proof.
  intros Hok.
  destruct a as [id title conf | id wanted summary s e cks
                | id summary s e cks | ].
  - (* new_chapter *)
    eexists. split; [reflexivity|]. cbn. split.
    + intros k h t Hk. destruct (Hok k h t Hk) as (c & tp & Hc & Ht & Hid).
      exists c, tp. split; [apply lookup_app_l_Some; assumption | auto].
    + intros i c Hc. exists c.
      split; [apply lookup_app_l_Some; assumption | apply chapter_kept_refl].
  - (* new_topic *)
    cbn [apply_action].
    destruct (find_chapter 0 (st_chapters st) wanted) as [chs' found]
      eqn:Hfind.
    destruct (find_chapter_spec _ _ _ _ _ Hfind) as (Hrel & Hfound).
    pose proof (relabelled_kept _ _ Hrel) as Hkept.
    pose proof (relabelled_map_ok _ _ _ Hrel Hok) as Hok'.
    destruct found as [idx|].
    2:{ eexists. split; [reflexivity|]. cbn. auto. }
    destruct (Hfound idx eq_refl) as (j & c & -> & Hc). cbn [Nat.add] in *.
    rewrite Hc. cbn [mbind option_bind].
    eexists. split; [reflexivity|]. cbn [st_chapters st_topic_map].
    set (nt := {| topic_id := Some id; topic_summary := summary;
                  start_time := s; end_time := e; chunks := cks |}).
    assert (Hj : (j < length chs')%nat) by (eapply lookup_lt_Some; eassumption).
    split.
    + intros k h t Hk. destruct (decide (id = k)) as [<-|Hne].
      * rewrite lookup_insert_eq in Hk. injection Hk as <- <-.
        exists (with_topics c (topics c ++ [nt])), nt.
        split; [apply list_lookup_insert_eq; assumption|].
        split; [|reflexivity]. cbn [topics with_topics].
        apply list_lookup_middle. rewrite length_app. cbn. lia.
      * rewrite lookup_insert_ne in Hk by assumption.
        destruct (Hok' k h t Hk) as (c0 & tp & Hc0 & Ht & Hid).
        destruct (decide (h = j)) as [->|Hh].
        -- rewrite Hc in Hc0. injection Hc0 as <-.
           exists (with_topics c (topics c ++ [nt])), tp.
           split; [apply list_lookup_insert_eq; assumption|].
           split; [|assumption]. cbn. apply lookup_app_l_Some. assumption.
        -- exists c0, tp. rewrite list_lookup_insert_ne by auto. auto.
    + apply (chapters_kept_trans _ chs'); [assumption|].
      intros i c0 Hc0. destruct (decide (i = j)) as [->|Hne].
      * rewrite Hc in Hc0. injection Hc0 as <-.
        eexists. split; [apply list_lookup_insert_eq; assumption|].
        repeat split; auto. cbn. intros t tp Ht. exists tp.
        split; [apply lookup_app_l_Some; assumption | intros ? ?; assumption].
      * exists c0. rewrite list_lookup_insert_ne by auto.
        split; [assumption | apply chapter_kept_refl].
  - (* update_topic *)
    cbn [apply_action].
    destruct (st_topic_map st !! id) as [[h t]|] eqn:Hid.
    2:{ eexists. split; [reflexivity|].
        split; [assumption | apply chapters_kept_refl]. }
    destruct (Hok _ _ _ Hid) as (c & tp & Hc & Ht & Htid).
    rewrite Hc. cbn [mbind option_bind]. rewrite Ht. cbn [mbind option_bind].
    eexists. split; [reflexivity|]. cbn [st_chapters st_topic_map].
    set (tp' := patch_topic tp summary s e cks).
    assert (Hh : (h < length (st_chapters st))%nat)
      by (eapply lookup_lt_Some; eassumption).
    assert (Htl : (t < length (topics c))%nat)
      by (eapply lookup_lt_Some; eassumption).
    split.
    + intros k h' t' Hk.
      destruct (Hok k h' t' Hk) as (c0 & tp0 & Hc0 & Ht0 & Hid0).
      destruct (decide (h' = h)) as [->|Hne].
      * rewrite Hc in Hc0. injection Hc0 as <-.
        exists (with_topics c (<[t := tp']> (topics c))).
        destruct (decide (t' = t)) as [->|Hnt].
        -- rewrite Ht in Ht0. injection Ht0 as <-. exists tp'.
           split; [apply list_lookup_insert_eq; assumption|].
           split; [cbn; apply list_lookup_insert_eq; assumption | assumption].
        -- exists tp0. split; [apply list_lookup_insert_eq; assumption|].
           split; [|assumption]. cbn.
           rewrite list_lookup_insert_ne by auto. assumption.
      * exists c0, tp0. rewrite list_lookup_insert_ne by auto. auto.
    + intros i c0 Hc0. destruct (decide (i = h)) as [->|Hne].
      * rewrite Hc in Hc0. injection Hc0 as <-.
        eexists. split; [apply list_lookup_insert_eq; assumption|].
        repeat split; auto. cbn. intros j x Hx.
        destruct (decide (j = t)) as [->|Hnj].
        -- rewrite Ht in Hx. injection Hx as <-. exists tp'.
           split; [apply list_lookup_insert_eq; assumption|].
           intros k Hk. exact Hk.
        -- exists x. rewrite list_lookup_insert_ne by auto.
           split; [assumption | intros ? ?; assumption].
      * exists c0. rewrite list_lookup_insert_ne by auto.
        split; [assumption | apply chapter_kept_refl].
  - (* any other type *)
    eexists. split; [reflexivity|].
    split; [assumption | apply chapters_kept_refl].
Qed.

Lemma run_actions_spec (acts : list action) :
  forall st,
    map_ok (st_chapters st) (st_topic_map st) ->
    exists st', run_actions acts st = Some st'
      /\ map_ok (st_chapters st') (st_topic_map st')
      /\ chapters_kept (st_chapters st) (st_chapters st').
Proof.
  induction acts as [|a acts IH]; intros st Hok.
  - exists st. split; [reflexivity|].
    split; [assumption | apply chapters_kept_refl].
  - destruct (apply_action_spec st a Hok) as (st1 & Hstep & Hok1 & Hkept1).
    destruct (IH st1 Hok1) as (st2 & Hrun & Hok2 & Hkept2).
    exists st2. unfold run_actions in *. cbn [Py.for_each]. rewrite Hstep.
    split; [assumption|]. split; [assumption|].
    eapply chapters_kept_trans; eassumption.
Qed.

Lemma run_actions_app (acts1 acts2 : list action) st :
  run_actions (acts1 ++ acts2) st
  = run_actions acts1 st ≫= run_actions acts2.
Proof.
  unfold run_actions. revert st.
  induction acts1 as [|a acts1 IH]; intros st; [reflexivity|].
  cbn [Py.for_each app]. destruct (apply_action st a); [apply IH|reflexivity].
Qed.

(** The merge never raises: the indices kept in [topic_map] stay valid. *)
Lemma process_incremental_updates_returns
    (results : gmap Z analysis_result) (inc : incremental_result)
    (cid : Z) (s e : float) (text : string) (sentences : list sentence_json) :
  exists r,
    _process_incremental_updates results inc cid s e text sentences = Some r
    /\ chapters_kept (starting_chapters results cid) (chapters r).
Proof.
  unfold _process_incremental_updates.
  destruct (initial_state_spec (starting_chapters results cid))
    as (Hkept0 & Hok0).
  destruct (run_actions_spec (actions inc) _ Hok0) as (st & Hrun & _ & Hkept).
  rewrite Hrun. cbn [mbind option_bind]. eexists. split; [reflexivity|].
  cbn [chapters]. eapply chapters_kept_trans; eassumption.
Qed.

Lemma kept_chapter_ids chs chs' k :
  chapters_kept chs chs' -> k ∈ chapter_ids chs -> k ∈ chapter_ids chs'.
Proof.
  unfold chapter_ids. rewrite !list_elem_of_omap.
  intros Hkept (c & Hc & Hid).
  apply list_elem_of_lookup in Hc as (i & Hi).
  destruct (Hkept i c Hi) as (c' & Hc' & Hid' & _).
  exists c'. split; [eapply list_elem_of_lookup_2; eassumption | auto].
Qed.

Lemma elem_of_topic_ids chs k :
  k ∈ topic_ids chs <->
  exists i c j tp, chs !! i = Some c /\ topics c !! j = Some tp
                   /\ topic_id tp = Some k.
Proof.
  unfold topic_ids. rewrite list_elem_of_bind. split.
  - intros (c & Hk & Hc). apply list_elem_of_omap in Hk as (tp & Htp & Hid).
    apply list_elem_of_lookup in Hc as (i & Hi).
    apply list_elem_of_lookup in Htp as (j & Hj). eauto 8.
  - intros (i & c & j & tp & Hi & Hj & Hid). exists c.
    split; [|eapply list_elem_of_lookup_2; eassumption].
    apply list_elem_of_omap. exists tp.
    split; [eapply list_elem_of_lookup_2; eassumption | assumption].
Qed.

Lemma kept_topic_ids chs chs' k :
  chapters_kept chs chs' -> k ∈ topic_ids chs -> k ∈ topic_ids chs'.
Proof.
  rewrite !elem_of_topic_ids. intros Hkept (i & c & j & tp & Hi & Hj & Hid).
  destruct (Hkept i c Hi) as (c' & Hc' & _ & _ & Hts).
  destruct (Hts j tp Hj) as (tp' & Hj' & Hk').
  exists i, c', j, tp'. auto.
Qed.

(** An [update_topic] whose id is the id of no topic finds no entry in
    [topic_map] and changes nothing. *)
Lemma update_unknown_topic st k (summary : option (option string))
    (s e : option float) (cks : option (list Z)) :
  map_ok (st_chapters st) (st_topic_map st) ->
  k ∉ topic_ids (st_chapters st) ->
  apply_action st (update_topic k summary s e cks) = Some st.
Proof.
  intros Hok Hk. cbn [apply_action].
  destruct (st_topic_map st !! k) as [[h t]|] eqn:Hin; [|reflexivity].
  exfalso. apply Hk. apply elem_of_topic_ids.
  destruct (Hok _ _ _ Hin) as (c & tp & Hc & Ht & Hid). eauto 8.
Qed.

(** C1.  When the previous chunk has a stored result, the merge returns a
    result (it does not raise) in which every chapter id and every topic
    id of the previous result is still present; and an [update_topic]
    whose id matches no topic at the point where it is applied changes
    nothing: the result is the one obtained without that action. *)
Theorem merge_is_append_only (results : gmap Z analysis_result)
    (inc : incremental_result) (cid : Z) (s e : float) (text : string)
    (sentences : list sentence_json) (previous : analysis_result) :
  (0 < cid)%Z -> results !! (cid - 1)%Z = Some previous ->
  exists r,
    _process_incremental_updates results inc cid s e text sentences = Some r
    /\ (forall k, k ∈ chapter_ids (chapters previous) ->
                  k ∈ chapter_ids (chapters r))
    /\ (forall k, k ∈ topic_ids (chapters previous) ->
                  k ∈ topic_ids (chapters r))
    /\ (forall before after k summary s' e' cks st,
          actions inc = before ++ update_topic k summary s' e' cks :: after ->
          run_actions before (initial_state (chapters previous)) = Some st ->
          k ∉ topic_ids (st_chapters st) ->
          _process_incremental_updates results
            {| actions := before ++ after;
               response_status := response_status inc |}
            cid s e text sentences = Some r).
Proof.
  intros Hcid Hprev.
  destruct (process_incremental_updates_returns results inc cid s e text
              sentences) as (r & Hr & Hkept).
  assert (Hstart : starting_chapters results cid = chapters previous).
  { unfold starting_chapters. rewrite Hprev.
    destruct (Z.ltb_spec 0 cid); [reflexivity | lia]. }
  rewrite Hstart in Hkept.
  exists r. split; [assumption|].
  split; [intros k; apply kept_chapter_ids; assumption|].
  split; [intros k; apply kept_topic_ids; assumption|].
  intros before after k summary s' e' cks st Hacts Hbefore Hk.
  unfold _process_incremental_updates in Hr |- *.
  rewrite Hstart in Hr |- *. cbn [actions response_status].
  rewrite Hacts, run_actions_app, Hbefore in Hr.
  rewrite run_actions_app, Hbefore.
  cbn [mbind option_bind] in Hr |- *.
  change (run_actions (update_topic k summary s' e' cks :: after) st)
    with (match apply_action st (update_topic k summary s' e' cks) with
          | Some st' => run_actions after st'
          | None => None
          end) in Hr.
  rewrite update_unknown_topic in Hr; [exact Hr | | assumption].
  destruct (initial_state_spec (chapters previous)) as (_ & Hok0).
  destruct (run_actions_spec before _ Hok0) as (st' & Hrun & Hok & _).
  rewrite Hbefore in Hrun. injection Hrun as <-. assumption.
Qed.

(** *** Starting over when the previous chunk has no result *)

Lemma find_chapter_all_labelled chs :
  forall (i : nat) k,
    Forall (fun c => is_Some (chapter_id c)) chs ->
    (find_chapter i chs k).1 = chs.
Proof.
  induction chs as [|h rest IH]; intros i k Hall; [reflexivity|].
  apply Forall_cons in Hall as [[k0 Hk0] Hrest].
  cbn [find_chapter]. rewrite Hk0.
  destruct (decide (chapter_id h = Some k)); [reflexivity|].
  specialize (IH (S i) k Hrest).
  destruct (find_chapter (S i) rest k) as [rest' found]. cbn in *.
  congruence.
Qed.

Lemma made_by_labelled (done : list action) st :
  made_by done st -> Forall (fun c => is_Some (chapter_id c)) (st_chapters st).
Proof.
  intros [Hids _]. apply Forall_forall. intros c Hc.
  apply list_elem_of_lookup in Hc as (i & Hi).
  assert (H : (chapter_id <$> st_chapters st) !! i = Some (chapter_id c))
    by (rewrite list_lookup_fmap, Hi; reflexivity).
  rewrite Hids, list_lookup_fmap in H.
  destruct (created_chapter_ids done !! i) as [k|]; [|discriminate].
  injection H as <-. eauto.
Qed.

Lemma created_chapter_ids_snoc (done : list action) (a : action) :
  created_chapter_ids (done ++ [a])
  = created_chapter_ids done
    ++ match a with new_chapter id _ _ => [id] | _ => [] end.
Proof.
  unfold created_chapter_ids. rewrite omap_app. f_equal.
  destruct a; reflexivity.
Qed.

Lemma created_topic_ids_snoc (done : list action) (a : action) :
  created_topic_ids (done ++ [a])
  = created_topic_ids done
    ++ match a with new_topic id _ _ _ _ _ => [id] | _ => [] end.
Proof.
  unfold created_topic_ids. rewrite omap_app. f_equal.
  destruct a; reflexivity.
Qed.

Lemma apply_action_made_by (done : list action) st st' (a : action) :
  made_by done st -> apply_action st a = Some st' ->
  made_by (done ++ [a]) st'.
Proof.
  intros Hinv Hstep. pose proof (made_by_labelled _ _ Hinv) as Hlab.
  destruct Hinv as [Hids Htopics]. unfold made_by.
  rewrite created_chapter_ids_snoc, created_topic_ids_snoc.
  destruct a as [id title conf | id wanted summary s e cks
                | id summary s e cks | ]; cbn [apply_action] in Hstep.
  - (* new_chapter *)
    injection Hstep as <-. cbn [st_chapters]. split.
    + rewrite !fmap_app, Hids. reflexivity.
    + intros k Hk. rewrite app_nil_r. apply Htopics.
      apply elem_of_topic_ids in Hk as (i & c & j & tp & Hi & Hj & Hid).
      apply elem_of_topic_ids.
      apply lookup_app_Some in Hi as [Hi | [_ Hi]]; [eauto 8|].
      destruct (i - length (st_chapters st))%nat; [|discriminate].
      injection Hi as <-. discriminate.
  - (* new_topic *)
    pose proof (find_chapter_all_labelled _ 0 wanted Hlab) as Hsame.
    destruct (find_chapter 0 (st_chapters st) wanted) as [chs' found].
    cbn [fst] in Hsame. subst chs'.
    destruct found as [idx|].
    2:{ injection Hstep as <-. cbn [st_chapters]. rewrite app_nil_r.
        split; [assumption|]. intros k Hk. apply elem_of_app. auto. }
    apply bind_Some in Hstep as (c & Hc & Hstep). injection Hstep as <-.
    cbn [st_chapters]. rewrite app_nil_r. split.
    + rewrite list_fmap_insert. cbn [chapter_id with_topics].
      rewrite list_insert_id; [assumption|].
      rewrite list_lookup_fmap, Hc. reflexivity.
    + intros k Hk. apply elem_of_app.
      apply elem_of_topic_ids in Hk as (i & c0 & j & tp & Hi & Hj & Hid).
      destruct (decide (i = idx)) as [->|Hne].
      * rewrite list_lookup_insert_eq in Hi
          by (eapply lookup_lt_Some; eassumption).
        injection Hi as <-. cbn [topics with_topics] in Hj.
        apply lookup_app_Some in Hj as [Hj | [_ Hj]].
        -- left. apply Htopics, elem_of_topic_ids. eauto 8.
        -- destruct (j - length (topics c))%nat; [|discriminate].
           injection Hj as <-. injection Hid as <-.
           right. apply list_elem_of_singleton. reflexivity.
      * rewrite list_lookup_insert_ne in Hi by auto.
        left. apply Htopics, elem_of_topic_ids. eauto 8.
  - (* update_topic *)
    rewrite !app_nil_r.
    destruct (st_topic_map st !! id) as [[h t]|].
    2:{ injection Hstep as <-. split; assumption. }
    apply bind_Some in Hstep as (c & Hc & Hstep).
    apply bind_Some in Hstep as (tp & Ht & Hstep). injection Hstep as <-.
    cbn [st_chapters]. split.
    + rewrite list_fmap_insert. cbn [chapter_id with_topics].
      rewrite list_insert_id; [assumption|].
      rewrite list_lookup_fmap, Hc. reflexivity.
    + intros k Hk. apply Htopics.
      apply elem_of_topic_ids in Hk as (i & c0 & j & tp0 & Hi & Hj & Hid).
      apply elem_of_topic_ids.
      destruct (decide (i = h)) as [->|Hne].
      * rewrite list_lookup_insert_eq in Hi
          by (eapply lookup_lt_Some; eassumption).
        injection Hi as <-. cbn [topics with_topics] in Hj.
        destruct (decide (j = t)) as [->|Hnj].
        -- rewrite list_lookup_insert_eq in Hj
             by (eapply lookup_lt_Some; eassumption).
           injection Hj as <-. exists h, c, t, tp. auto.
        -- rewrite list_lookup_insert_ne in Hj by auto. eauto 8.
      * rewrite list_lookup_insert_ne in Hi by auto. eauto 8.
  - (* any other type *)
    injection Hstep as <-. rewrite !app_nil_r. split; assumption.
Qed.

Lemma run_actions_made_by (acts : list action) :
  forall (done : list action) st st',
    made_by done st -> run_actions acts st = Some st' ->
    made_by (done ++ acts) st'.
Proof.
  unfold run_actions.
  induction acts as [|a acts IH]; intros done st st' Hinv Hrun.
  - injection Hrun as <-. rewrite app_nil_r. assumption.
  - cbn [Py.for_each] in Hrun.
    destruct (apply_action st a) as [st1|] eqn:Hstep; [|discriminate].
    replace (done ++ a :: acts) with ((done ++ [a]) ++ acts)
      by (rewrite <- app_assoc; reflexivity).
    eapply IH; [|eassumption]. eapply apply_action_made_by; eassumption.
Qed.

Lemma omap_of_fmap_Some {A B : Type} (f : A -> option B) (l : list A) :
  forall l' : list B, f <$> l = Some <$> l' -> omap f l = l'.
Proof.
  induction l as [|a l IH]; intros [|b l'] H; try discriminate;
    [reflexivity|].
  cbn in H. injection H as Hf Hrest. cbn. rewrite Hf. f_equal. auto.
Qed.

(** C4.  For a chunk after the first whose predecessor has no stored
    result, the merge builds its result from the empty chapter list, as
    if nothing had been stored at all: the chapters of the result are
    exactly those created by the response's own [new_chapter] actions and
    every topic in it was created by one of its [new_topic] actions. *)
Theorem merge_restarts_without_previous (results : gmap Z analysis_result)
    (inc : incremental_result) (cid : Z) (s e : float) (text : string)
    (sentences : list sentence_json) :
  (0 < cid)%Z -> results !! (cid - 1)%Z = None ->
  exists r,
    _process_incremental_updates results inc cid s e text sentences = Some r
    /\ _process_incremental_updates ∅ inc cid s e text sentences = Some r
    /\ chapter_ids (chapters r) = created_chapter_ids (actions inc)
    /\ length (chapters r) = length (created_chapter_ids (actions inc))
    /\ forall k, k ∈ topic_ids (chapters r) ->
                 k ∈ created_topic_ids (actions inc).
Proof.
  intros Hcid Hprev.
  destruct (process_incremental_updates_returns results inc cid s e text
              sentences) as (r & Hr & _).
  assert (Hstart : starting_chapters results cid = []).
  { unfold starting_chapters. rewrite Hprev. destruct (0 <? cid)%Z; reflexivity. }
  assert (Hempty : starting_chapters ∅ cid = []).
  { unfold starting_chapters. rewrite lookup_empty.
    destruct (0 <? cid)%Z; reflexivity. }
  exists r. split; [assumption|].
  unfold _process_incremental_updates in Hr |- *.
  rewrite Hstart in Hr. rewrite Hempty. split; [assumption|].
  apply bind_Some in Hr as (st & Hrun & Hr). injection Hr as <-.
  cbn [chapters].
  assert (H0 : made_by [] (initial_state [])).
  { split; [reflexivity|]. intros k Hk. cbn in Hk. inversion Hk. }
  destruct (run_actions_made_by _ _ _ _ H0 Hrun) as [Hids Htopics].
  cbn [app] in Hids, Htopics.
  assert (Hcids : chapter_ids (st_chapters st)
                  = created_chapter_ids (actions inc)).
  { apply omap_of_fmap_Some. assumption. }
  split; [exact Hcids|]. split; [|assumption].
  apply (f_equal length) in Hids. rewrite !length_fmap in Hids. assumption.
Qed.

End MergeProperties.

(** *** The three-chunk scenario of a 60-second video *)

Example scenario_chunk_0 :
  FusionAnalyzer._process_incremental_updates ∅ response_1 0 0 20
    EmptyString []
  = Some (result_of 0 0 20 [chapter_1 (topic_1 20 [0%Z])]).
Proof. vm_compute. reflexivity. Qed.

Example scenario_chunk_1 :
  FusionAnalyzer._process_incremental_updates store_0 response_2 1 20 40
    EmptyString []
  = Some (result_of 1 20 40 [chapter_1 (topic_1 40 [0%Z; 1%Z])]).
Proof. vm_compute. reflexivity. Qed.

(** Two chapters at the end; the first holds exactly [t1] over [0, 40]. *)
Example scenario_chunk_2 :
  FusionAnalyzer._process_incremental_updates store_1 response_3 2 40 60
    EmptyString []
  = Some (result_of 2 40 60 [chapter_1 (topic_1 40 [0%Z; 1%Z]); chapter_2]).
Proof. vm_compute. reflexivity. Qed.

Lemma merge_is_append_only_witness :
  exists r,
    FusionAnalyzer._process_incremental_updates store_1 response_3 2 40 60
      EmptyString [] = Some r
    /\ Some "h1"%string ∈ FusionAnalyzer.chapter_ids (FusionAnalyzer.chapters r)
    /\ Some "t1"%string ∈ FusionAnalyzer.topic_ids (FusionAnalyzer.chapters r).
Proof.
  destruct (merge_is_append_only store_1 response_3 2 40 60 EmptyString []
              (result_of 1 20 40 [chapter_1 (topic_1 40 [0%Z; 1%Z])])
              ltac:(lia) ltac:(reflexivity))
    as (r & Hr & Hchapters & Htopics & _).
  exists r. split; [exact Hr|].
  split; [apply Hchapters | apply Htopics]; cbn; apply list_elem_of_here.
Defined.

(** Chunk 1 was never stored (its response failed to parse); chunk 2
    arrives with an update of [t1]: the result has no chapter at all. *)
Example restart_loses_chapters :
  FusionAnalyzer._process_incremental_updates store_0 response_2 2 40 60
    EmptyString []
  = Some (result_of 2 40 60 []).
Proof. vm_compute. reflexivity. Qed.

Lemma merge_restarts_without_previous_witness :
  exists r,
    FusionAnalyzer._process_incremental_updates store_0 response_3 2 40 60
      EmptyString [] = Some r
    /\ FusionAnalyzer.chapter_ids (FusionAnalyzer.chapters r)
       = [Some "h2"%string]
    /\ Some "h1"%string
       ∉ FusionAnalyzer.chapter_ids (FusionAnalyzer.chapters r).
Proof.
  destruct (merge_restarts_without_previous store_0 response_3 2 40 60
              EmptyString [] ltac:(lia) ltac:(reflexivity))
    as (r & Hr & _ & Hids & _).
  exists r. split; [exact Hr|]. split; [exact Hids|].
  rewrite Hids. cbn. intros Hin.
  apply list_elem_of_singleton in Hin. discriminate Hin.
Defined.

(* --------------------------------------------------------------------- *)
(** ** FusionAnalyzer: overlap detection                                   *)
(* --------------------------------------------------------------------- *)
Section OverlapProperties.

Import FusionAnalyzer.

(** *** [sorted] sorts *)

Lemma SFcompare_swap (a b : spec_float) :
  SFcompare b a = CompOpp <$> SFcompare a b.
Proof.
  destruct a as [sa|sa| |sa ma ea], b as [sb|sb| |sb mb eb]; cbn;
    try reflexivity; try (destruct sa; reflexivity);
    try (destruct sb; reflexivity);
    try (destruct sa, sb; reflexivity).
  destruct sa, sb; cbn; try reflexivity;
    rewrite (Z.compare_antisym ea eb); destruct (ea ?= eb)%Z; cbn;
    try reflexivity;
    change (Pos.compare_cont Eq mb ma) with (mb ?= ma)%positive;
    change (Pos.compare_cont Eq ma mb) with (ma ?= mb)%positive;
    rewrite (Pos.compare_antisym ma mb);
    destruct (ma ?= mb)%positive; reflexivity.
Qed.

(** [<] on floats is asymmetric. *)
Lemma float_ltb_asym (x y : float) :
  (x <? y)%float = true -> (y <? x)%float = false.
Proof.
  rewrite !ltb_spec. unfold SFltb.
  rewrite (SFcompare_swap (Prim2SF x) (Prim2SF y)).
  destruct (SFcompare (Prim2SF x) (Prim2SF y)) as [[| |]|]; cbn;
    congruence.
Qed.

Section Sorted.

Context {A : Type} (key : A -> float).

Local Abbreviation not_before := (not_before key).

Lemma insert_by_key_perm (x : A) (l : list A) :
  Py.insert_by_key key x l ≡ₚ x :: l.
Proof.
  induction l as [|y rest IH]; [reflexivity|].
  cbn [Py.insert_by_key]. destruct (key y <? key x)%float; [|reflexivity].
  rewrite IH. apply Permutation_swap.
Qed.

Lemma sorted_perm (l : list A) : Py.sorted key l ≡ₚ l.
Proof.
  induction l as [|x rest IH]; [reflexivity|].
  unfold Py.sorted in *. cbn [foldr].
  rewrite insert_by_key_perm, IH. reflexivity.
Qed.

Lemma insert_by_key_sorted (x : A) (l : list A) :
  Sorted not_before l -> Sorted not_before (Py.insert_by_key key x l).
Proof.
  intros Hl. induction Hl as [|y rest Hrest IH Hhd].
  - repeat constructor.
  - cbn [Py.insert_by_key].
    destruct (key y <? key x)%float eqn:Hlt.
    + constructor; [assumption|].
      destruct rest as [|z rest']; cbn [Py.insert_by_key].
      * constructor. apply float_ltb_asym. assumption.
      * destruct (key z <? key x)%float.
        -- constructor. inversion Hhd. assumption.
        -- constructor. apply float_ltb_asym. assumption.
    + constructor; [constructor; assumption|]. constructor. assumption.
Qed.

(** The result of [sorted] is in ascending order: no element is followed
    by one with a smaller key. *)
Lemma sorted_ascending (l : list A) : Sorted not_before (Py.sorted key l).
Proof.
  induction l as [|x rest IH]; [constructor|].
  unfold Py.sorted in *. cbn [foldr]. apply insert_by_key_sorted. assumption.
Qed.

Lemma sorted_length (l : list A) : length (Py.sorted key l) = length l.
Proof. apply Permutation_length, sorted_perm. Qed.

End Sorted.

(** *** What the scan reports *)

Lemma scan_overlaps_cons (chunk_id : Z) (chapter_idx i : nat)
    (a b : Topic) (rest : list Topic) :
  scan_overlaps chunk_id chapter_idx i (a :: b :: rest)
  = let '(logs, n) := scan_overlaps chunk_id chapter_idx (S i) (b :: rest) in
    if (start_time b <? end_time a)%float
    then ([OverlapDetected chunk_id (chapter_idx + 1);
           OverlapTopicEnds (i + 1) (end_time a);
           OverlapTopicStarts (i + 2) (start_time b);
           OverlapDuration (end_time a - start_time b)%float] ++ logs,
          S n)
    else (logs, n).
Proof. reflexivity. Qed.

Lemma scan_overlaps_spec (chunk_id : Z) (chapter_idx : nat)
    (l : list Topic) :
  forall i,
    scan_overlaps chunk_id chapter_idx i l
    = (filter (fun ip => Is_true (overlaps ip.2))
              (imap (fun j p => ((i + j)%nat, p)) (adjacent l))
         ≫= overlap_lines chunk_id chapter_idx,
       length (filter (fun ip => Is_true (overlaps ip.2))
                      (imap (fun j p => ((i + j)%nat, p)) (adjacent l)))).
Proof.
  induction l as [|a rest IH]; intros i; [reflexivity|].
  destruct rest as [|b rest']; [reflexivity|].
  rewrite scan_overlaps_cons, (IH (S i)).
  change (adjacent (a :: b :: rest')) with ((a, b) :: adjacent (b :: rest')).
  rewrite imap_cons.
  rewrite (imap_ext ((fun j p => ((i + j)%nat, p)) ∘ S)
             (fun j p => ((S i + j)%nat, p)) (adjacent (b :: rest')))
    by (intros j p _; cbn; f_equal; lia).
  rewrite filter_cons.
  destruct (start_time b <? end_time a)%float eqn:Hov.
  - rewrite decide_True by (unfold overlaps; cbn; rewrite Hov; exact I).
    cbn [mbind list_bind length]. unfold overlap_lines at 1. cbn [fst snd].
    replace (i + 0)%nat with i by lia. reflexivity.
  - rewrite decide_False by (unfold overlaps; cbn; rewrite Hov; intros []).
    reflexivity.
Qed.

Lemma adjacent_short {A : Type} (l : list A) :
  (length l <= 1)%nat -> adjacent l = [].
Proof. destruct l as [|a [|b rest]]; cbn; [reflexivity..|lia]. Qed.

Lemma chapter_overlaps_spec (chunk_id : Z) (chapter_idx : nat) (h : Chapter) :
  chapter_overlaps chunk_id chapter_idx h
  = (overlapping_pairs h ≫= overlap_lines chunk_id chapter_idx,
     length (overlapping_pairs h)).
Proof.
  unfold chapter_overlaps, overlapping_pairs.
  destruct (Nat.leb_spec (length (topics h)) 1) as [Hle|Hgt].
  - rewrite adjacent_short by (rewrite sorted_length; assumption).
    reflexivity.
  - rewrite scan_overlaps_spec. reflexivity.
Qed.

Lemma detect_chapters_spec (chunk_id : Z) (chs : list Chapter) :
  forall idx,
    detect_chapters chunk_id idx chs
    = (mjoin (imap (fun j h => overlapping_pairs h
                                ≫= overlap_lines chunk_id (idx + j)) chs),
       sum_list (length ∘ overlapping_pairs <$> chs)).
Proof.
  induction chs as [|h rest IH]; intros idx; [reflexivity|].
  cbn [detect_chapters]. rewrite chapter_overlaps_spec, (IH (S idx)).
  rewrite imap_cons. cbn [mjoin list_join fmap list_fmap sum_list sum_list_with].
  replace (idx + 0)%nat with idx by lia.
  rewrite (imap_ext ((fun j h0 => overlapping_pairs h0
                        ≫= overlap_lines chunk_id (idx + j)) ∘ S)
             (fun j h0 => overlapping_pairs h0
                          ≫= overlap_lines chunk_id (S idx + j)) rest)
    by (intros j p _; cbn; do 2 f_equal; lia).
  reflexivity.
Qed.

Lemma detect_returns_argument (r : analysis_result) (chunk_id : Z) :
  fst (_detect_overlapping_topics r chunk_id) = r.
Proof.
  unfold _detect_overlapping_topics.
  destruct (detect_chapters chunk_id 0 (chapters r)). reflexivity.
Qed.

(** C5.  [_detect_overlapping_topics] leaves the analysis result as it
    is, and what it logs is, chapter by chapter, one group of warnings for
    each pair of neighbours in the order of [start_time] whose first topic
    ends after the second starts, the last line of the group carrying
    [end_time - start_time] of the pair, followed by the total when there
    is any overlap. *)
Theorem overlaps_are_reported_only (r : analysis_result) (chunk_id : Z) :
  fst (_detect_overlapping_topics r chunk_id) = r
  /\ snd (_detect_overlapping_topics r chunk_id)
     = mjoin (imap (fun j h => overlapping_pairs h
                                ≫= overlap_lines chunk_id j) (chapters r))
       ++ (let n := sum_list (length ∘ overlapping_pairs <$> chapters r) in
           if (0 <? n)%nat then [TotalOverlaps chunk_id n] else [])
  /\ forall h, h ∈ chapters r ->
       Py.sorted start_time (topics h) ≡ₚ topics h
       /\ Sorted (not_before start_time) (Py.sorted start_time (topics h))
       /\ forall ip, ip ∈ overlapping_pairs h <->
            adjacent (Py.sorted start_time (topics h)) !! ip.1 = Some ip.2
            /\ (start_time ip.2.2 <? end_time ip.2.1)%float = true.
Proof.
  unfold _detect_overlapping_topics. rewrite detect_chapters_spec.
  cbn [fst snd]. split; [reflexivity|]. split; [reflexivity|].
  intros h _. split; [apply sorted_perm|]. split; [apply sorted_ascending|].
  intros [i p]. unfold overlapping_pairs. rewrite list_elem_of_filter.
  rewrite elem_of_lookup_imap. cbn [fst snd]. unfold overlaps. split.
  - intros (Hov & j & q & [= -> ->] & Hj). split; [assumption|].
    apply Is_true_true. assumption.
  - intros (Hj & Hov). split; [apply Is_true_true; assumption|].
    exists i, p. auto.
Qed.

End OverlapProperties.

(** Two topics of one chapter, the second starting 1.5 s before the first
    ends, given out of order. *)
Example overlap_is_logged :
  snd (FusionAnalyzer._detect_overlapping_topics
         (result_of 3 60 80
            [{| FusionAnalyzer.chapter_id := Some (Some "h1");
                FusionAnalyzer.chapter := Some "Introduction";
                FusionAnalyzer.confidence := 0;
                FusionAnalyzer.topics :=
                  [{| FusionAnalyzer.topic_id := Some (Some "t2");
                      FusionAnalyzer.topic_summary := Some "b";
                      FusionAnalyzer.start_time := 18.5;
                      FusionAnalyzer.end_time := 40;
                      FusionAnalyzer.chunks := [1%Z] |};
                   topic_1 20 [0%Z]] |}]) 3)
  = [FusionAnalyzer.OverlapDetected 3 1;
     FusionAnalyzer.OverlapTopicEnds 1 20;
     FusionAnalyzer.OverlapTopicStarts 2 18.5;
     FusionAnalyzer.OverlapDuration 1.5;
     FusionAnalyzer.TotalOverlaps 3 1].
Proof. vm_compute. reflexivity. Qed.

(* --------------------------------------------------------------------- *)
(** ** FusionAnalyzer: the context window                                  *)
(* --------------------------------------------------------------------- *)
Section WindowProperties.

Import FusionAnalyzer.

Lemma history_head_user (turns : list turn) (m : message)
    (rest : list message) :
  Forall well_formed_turn turns -> history turns = m :: rest ->
  role m = "user"%string.
Proof.
  destruct turns as [|t turns]; [discriminate|].
  intros Hwf H. apply Forall_cons in Hwf as [[Hu _] _].
  injection H as <- _. exact Hu.
Qed.

Lemma filter_messages_pair (keep : string -> bool) (u a : message)
    (rest : list message) :
  role u = "user"%string -> role a = "assistant"%string ->
  filter_messages keep (u :: a :: rest)
  = if turn_kept keep {| turn_user := u; turn_assistant := Some a |}
    then u :: a :: filter_messages keep rest
    else filter_messages keep rest.
Proof.
  intros Hu Ha. unfold turn_kept. cbn [turn_user filter_messages].
  rewrite Hu, Ha.
  change (String.eqb "user" "user") with true.
  change (String.eqb "assistant" "assistant") with true.
  change (String.eqb "assistant" "user") with false. cbv iota.
  destruct (content u) as [[|b bs]|]; reflexivity.
Qed.

Lemma filter_messages_single (keep : string -> bool) (u : message)
    (rest : list message) :
  role u = "user"%string ->
  (forall next rest', rest = next :: rest' -> role next = "user"%string) ->
  filter_messages keep (u :: rest)
  = if turn_kept keep {| turn_user := u; turn_assistant := None |}
    then u :: filter_messages keep rest
    else filter_messages keep rest.
Proof.
  intros Hu Hnext. unfold turn_kept. cbn [turn_user filter_messages].
  rewrite Hu. change (String.eqb "user" "user") with true. cbv iota.
  destruct rest as [|next rest'].
  - destruct (content u) as [[|b bs]|]; reflexivity.
  - rewrite (Hnext next rest' eq_refl).
    change (String.eqb "user" "assistant") with false. cbv iota.
    destruct (content u) as [[|b bs]|]; reflexivity.
Qed.

(** On a history made of turns the loop keeps or drops each turn whole. *)
Lemma filter_messages_history (keep : string -> bool) (turns : list turn) :
  Forall well_formed_turn turns ->
  filter_messages keep (history turns)
  = history (filter (fun t => Is_true (turn_kept keep t)) turns).
Proof.
  induction turns as [|t turns IH]; intros Hwf; [reflexivity|].
  apply Forall_cons in Hwf as [[Hu Ha] Hwf]. specialize (IH Hwf).
  rewrite filter_cons.
  assert (Hstep : filter_messages keep (history (t :: turns))
                  = if turn_kept keep t
                    then turn_messages t ++ filter_messages keep (history turns)
                    else filter_messages keep (history turns)).
  { destruct t as [u [a|]]; cbn [turn_user turn_assistant] in *.
    - change (history ({| turn_user := u; turn_assistant := Some a |} :: turns))
        with (u :: a :: history turns).
      rewrite filter_messages_pair by assumption. reflexivity.
    - change (history ({| turn_user := u; turn_assistant := None |} :: turns))
        with (u :: history turns).
      rewrite filter_messages_single; [reflexivity | assumption |].
      intros next rest' Hh. eapply history_head_user; eassumption. }
  rewrite Hstep. destruct (turn_kept keep t).
  - rewrite decide_True by exact I. rewrite IH. reflexivity.
  - rewrite decide_False by (intros []). exact IH.
Qed.

(** *** What "references a chunk of the window" means *)

(** [+:+] is kept folded by the reduction tactics. *)
Ltac string_app_in H := unfold String.append in H; fold String.append in H.

Lemma prefix_app (p s : string) :
  String.prefix p s = true <-> exists post, s = p +:+ post.
Proof.
  revert s. induction p as [|a p IH]; intros s.
  - split; [exists s; reflexivity | intros _; destruct s; reflexivity].
  - destruct s as [|b s]; cbn [String.prefix].
    { split; [discriminate | intros (post & H)].
      string_app_in H. discriminate. }
    destruct (Ascii.ascii_dec a b) as [->|Hne].
    + rewrite IH. split; intros (post & Hpost); exists post.
      * rewrite Hpost. reflexivity.
      * string_app_in Hpost. congruence.
    + split; [discriminate | intros (post & H)].
      string_app_in H. congruence.
Qed.

(** [needle in hay]: the text holds the needle somewhere. *)
Lemma contains_substring (needle hay : string) :
  Py.contains needle hay = true <->
  exists pre post, hay = pre +:+ needle +:+ post.
Proof.
  induction hay as [|c hay IH].
  - cbn [Py.contains]. rewrite orb_false_r, prefix_app. split.
    + intros (post & H). exists EmptyString, post. exact H.
    + intros ([|c pre] & post & H); [exists post; exact H|].
      string_app_in H. discriminate.
  - cbn [Py.contains]. rewrite orb_true_iff, prefix_app, IH. split.
    + intros [(post & H) | (pre & post & H)].
      * exists EmptyString, post. exact H.
      * exists (String c pre), post. rewrite H. reflexivity.
    + intros ([|c' pre] & post & H).
      * left. exists post. exact H.
      * right. string_app_in H. injection H as _ H. eauto.
Qed.

Lemma keep_this_pair_true (cs : gset Z) (text : string) :
  keep_this_pair cs text = true <->
  exists c, c ∈ cs /\ Py.contains (chunk_identifier c) text = true.
Proof.
  unfold keep_this_pair. rewrite existsb_exists. split.
  - intros (c & Hc & H). exists c.
    split; [apply elem_of_elements, list_elem_of_In; assumption | assumption].
  - intros (c & Hc & H). exists c.
    split; [apply list_elem_of_In, elem_of_elements; assumption | assumption].
Qed.

Lemma elem_of_chunks_of (chs : list Chapter) (c : Z) :
  c ∈ chunks_of chs <->
  exists h t, h ∈ chs /\ t ∈ topics h /\ c ∈ chunks t.
Proof.
  unfold chunks_of. rewrite elem_of_list_to_set, list_elem_of_bind. split.
  - intros (h & Hc & Hh). apply list_elem_of_bind in Hc as (t & Hc & Ht).
    eauto.
  - intros (h & t & Hh & Ht & Hc). exists h. split; [|assumption].
    apply list_elem_of_bind. eauto.
Qed.

Lemma turn_kept_references (window : list Chapter) (t : turn) :
  Is_true (turn_kept (keep_this_pair (chunks_of window)) t)
  <-> references_window window t.
Proof.
  unfold turn_kept, references_window. rewrite Is_true_true.
  destruct (content (turn_user t)) as [[|b bs]|].
  - split; [discriminate | intros (? & ? & ? & ? & ? & ? & ? & [=] & _)].
  - rewrite keep_this_pair_true. split.
    + intros (c & Hc & Hin). apply elem_of_chunks_of in Hc as (h & tp & ?).
      apply contains_substring in Hin as (pre & post & Htext).
      exists b, bs, c, h, tp, pre, post. tauto.
    + intros (b' & bs' & c & h & tp & pre & post & [= <- <-] & Hh & Htp & Hc
              & Htext).
      exists c. split; [apply elem_of_chunks_of; eauto|].
      apply contains_substring. eauto.
  - split; [discriminate | intros (? & ? & ? & ? & ? & ? & ? & [=] & _)].
Qed.

(** The retained chapters are the last [k + 1]. *)
Lemma chapters_to_keep_last (k : Z) (all_chapters : list Chapter) :
  (0 <= k)%Z -> (k + 1 < Z.of_nat (length all_chapters))%Z ->
  chapters_to_keep k all_chapters
  = drop (length all_chapters - Z.to_nat (k + 1)) all_chapters
  /\ length (chapters_to_keep k all_chapters) = Z.to_nat (k + 1).
Proof.
  intros Hk Hlen. unfold chapters_to_keep, Py.slice_from.
  destruct (Z.ltb_spec (- (k + 1)) 0); [|lia].
  replace (Z.to_nat (Z.of_nat (length all_chapters) + - (k + 1)))
    with (length all_chapters - Z.to_nat (k + 1))%nat by lia.
  split; [reflexivity|]. rewrite length_drop. lia.
Qed.

Lemma update_finalized_chapters_messages (a : analyzer) :
  messages (update_finalized_chapters a)
  = match latest_result (analysis_results a) with
    | Some latest =>
        if (1 <? length (chapters latest))%nat
        then _cleanup_old_messages (keep_n_chapters a) (chapters latest)
               (messages a)
        else messages a
    | None => messages a
    end.
Proof.
  unfold update_finalized_chapters.
  destruct (latest_result (analysis_results a)) as [latest|]; [|reflexivity].
  destruct (Nat.leb_spec 1 (length (chapters latest))) as [H1|H1].
  - destruct (1 <? length (chapters latest))%nat; reflexivity.
  - destruct (Nat.ltb_spec 1 (length (chapters latest))); [lia|reflexivity].
Qed.

(** C2.  With [keep_n_chapters = k] and a latest result of more than
    [k + 1] chapters, [update_finalized_chapters] turns a history made of
    turns into the history of exactly those turns whose request references
    a chunk id of a topic of the last [k + 1] chapters, each turn kept or
    dropped whole; with [keep_n_chapters] unset the history is left as it
    is. *)
Theorem window_keeps_recent_turns (a : analyzer) (k : Z)
    (latest : analysis_result) (turns : list turn) :
  keep_n_chapters a = Some k -> (0 <= k)%Z ->
  latest_result (analysis_results a) = Some latest ->
  (k + 1 < Z.of_nat (length (chapters latest)))%Z ->
  messages a = history turns -> Forall well_formed_turn turns ->
  let window :=
    drop (length (chapters latest) - Z.to_nat (k + 1)) (chapters latest) in
  length window = Z.to_nat (k + 1)
  /\ (exists kept,
        messages (update_finalized_chapters a) = history kept
        /\ forall t, t ∈ kept <-> t ∈ turns /\ references_window window t)
  /\ messages (update_finalized_chapters (set_keep_n_chapters a None))
     = messages a.
Proof.
  intros Hkeep Hk Hlatest Hlen Hmsgs Hwf window.
  destruct (chapters_to_keep_last k (chapters latest) Hk Hlen)
    as (Hwindow & Hwlen).
  fold window in Hwindow. rewrite Hwindow in Hwlen.
  split; [exact Hwlen|]. split.
  - exists (filter (fun t => Is_true (turn_kept (keep_this_pair
                                                   (chunks_of window)) t))
                   turns).
    split.
    + rewrite update_finalized_chapters_messages, Hlatest.
      destruct (Nat.ltb_spec 1 (length (chapters latest))); [|lia].
      unfold _cleanup_old_messages. rewrite Hkeep.
      destruct (Z.leb_spec (Z.of_nat (length (chapters latest))) (k + 1));
        [lia|].
      rewrite Hwindow, Hmsgs. apply filter_messages_history. assumption.
    + intros t. rewrite list_elem_of_filter, turn_kept_references. tauto.
  - rewrite update_finalized_chapters_messages.
    cbn [analysis_results keep_n_chapters messages set_keep_n_chapters].
    rewrite Hlatest. destruct (1 <? length (chapters latest))%nat; reflexivity.
Qed.

End WindowProperties.

Example window_drops_oldest_turn :
  FusionAnalyzer.messages
    (FusionAnalyzer.update_finalized_chapters windowed_analyzer)
  = history [turn_of 1; turn_of 2].
Proof. vm_compute. reflexivity. Qed.

Lemma window_keeps_recent_turns_witness :
  length (drop (3 - Z.to_nat (1 + 1))
               (FusionAnalyzer.chapters three_chapters)) = Z.to_nat (1 + 1)
  /\ (exists kept,
        FusionAnalyzer.messages
          (FusionAnalyzer.update_finalized_chapters windowed_analyzer)
        = history kept
        /\ forall t, t ∈ kept <->
             t ∈ [turn_of 0; turn_of 1; turn_of 2]
             /\ references_window
                  (drop (3 - Z.to_nat (1 + 1))
                        (FusionAnalyzer.chapters three_chapters)) t)
  /\ FusionAnalyzer.messages
       (FusionAnalyzer.update_finalized_chapters
          (set_keep_n_chapters windowed_analyzer None))
     = FusionAnalyzer.messages windowed_analyzer.
Proof.
  apply (window_keeps_recent_turns windowed_analyzer 1 three_chapters
           [turn_of 0; turn_of 1; turn_of 2]).
  - reflexivity.
  - lia.
  - vm_compute. reflexivity.
  - cbn. lia.
  - reflexivity.
  - repeat constructor.
Defined.

(* --------------------------------------------------------------------- *)
(** ** FusionAnalyzer: parsing the response                                *)
(* --------------------------------------------------------------------- *)
Section ResponseProperties.

Import FusionAnalyzer.

Variable json_loads : string -> json_outcome.
Variable json_dumps : list sentence_json -> string.
Variable format_1f : float -> string.

Local Abbreviation parse_and_store := (parse_and_store json_loads).
Local Abbreviation _perform_fusion_analysis :=
  (_perform_fusion_analysis json_loads json_dumps format_1f).

Lemma update_finalized_chapters_results (a : analyzer) :
  analysis_results (update_finalized_chapters a) = analysis_results a
  /\ log (update_finalized_chapters a) = log a.
Proof.
  unfold update_finalized_chapters.
  destruct (latest_result (analysis_results a)) as [latest|]; [|auto].
  destruct (1 <=? length (chapters latest))%nat; [|auto].
  destruct (1 <? length (chapters latest))%nat; auto.
Qed.

(** The response's text is not a prefix-free matter: without the opening
    fence nothing is extracted. *)
Lemma strip_prefix_prefix (p s : string) :
  Py.strip_prefix p s = None <-> String.prefix p s = false.
Proof.
  revert s. induction p as [|a p IH]; intros s.
  - destruct s; cbn; split; discriminate.
  - destruct s as [|b s]; cbn; [tauto|].
    destruct (Ascii.ascii_dec a b) as [->|Hne].
    + rewrite Ascii.eqb_refl. apply IH.
    + apply Ascii.eqb_neq in Hne. rewrite Hne. tauto.
Qed.

Lemma find_after_contains (marker hay : string) :
  Py.find_after marker hay = None <-> Py.contains marker hay = false.
Proof.
  induction hay as [|c hay IH]; cbn [Py.find_after Py.contains].
  - rewrite orb_false_r, <- strip_prefix_prefix.
    destruct (Py.strip_prefix marker ""); split; congruence.
  - rewrite orb_false_iff, <- strip_prefix_prefix, <- IH.
    destruct (Py.strip_prefix marker (String c hay)); split;
      [discriminate | intros [[=] _] | tauto | tauto].
Qed.

Lemma extract_needs_fence (content : string) :
  Py.contains "```json" content = false -> extract_json_block content = None.
Proof.
  intros H. apply find_after_contains in H.
  unfold extract_json_block. rewrite H. reflexivity.
Qed.

(** [+:+] is kept folded by the reduction tactics. *)
Ltac string_app := unfold String.append; fold String.append.

Lemma strip_prefix_app (p s : string) : Py.strip_prefix p (p +:+ s) = Some s.
Proof.
  induction p as [|a p IH]; [destruct s; reflexivity|].
  string_app. cbn [Py.strip_prefix]. rewrite Ascii.eqb_refl. exact IH.
Qed.

Lemma find_after_eq (marker hay : string) :
  Py.find_after marker hay
  = match Py.strip_prefix marker hay with
    | Some rest => Some rest
    | None => match hay with
              | String _ rest => Py.find_after marker rest
              | EmptyString => None
              end
    end.
Proof. destruct hay; reflexivity. Qed.

Lemma lazy_group_eq (s : string) :
  lazy_group s
  = if String.prefix "```" (Py.lstrip s) then Some EmptyString
    else match s with
         | String c rest => String c <$> lazy_group rest
         | EmptyString => None
         end.
Proof. destruct s; reflexivity. Qed.

Lemma find_after_fence (pre rest : string) :
  no_backtick pre = true ->
  Py.find_after "```json" (pre +:+ "```json" +:+ rest) = Some rest.
Proof.
  induction pre as [|c pre IH]; intros Hpre.
  - change (EmptyString +:+ "```json" +:+ rest) with ("```json" +:+ rest).
    rewrite find_after_eq, strip_prefix_app. reflexivity.
  - cbn [no_backtick all_chars] in Hpre. apply andb_prop in Hpre as [Hc Hpre].
    string_app. cbn [Py.find_after Py.strip_prefix].
    apply negb_true_iff in Hc. rewrite Ascii.eqb_sym in Hc.
    change "`"%char with backtick. rewrite Hc. apply IH. exact Hpre.
Qed.

Lemma lstrip_blank (ws s : string) :
  blank ws = true -> Py.lstrip (ws +:+ s) = Py.lstrip s.
Proof.
  induction ws as [|c ws IH]; intros Hws; [reflexivity|].
  cbn [blank all_chars] in Hws. apply andb_prop in Hws as [Hc Hws].
  string_app. cbn [Py.lstrip]. rewrite Hc. apply IH. exact Hws.
Qed.

Lemma fence_prefix (post : string) :
  String.prefix "```" ("```" +:+ post) = true.
Proof. destruct post; reflexivity. Qed.

Lemma lstrip_fence (ws post : string) :
  blank ws = true -> Py.lstrip (ws +:+ "```" +:+ post) = "```" +:+ post.
Proof. intros Hws. rewrite lstrip_blank by exact Hws. reflexivity. Qed.

Lemma lstrip_length (s : string) :
  (String.length (Py.lstrip s) <= String.length s)%nat.
Proof.
  induction s as [|c s IH]; [reflexivity|].
  cbn [Py.lstrip]. destruct (Py.is_space c); cbn [String.length]; lia.
Qed.

Lemma rstrip_length (s : string) :
  (String.length (Py.rstrip s) <= String.length s)%nat.
Proof.
  induction s as [|c s IH]; [reflexivity|].
  cbn [Py.rstrip]. destruct (Py.rstrip s) as [|d r].
  - destruct (Py.is_space c); cbn [String.length]; lia.
  - cbn [String.length] in *. lia.
Qed.

(** A text that [strip] leaves alone starts and ends on a visible
    character. *)
Lemma strip_fixed (s : string) :
  Py.strip s = s -> Py.lstrip s = s /\ Py.rstrip s = s.
Proof.
  unfold Py.strip. intros H.
  assert (Hl : Py.lstrip s = s).
  { destruct s as [|c s]; [reflexivity|].
    cbn [Py.lstrip] in *. destruct (Py.is_space c); [|reflexivity].
    pose proof (rstrip_length (Py.lstrip s)) as H1.
    pose proof (lstrip_length s) as H2.
    rewrite H in H1. cbn [String.length] in H1. lia. }
  split; [exact Hl|]. rewrite Hl in H. exact H.
Qed.

Lemma lstrip_visible (c : ascii) (s : string) :
  Py.lstrip (String c s) = String c s -> Py.is_space c = false.
Proof.
  cbn [Py.lstrip]. destruct (Py.is_space c); [|reflexivity].
  intros H. pose proof (lstrip_length s) as Hlen.
  rewrite H in Hlen. cbn [String.length] in Hlen. lia.
Qed.

Lemma rstrip_tail (c : ascii) (s : string) :
  s <> EmptyString -> Py.rstrip (String c s) = String c s -> Py.rstrip s = s.
Proof.
  intros Hne H. cbn [Py.rstrip] in H.
  destruct (Py.rstrip s) as [|d r] eqn:E.
  - destruct (Py.is_space c); [discriminate|].
    injection H as H. congruence.
  - injection H as H. exact H.
Qed.

Lemma rstrip_single (c : ascii) :
  Py.rstrip (String c EmptyString) = String c EmptyString ->
  Py.is_space c = false.
Proof. cbn. destruct (Py.is_space c); [discriminate|reflexivity]. Qed.

(** Inside a body without backticks that ends on a visible character, no
    position is followed by white space and a fence. *)
Lemma no_fence_inside (body tail : string) :
  body <> EmptyString -> no_backtick body = true ->
  Py.rstrip body = body ->
  String.prefix "```" (Py.lstrip (body +:+ tail)) = false.
Proof.
  induction body as [|c body IH]; intros Hne Hbt Hr; [congruence|].
  cbn [no_backtick all_chars] in Hbt. apply andb_prop in Hbt as [Hc Hbt].
  string_app. cbn [Py.lstrip].
  destruct (Py.is_space c) eqn:Hsp.
  - destruct body as [|d body].
    + apply rstrip_single in Hr. congruence.
    + apply IH; [discriminate | exact Hbt |].
      apply (rstrip_tail c); [discriminate | exact Hr].
  - cbn [String.prefix]. apply negb_true_iff, Ascii.eqb_neq in Hc.
    destruct (ascii_dec _ c) as [E|_]; [|reflexivity].
    exfalso. apply Hc. symmetry. exact E.
Qed.

Lemma lazy_group_fence (ws post : string) :
  blank ws = true ->
  lazy_group (ws +:+ "```" +:+ post) = Some EmptyString.
Proof.
  intros Hws. rewrite lazy_group_eq, lstrip_fence, fence_prefix by exact Hws.
  reflexivity.
Qed.

Lemma lazy_group_body (body ws post : string) :
  no_backtick body = true -> Py.rstrip body = body -> blank ws = true ->
  lazy_group (body +:+ ws +:+ "```" +:+ post) = Some body.
Proof.
  intros Hbt Hr Hws. induction body as [|c body IH].
  - apply lazy_group_fence. exact Hws.
  - rewrite lazy_group_eq, no_fence_inside by (try discriminate; assumption).
    change (String c body +:+ ws +:+ "```" +:+ post)
      with (String c (body +:+ ws +:+ "```" +:+ post)).
    cbn [no_backtick all_chars] in Hbt. apply andb_prop in Hbt as [_ Hbt].
    assert (Hcase : body = EmptyString \/ body <> EmptyString)
      by (destruct body; [left; reflexivity | right; discriminate]).
    destruct Hcase as [-> | Hne].
    + change (EmptyString +:+ ws +:+ "```" +:+ post)
        with (ws +:+ "```" +:+ post).
      rewrite lazy_group_fence by exact Hws. reflexivity.
    + rewrite IH; [reflexivity | exact Hbt |].
      apply (rstrip_tail c); assumption.
Qed.

(** A response made of a preamble, a [```json] fence, the body between
    white space, and a closing fence: the body is what is extracted. *)
Lemma extract_json_block_fenced (pre ws1 body ws2 post : string) :
  no_backtick pre = true -> no_backtick body = true ->
  blank ws1 = true -> blank ws2 = true -> Py.strip body = body ->
  extract_json_block
    (pre +:+ "```json" +:+ ws1 +:+ body +:+ ws2 +:+ "```" +:+ post)
  = Some body.
Proof.
  intros Hpre Hbody Hws1 Hws2 Hstrip.
  destruct (strip_fixed body Hstrip) as [Hl Hr].
  unfold extract_json_block.
  rewrite find_after_fence by exact Hpre. cbn [mbind option_bind].
  rewrite lstrip_blank by exact Hws1.
  assert (Hgroup : lazy_group (Py.lstrip (body +:+ ws2 +:+ "```" +:+ post))
                   = Some body).
  { destruct body as [|c body].
    - change (EmptyString +:+ ws2 +:+ "```" +:+ post)
        with (ws2 +:+ "```" +:+ post).
      rewrite lstrip_fence by exact Hws2.
      apply (lazy_group_fence EmptyString). reflexivity.
    - apply lstrip_visible in Hl.
      replace (Py.lstrip (String c body +:+ ws2 +:+ "```" +:+ post))
        with (String c body +:+ ws2 +:+ "```" +:+ post)
        by (string_app; cbn [Py.lstrip]; rewrite Hl; reflexivity).
      apply lazy_group_body; assumption. }
  rewrite Hgroup. cbn [mbind option_bind]. rewrite Hstrip. reflexivity.
Qed.

(** What the parse-and-store block does, by the outcome of the parse. *)
Lemma parse_and_store_failure (a : analyzer) (rq : request) (text : string)
    (sentences : list sentence_json) (content raw : string) :
  (extract_json_block content = None /\ raw = content)
  \/ (extract_json_block content = Some raw
      /\ json_loads raw = decode_error) ->
  parse_and_store a rq text sentences content
  = add_log a [FailedToParse (request_chunk_id rq); RawContent raw].
Proof.
  unfold FusionAnalyzer.parse_and_store.
  intros [[-> ->] | [-> ->]]; reflexivity.
Qed.

Lemma parse_and_store_success (a : analyzer) (rq : request) (text : string)
    (sentences : list sentence_json) (content body : string)
    (inc : incremental_result) :
  extract_json_block content = Some body ->
  json_loads body = response_object inc ->
  exists r,
    _process_incremental_updates (analysis_results a) inc
      (request_chunk_id rq) (request_start_time rq) (request_end_time rq)
      text sentences = Some r
    /\ analysis_results (parse_and_store a rq text sentences content)
       = <[request_chunk_id rq := r]> (analysis_results a).
Proof.
  intros Hblock Hjson. unfold FusionAnalyzer.parse_and_store.
  rewrite Hblock, Hjson.
  destruct (process_incremental_updates_returns (analysis_results a) inc
              (request_chunk_id rq) (request_start_time rq)
              (request_end_time rq) text sentences) as (r & Hr & _).
  rewrite Hr. exists r. split; [reflexivity|].
  pose proof (detect_returns_argument r (request_chunk_id rq)) as Hsame.
  destruct (_detect_overlapping_topics r (request_chunk_id rq)) as [r' logs].
  cbn [fst] in Hsame. subst r'.
  destruct (_print_analysis_result_returns r); [|reflexivity].
  rewrite (proj1 (update_finalized_chapters_results _)). reflexivity.
Qed.

(** C3, as the code has it.  After a request whose model response is
    [content]: when no [```json] block is found in it, or the block found
    is not valid JSON, the failure and the offending text are logged and
    [analysis_results] is what it was, so no entry is stored for the chunk;
    when a [```json] block is found and parses, the response is merged and
    the result stored under the chunk's id; a response without the opening
    fence is never parsed, valid JSON or not; and in a response made of a
    preamble, the opening fence, a body between white space and the closing
    fence, the block found is the body. *)
Theorem response_merged_only_from_json_block (a : analyzer) (rq : request)
    (sentence_buffer : list buffered_sentence)
    (image spectrogram_text filmstrip_caption content : string) :
  let a' := _perform_fusion_analysis a rq sentence_buffer (Some image)
              spectrogram_text filmstrip_caption (Some content) in
  let transcript :=
    _get_transcript_for_timerange (request_start_time rq)
      (request_end_time rq) sentence_buffer in
  (forall raw,
     (extract_json_block content = None /\ raw = content)
     \/ (extract_json_block content = Some raw
         /\ json_loads raw = decode_error) ->
     analysis_results a' = analysis_results a
     /\ log a' = log a ++ [FailedToParse (request_chunk_id rq); RawContent raw])
  /\ (forall body inc,
        extract_json_block content = Some body ->
        json_loads body = response_object inc ->
        exists r,
          _process_incremental_updates (analysis_results a) inc
            (request_chunk_id rq) (request_start_time rq)
            (request_end_time rq) transcript.1 transcript.2 = Some r
          /\ analysis_results a'
             = <[request_chunk_id rq := r]> (analysis_results a))
  /\ (Py.contains "```json" content = false ->
      extract_json_block content = None)
  /\ (forall pre ws1 body ws2 post,
        content
        = pre +:+ "```json" +:+ ws1 +:+ body +:+ ws2 +:+ "```" +:+ post ->
        no_backtick pre = true -> no_backtick body = true ->
        blank ws1 = true -> blank ws2 = true -> Py.strip body = body ->
        extract_json_block content = Some body).
Proof.
  intros a' transcript. subst a'.
  unfold FusionAnalyzer._perform_fusion_analysis.
  fold transcript. destruct transcript as [text sentences]. cbn [fst snd].
  split; [|split; [|split]].
  - intros raw Hfail. rewrite (parse_and_store_failure _ _ _ _ _ raw Hfail).
    split; reflexivity.
  - intros body inc Hblock Hjson.
    match goal with
    | |- context [parse_and_store ?a0 rq text sentences content] =>
        destruct (parse_and_store_success a0 rq text sentences content body
                    inc Hblock Hjson) as (r & Hr & Hstore)
    end.
    exists r. split; [exact Hr | exact Hstore].
  - apply extract_needs_fence.
  - intros pre ws1 body ws2 post -> Hpre Hbody Hws1 Hws2 Hstrip.
    apply extract_json_block_fenced; assumption.
Qed.

End ResponseProperties.

(** C3 as stated fails: the bare document is valid JSON, and the analyzer
    logs a parse failure and stores nothing for the chunk. *)
Lemma bare_json_is_not_merged :
  toy_json_loads bare_json = FusionAnalyzer.response_object empty_response
  /\ FusionAnalyzer.analysis_results
       (FusionAnalyzer._perform_fusion_analysis toy_json_loads toy_json_dumps
          toy_format_1f (FusionAnalyzer.__init__ None (Some 1%Z))
          first_request [] (Some EmptyString) EmptyString EmptyString
          (Some bare_json)) !! 0%Z = None
  /\ FusionAnalyzer.log
       (FusionAnalyzer._perform_fusion_analysis toy_json_loads toy_json_dumps
          toy_format_1f (FusionAnalyzer.__init__ None (Some 1%Z))
          first_request [] (Some EmptyString) EmptyString EmptyString
          (Some bare_json))
     = [FusionAnalyzer.FailedToParse 0; FusionAnalyzer.RawContent bare_json].
Proof. vm_compute. repeat split. Qed.

Lemma response_merged_only_from_json_block_witness :
  exists r,
    FusionAnalyzer._process_incremental_updates ∅ empty_response 0 0 20
      FusionAnalyzer.no_transcript [] = Some r
    /\ FusionAnalyzer.analysis_results
         (FusionAnalyzer._perform_fusion_analysis toy_json_loads
            toy_json_dumps toy_format_1f
            (FusionAnalyzer.__init__ None (Some 1%Z)) first_request []
            (Some EmptyString) EmptyString EmptyString (Some fenced_json))
       = <[0%Z := r]> ∅.
Proof.
  exact (proj1 (proj2 (response_merged_only_from_json_block toy_json_loads
                         toy_json_dumps toy_format_1f
                         (FusionAnalyzer.__init__ None (Some 1%Z))
                         first_request [] EmptyString EmptyString
                         EmptyString fenced_json))
           bare_json empty_response ltac:(vm_compute; reflexivity)
           ltac:(vm_compute; reflexivity)).
Defined.

(* --------------------------------------------------------------------- *)
(** ** ShotChangeDetector: what a batch reports, and batches in a row      *)
(* --------------------------------------------------------------------- *)
Section ShotChangeDetectorBatches.

Import ShotChangeDetector.

Context {frame hist : Type}.
Variable calcHist : Z * Z * Z -> frame -> hist.
Variable compareHist : hist -> hist -> float.
Variable _calculate_mse : frame -> frame -> float.

Local Abbreviation detector := (@detector frame hist).
Local Abbreviation compare_frames :=
  (compare_frames calcHist compareHist _calculate_mse).
Local Abbreviation detect_single_all :=
  (detect_single_all calcHist compareHist _calculate_mse).
Local Abbreviation detect_batch :=
  (detect_batch calcHist compareHist _calculate_mse).
Local Abbreviation cross_flag :=
  (cross_flag calcHist compareHist _calculate_mse).

(** [detect_batch] in closed form: the flags, and the detector it leaves. *)
Lemma detect_batch_closed_form (d : detector) (f0 f1 : frame)
    (rest : list frame) :
  detect_batch d (f0 :: f1 :: rest)
  = (cross_flag d f0 :: flags (compare_frames d) (Some f0) (f1 :: rest),
     if enable_cross_chunk d
     then set_last_frame d (last (f0 :: f1 :: rest)) else d).
Proof.
  rewrite <- (detect_batch_long calcHist compareHist _calculate_mse).
  rewrite (surjective_pairing (detect_batch d (f0 :: f1 :: rest))) at 1.
  f_equal.
Qed.

Lemma flags_app (cmp : frame -> frame -> bool) (xs ys : list frame) :
  forall prev,
    flags cmp prev (xs ++ ys)
    = flags cmp prev xs
      ++ flags cmp (match last xs with Some x => Some x | None => prev end) ys.
Proof.
  induction xs as [|x xs IH]; intros prev; [reflexivity|].
  cbn [app flags]. rewrite IH. f_equal. f_equal.
  destruct xs as [|x' xs]; [reflexivity|].
  rewrite last_cons_cons. destruct (last (x' :: xs)) eqn:E; [reflexivity|].
  apply last_None in E. discriminate.
Qed.

Lemma detect_batch_length (d : detector) (frames : list frame) :
  length (fst (detect_batch d frames)) = length frames.
Proof.
  destruct frames as [|f0 [|f1 rest]]; [reflexivity..|].
  rewrite detect_batch_closed_form. cbn [fst length].
  rewrite flags_length. reflexivity.
Qed.

Lemma detect_batch_flag_succ (d : detector) (frames : list frame) :
  forall (i : nat) (a b : frame),
    frames !! i = Some a -> frames !! S i = Some b ->
    fst (detect_batch d frames) !! S i = Some (compare_frames d a b).
Proof.
  destruct frames as [|f0 [|f1 rest]].
  - intros i a b [=].
  - intros i a b _ [=].
  - rewrite detect_batch_closed_form. cbn [fst].
    intros i a b Ha Hb. destruct i as [|i].
    + injection Ha as <-. injection Hb as <-. reflexivity.
    + change (flags (compare_frames d) (Some f0) (f1 :: rest) !! S i
              = Some (compare_frames d a b)).
      apply flags_lookup_succ; assumption.
Qed.

(** X1.  [detect_batch] returns one flag per frame, and from position 1 on
    the flag of a frame says whether it compares as a shot change against
    the frame just before it in the batch; what the detector saw before
    the batch can only show in the first flag. *)
Theorem detect_batch_compares_neighbours (d : detector)
    (frames : list frame) :
  length (fst (detect_batch d frames)) = length frames
  /\ (forall (i : nat) (a b : frame),
        frames !! i = Some a -> frames !! S i = Some b ->
        fst (detect_batch d frames) !! S i = Some (compare_frames d a b))
  /\ forall (seen : option frame) (i : nat),
       fst (detect_batch (set_last_frame d seen) frames) !! S i
       = fst (detect_batch d frames) !! S i.
Proof.
  split; [apply detect_batch_length|].
  split; [apply detect_batch_flag_succ|].
  intros seen i. destruct frames as [|f0 [|f1 rest]]; [reflexivity..|].
  rewrite !detect_batch_closed_form. reflexivity.
Qed.

Lemma cross_flag_after (d : detector) (x : frame) (y0 : frame) :
  enable_cross_chunk d = true ->
  cross_flag (set_last_frame d (Some x)) y0 = compare_frames d x y0.
Proof. intros Hcross. unfold cross_flag. cbn. rewrite Hcross. reflexivity. Qed.

(** X2.  With cross-batch mode on, cutting a frame sequence into two
    batches of at least two frames each changes nothing: the flags of the
    two calls, one after the other, are the flags of one call on the whole
    sequence, and the detector is left in the same state. *)
Theorem detect_batch_cross_chunk_continuity (d : detector)
    (xs ys : list frame) :
  enable_cross_chunk d = true ->
  (2 <= length xs)%nat -> (2 <= length ys)%nat ->
  detect_batch d (xs ++ ys)
  = (fst (detect_batch d xs) ++ fst (detect_batch (snd (detect_batch d xs)) ys),
     snd (detect_batch (snd (detect_batch d xs)) ys)).
Proof.
  intros Hcross Hxs Hys.
  destruct xs as [|x0 [|x1 xs]]; [cbn in Hxs; lia..|].
  destruct ys as [|y0 [|y1 ys]]; [cbn in Hys; lia..|].
  change ((x0 :: x1 :: xs) ++ y0 :: y1 :: ys)
    with (x0 :: x1 :: (xs ++ y0 :: y1 :: ys)).
  rewrite !detect_batch_closed_form. cbn [fst snd]. rewrite Hcross.
  destruct (last (x0 :: x1 :: xs)) as [xl|] eqn:Hlast;
    [|apply last_None in Hlast; discriminate].
  rewrite ?detect_batch_closed_form. cbn [fst snd].
  change (enable_cross_chunk (set_last_frame d (Some xl)))
    with (enable_cross_chunk d). rewrite Hcross.
  rewrite cross_flag_after by assumption.
  f_equal.
  - change (x1 :: xs ++ y0 :: y1 :: ys) with ((x1 :: xs) ++ y0 :: y1 :: ys).
    rewrite flags_app. cbn [app]. f_equal. f_equal.
    assert (Hl : last (x1 :: xs) = Some xl)
      by (rewrite <- Hlast; symmetry; apply last_cons_cons).
    rewrite Hl. reflexivity.
  - change (x0 :: x1 :: xs ++ y0 :: y1 :: ys)
      with ((x0 :: x1 :: xs) ++ y0 :: y1 :: ys).
    rewrite last_app.
    destruct (last (y0 :: y1 :: ys)) as [yl|] eqn:Hly;
      [reflexivity | apply last_None in Hly; discriminate].
Qed.

(** X3.  With cross-batch mode off, [detect_batch] depends on nothing the
    detector has seen and leaves it untouched: the first flag is false and
    the others compare each frame with the one before. *)
Theorem detect_batch_without_cross_chunk (d : detector)
    (frames : list frame) :
  enable_cross_chunk d = false ->
  detect_batch d frames = (flags (compare_frames d) None frames, d).
Proof.
  intros Hcross. destruct frames as [|f0 [|f1 rest]]; [reflexivity..|].
  rewrite detect_batch_closed_form. unfold cross_flag.
  rewrite Hcross. reflexivity.
Qed.

(** X4.  After [reset], both modes start over: whatever the detector had
    seen, the batch call and the frame-by-frame replay give the flags of a
    sequence with nothing before it. *)
Theorem reset_forgets (d : detector) (frames : list frame) (n : Z) :
  fst (detect_batch (reset d) frames) = flags (compare_frames d) None frames
  /\ fst (detect_single_all (reset d) n frames)
     = flags (compare_frames d) None frames.
Proof.
  split.
  - destruct frames as [|f0 [|f1 rest]]; [reflexivity..|].
    rewrite detect_batch_closed_form. cbn [fst]. unfold cross_flag. cbn.
    rewrite andb_false_r. reflexivity.
  - rewrite (detect_single_all_flags calcHist compareHist _calculate_mse
               frames (reset d) None n).
    + reflexivity.
    + unfold remembers. cbn. destruct (method d); reflexivity.
Qed.

End ShotChangeDetectorBatches.

Lemma detect_batch_cross_chunk_continuity_witness :
  ShotChangeDetector.detect_batch toy_calcHist toy_compareHist toy_mse
    toy_detector ([1; 1] ++ [5; 5])%Z
  = ([false; false; true; false],
     ShotChangeDetector.set_last_frame toy_detector (Some 5%Z)).
Proof.
  rewrite (detect_batch_cross_chunk_continuity toy_calcHist toy_compareHist
             toy_mse toy_detector [1; 1]%Z [5; 5]%Z eq_refl);
    [reflexivity | cbn; lia | cbn; lia].
Defined.

Lemma detect_batch_without_cross_chunk_witness :
  ShotChangeDetector.detect_batch toy_calcHist toy_compareHist toy_mse
    (ShotChangeDetector.create_visual_detector 0.3 ShotChangeDetector.mse)
    [1; 1; 5]%Z
  = ([false; false; true],
     ShotChangeDetector.create_visual_detector 0.3 ShotChangeDetector.mse).
Proof.
  rewrite (detect_batch_without_cross_chunk toy_calcHist toy_compareHist
             toy_mse
             (ShotChangeDetector.create_visual_detector 0.3
                ShotChangeDetector.mse) [1; 1; 5]%Z eq_refl).
  reflexivity.
Defined.

(* --------------------------------------------------------------------- *)
(** ** FilmstripProcessor: extraction, detection and the grid              *)
(* --------------------------------------------------------------------- *)
Section FilmstripProcessorProperties.

Import FilmstripProcessor.

Context {frame hist : Type}.
Variable calcHist : Z * Z * Z -> frame -> hist.
Variable compareHist : hist -> hist -> float.
Variable _calculate_mse : frame -> frame -> float.
Variable zeros_like : frame -> frame.
Variable black_480x640 : frame.

Local Abbreviation processor := (@processor frame hist).
Local Abbreviation capture := (@capture frame).
Local Abbreviation extract_step := (extract_step zeros_like black_480x640).
Local Abbreviation extract_frames_from_video :=
  (extract_frames_from_video zeros_like black_480x640).
Local Abbreviation extracted_frame :=
  (extracted_frame zeros_like black_480x640).
Local Abbreviation create_filmstrip :=
  (create_filmstrip calcHist compareHist _calculate_mse).
Local Abbreviation detect_batch :=
  (ShotChangeDetector.detect_batch calcHist compareHist _calculate_mse).
Local Abbreviation compare_frames :=
  (ShotChangeDetector.compare_frames calcHist compareHist _calculate_mse).

(** The loop of [extract_frames_from_video] after [k] rounds. *)
Lemma extract_loop (cap : capture) (start_time interval : float) (k : nat) :
  let l := fold_left (extract_step cap start_time interval) (seq 0 k) [] in
  length l = k
  /\ forall i, (i < k)%nat ->
       l !! i = Some (extracted_frame cap interval i,
                      (start_time + time_offset interval i)%float).
Proof.
  induction k as [|k IH]; [split; [reflexivity | intros; lia]|].
  rewrite seq_S, fold_left_app. cbn [fold_left Nat.add].
  destruct IH as [Hlen Hl].
  set (l := fold_left (extract_step cap start_time interval) (seq 0 k) [])
    in *.
  assert (Hstep : extract_step cap start_time interval l k
                  = l ++ [(extracted_frame cap interval k,
                           (start_time + time_offset interval k)%float)]).
  { unfold extract_step, extracted_frame.
    destruct k as [|k].
    - destruct l; [|discriminate].
      destruct (read_at cap _); reflexivity.
    - destruct (read_at cap (time_offset interval (S k) * 1000)%float);
        [reflexivity|].
      specialize (Hl 0%nat ltac:(lia)).
      destruct l as [|[first t0] l]; [discriminate|].
      cbn in Hl. injection Hl as -> _. reflexivity. }
  rewrite Hstep. split.
  - rewrite length_app. cbn. lia.
  - intros i Hi. destruct (decide (i = k)) as [->|Hne].
    + rewrite lookup_app_r by lia. rewrite Hlen, Nat.sub_diag. reflexivity.
    + rewrite lookup_app_l by lia. apply Hl. lia.
Qed.

(** X5.  When the video opens (at the first or the second try) and its
    frame count is a finite number, [extract_frames_from_video] returns
    exactly [num_frames] entries, whatever can be read: entry [i] carries
    the time stamp of the middle of its interval, and the frame read there
    or else a black frame, shaped like the first entry of the list. *)
Theorem extract_frames_from_video_fills (cap : capture)
    (start_time interval : float) (num_frames total : Z) :
  opens cap || opens_on_retry cap = true ->
  Py.int_of_float (CAP_PROP_FRAME_COUNT cap) = Some total ->
  exists l,
    extract_frames_from_video cap start_time num_frames interval = Some l
    /\ length l = Z.to_nat num_frames
    /\ forall i, (i < Z.to_nat num_frames)%nat ->
         l !! i = Some (extracted_frame cap interval i,
                        (start_time + time_offset interval i)%float).
Proof.
  intros Hopen Hcount. unfold extract_frames_from_video.
  rewrite Hopen, Hcount. cbn [mbind option_bind].
  eexists. split; [reflexivity|]. apply extract_loop.
Qed.

Lemma elem_of_indices_of_true (l : list bool) :
  forall (i0 j : nat),
    j ∈ Py.indices_of_true i0 l
    <-> exists k, j = (i0 + k)%nat /\ l !! k = Some true.
Proof.
  induction l as [|b l IH]; intros i0 j; cbn [Py.indices_of_true].
  - split; [intros H; inversion H | intros (k & _ & [=])].
  - assert (Hrest : j ∈ Py.indices_of_true (S i0) l
                    <-> exists k, j = (i0 + S k)%nat /\ l !! k = Some true).
    { rewrite IH. split; intros (k & -> & Hk); exists k; split; auto; lia. }
    destruct b.
    + rewrite elem_of_cons, Hrest. split.
      * intros [-> | (k & -> & Hk)];
          [exists 0%nat; split; [lia|reflexivity] | exists (S k); auto].
      * intros ([|k] & -> & Hk); [left; lia | right; exists k; auto].
    + rewrite Hrest. split.
      * intros (k & -> & Hk). exists (S k). auto.
      * intros ([|k] & -> & Hk); [discriminate | exists k; auto].
Qed.

Lemma indices_of_true_sorted (l : list bool) :
  forall i0, StronglySorted lt (Py.indices_of_true i0 l).
Proof.
  induction l as [|b l IH]; intros i0; cbn [Py.indices_of_true];
    [constructor|].
  destruct b; [|apply IH]. constructor; [apply IH|].
  apply Forall_forall. intros j Hj.
  apply elem_of_indices_of_true in Hj as (k & -> & _). lia.
Qed.

(** X6.  With a detector and detection asked for, [create_filmstrip] on a
    batch that [_create_grid] can draw returns, in increasing order, the
    positions the detector flags: from position 1 on, exactly the frames
    that compare as a shot change against the frame before them; and it
    leaves the detector as [detect_batch] left it.  Without a detector, or
    with detection off, it returns the empty list. *)
Theorem create_filmstrip_reports_changes (p : processor)
    (frames_with_timestamps : list (frame * float)) :
  frames_with_timestamps <> [] ->
  let frames := fst <$> frames_with_timestamps in
  (forall d, shot_detector p = Some d ->
     exists l,
       create_filmstrip p frames_with_timestamps true true
       = (Some l, set_detection p (Some (snd (detect_batch d frames)))
                                  (last frames))
       /\ StronglySorted lt l
       /\ (forall i, i ∈ l <-> fst (detect_batch d frames) !! i = Some true)
       /\ forall i a b, frames !! i = Some a -> frames !! S i = Some b ->
            (S i ∈ l <-> compare_frames d a b = true))
  /\ (shot_detector p = None ->
      fst (create_filmstrip p frames_with_timestamps true true) = Some [])
  /\ fst (create_filmstrip p frames_with_timestamps true false) = Some [].
Proof.
  intros Hne frames.
  destruct frames_with_timestamps as [|ft fts] eqn:Hfts; [congruence|].
  rewrite <- Hfts in *. clear Hne.
  assert (Hcreate : forall det,
            create_filmstrip p frames_with_timestamps true det
            = (let '(scf, dt) :=
                 match det, shot_detector p with
                 | true, Some d =>
                     let '(sc, d) := detect_batch d frames in
                     (Py.indices_of_true 0 sc, Some d)
                 | _, _ => ([], shot_detector p)
                 end in
               (Some scf, set_detection p dt (last frames)))).
  { intros det. rewrite Hfts. reflexivity. }
  split; [|split].
  - intros d Hd. rewrite Hcreate, Hd.
    destruct (detect_batch d frames) as [sc d'] eqn:Hbatch. cbn [fst snd].
    eexists. split; [reflexivity|].
    split; [apply indices_of_true_sorted|].
    assert (Hin : forall i, i ∈ Py.indices_of_true 0 sc
                            <-> sc !! i = Some true).
    { intros i. rewrite elem_of_indices_of_true. split.
      - intros (k & -> & Hk). exact Hk.
      - intros Hi. exists i. auto. }
    split; [exact Hin|].
    intros i a b Ha Hb. rewrite Hin.
    pose proof (detect_batch_flag_succ calcHist compareHist _calculate_mse
                  d frames i a b Ha Hb) as Hflag.
    rewrite Hbatch in Hflag. cbn [fst] in Hflag. rewrite Hflag.
    split; [intros [= ->]; reflexivity | intros ->; reflexivity].
  - intros Hd. rewrite Hcreate, Hd. reflexivity.
  - rewrite Hcreate. reflexivity.
Qed.

(** X7.  [reset_cross_chunk_tracking] clears a field that no method
    reads: the frame retained for the comparison across filmstrips is the
    detector's own, so the next [create_filmstrip] returns what it would
    have returned without the reset and leaves the detector in the same
    state. *)
Theorem reset_cross_chunk_tracking_keeps_detector (p : processor)
    (frames_with_timestamps : list (frame * float))
    (grid_saved detect_shot_changes : bool) :
  fst (create_filmstrip (reset_cross_chunk_tracking p)
         frames_with_timestamps grid_saved detect_shot_changes)
  = fst (create_filmstrip p frames_with_timestamps grid_saved
           detect_shot_changes)
  /\ shot_detector
       (snd (create_filmstrip (reset_cross_chunk_tracking p)
               frames_with_timestamps grid_saved detect_shot_changes))
     = shot_detector
         (snd (create_filmstrip p frames_with_timestamps grid_saved
                 detect_shot_changes)).
Proof.
  unfold FilmstripProcessor.create_filmstrip, reset_cross_chunk_tracking.
  destruct frames_with_timestamps as [|ft fts]; [split; reflexivity|].
  cbn [shot_detector set_detection].
  destruct detect_shot_changes, (shot_detector p) as [d|];
    try destruct (ShotChangeDetector.detect_batch _ _ _ d _);
    destruct grid_saved; split; reflexivity.
Qed.

Lemma mapM_is_Some_2 {A B : Type} (f : A -> option B) (l : list A) :
  Forall (fun a => is_Some (f a)) l -> is_Some (mapM f l).
Proof. intros H. apply mapM_is_Some. exact H. Qed.

Lemma place_is_Some (p : processor) (idx : nat) :
  grid_cols p <> 0%Z -> is_Some (place p idx).
Proof.
  intros Hnz. unfold place, Py.floordiv, Py.mod_.
  apply Z.eqb_neq in Hnz. rewrite Hnz. cbn. eauto.
Qed.

(** X8.  The placement loop of [_create_grid] never divides by zero:
    with no column the grid holds no frame, and the loop body does not
    run. *)
Theorem create_grid_never_divides_by_zero (p : processor) (n : nat) :
  is_Some (placements p n).
Proof.
  unfold placements. apply mapM_is_Some_2.
  destruct (decide (grid_cols p = 0%Z)) as [Hz|Hnz].
  - rewrite Hz, Z.mul_0_r. cbn. constructor.
  - apply Forall_forall. intros idx _. apply place_is_Some, Hnz.
Qed.

Lemma placements_lookup (p : processor) (n : nat) (l : list placement) :
  (0 < grid_cols p)%Z -> (0 <= grid_rows p)%Z ->
  placements p n = Some l ->
  length l = Nat.min n (Z.to_nat (grid_rows p * grid_cols p))
  /\ forall idx c, l !! idx = Some c ->
       (idx < n)%nat /\ (Z.of_nat idx < grid_rows p * grid_cols p)%Z
       /\ place p idx = Some c.
Proof.
  intros Hcols Hrows. unfold placements.
  assert (Hslice : Py.slice_to (grid_rows p * grid_cols p) (seq 0 n)
                   = seq 0 (Nat.min n (Z.to_nat (grid_rows p * grid_cols p)))).
  { unfold Py.slice_to.
    destruct (Z.ltb_spec (grid_rows p * grid_cols p) 0) as [Hneg|Hpos];
      [nia|].
    rewrite take_seq. f_equal. lia. }
  rewrite Hslice. intros HmapM.
  apply mapM_Some in HmapM. split.
  - erewrite <- Forall2_length by eassumption. apply length_seq.
  - intros idx c Hc.
    destruct (Forall2_lookup_r _ _ _ _ _ HmapM Hc) as (i & Hi & Hplace).
    apply lookup_seq in Hi as [-> Hlt]. cbn [Nat.add] in *.
    repeat split; [lia | lia | assumption].
Qed.

(** X9.  For a grid of at least one row and one column with cells of
    positive size and no negative border or label height, [_create_grid]
    places the first [rows * cols] frames and drops the others; every cell,
    with its label box and the border after it, lies inside the image;
    its grid position is within the grid; and no two cells overlap. *)
Theorem create_grid_cells_fit (p : processor) (n : nat) :
  (0 < grid_rows p)%Z -> (0 < grid_cols p)%Z ->
  (0 < cell_width p)%Z -> (0 < cell_height p)%Z ->
  (0 <= border_thickness p)%Z -> (0 <= label_height p)%Z ->
  exists l,
    placements p n = Some l
    /\ length l = Nat.min n (Z.to_nat (grid_rows p * grid_cols p))
    /\ (forall idx c, l !! idx = Some c ->
          inside_canvas p c
          /\ (0 <= row c < grid_rows p)%Z /\ (0 <= col c < grid_cols p)%Z
          /\ Z.of_nat idx = (row c * grid_cols p + col c)%Z)
    /\ forall idx idx' c c', idx <> idx' ->
         l !! idx = Some c -> l !! idx' = Some c' -> apart p c c'.
Proof.
  intros Hrows Hcols Hcw Hch Hb Hlh.
  assert (Hsome : is_Some (placements p n)).
  { apply mapM_is_Some_2, Forall_forall. intros idx _.
    apply place_is_Some. lia. }
  destruct Hsome as [l Hl].
  exists l. split; [exact Hl|].
  destruct (placements_lookup p n l Hcols ltac:(lia) Hl) as [Hlen Hlook].
  split; [exact Hlen|].
  assert (Hplace : forall idx c, l !! idx = Some c ->
            (0 <= row c < grid_rows p)%Z /\ (0 <= col c < grid_cols p)%Z
            /\ Z.of_nat idx = (row c * grid_cols p + col c)%Z
            /\ x c = (col c * (cell_width p + border_thickness p)
                      + border_thickness p)%Z
            /\ y c = (row c * (cell_height p + label_height p
                               + border_thickness p)
                      + border_thickness p)%Z).
  { intros idx c Hc. destruct (Hlook idx c Hc) as (_ & Hidx & Hp).
    unfold place, Py.floordiv, Py.mod_ in Hp.
    destruct (Z.eqb_spec (grid_cols p) 0) as [|_]; [lia|].
    cbn in Hp. injection Hp as <-. cbn [row col x y].
    pose proof (Z.div_mod (Z.of_nat idx) (grid_cols p) ltac:(lia)) as Hdm.
    pose proof (Z.mod_pos_bound (Z.of_nat idx) (grid_cols p) Hcols) as Hm.
    assert (0 <= Z.of_nat idx / grid_cols p)%Z
      by (apply Z.div_pos; lia).
    assert (Z.of_nat idx / grid_cols p < grid_rows p)%Z
      by (apply Z.div_lt_upper_bound; lia).
    repeat split; lia. }
  split.
  - intros idx c Hc.
    destruct (Hplace idx c Hc) as (Hr & Hcl & Hidx & Hx & Hy).
    split; [|auto]. unfold inside_canvas, total_width, total_height.
    rewrite Hx, Hy. repeat split; nia.
  - intros idx idx' c c' Hne Hc Hc'.
    destruct (Hplace idx c Hc) as (Hr & Hcl & Hidx & Hx & Hy).
    destruct (Hplace idx' c' Hc') as (Hr' & Hcl' & Hidx' & Hx' & Hy').
    unfold apart. rewrite Hx, Hy, Hx', Hy'.
    destruct (Z.lt_total (row c) (row c')) as [Hlt | [Heq | Hgt]].
    + right. right. left. nia.
    + assert (col c <> col c') by (intros E; apply Hne; nia).
      destruct (Z.lt_total (col c) (col c')) as [Hl' | [He' | Hg']];
        [left; nia | contradiction | right; left; nia].
    + right. right. right. nia.
Qed.

End FilmstripProcessorProperties.

Lemma extract_frames_from_video_fills_witness :
  exists l,
    FilmstripProcessor.extract_frames_from_video toy_zeros_like toy_black
      toy_capture 40 6 1 = Some l
    /\ length l = Z.to_nat 6
    /\ forall i, (i < Z.to_nat 6)%nat ->
         l !! i = Some (extracted_frame toy_zeros_like toy_black toy_capture
                          1 i,
                        (40 + FilmstripProcessor.time_offset 1 i)%float).
Proof.
  apply (extract_frames_from_video_fills toy_zeros_like toy_black toy_capture
           40 1 6 150); reflexivity.
Defined.

Lemma create_filmstrip_reports_changes_witness :
  toy_frames <> []
  /\ fst (FilmstripProcessor.create_filmstrip toy_calcHist toy_compareHist
            toy_mse toy_processor toy_frames true false) = Some [].
Proof.
  assert (H : toy_frames <> []) by discriminate.
  split; [exact H|].
  exact (proj2 (proj2 (create_filmstrip_reports_changes toy_calcHist
                         toy_compareHist toy_mse toy_processor toy_frames
                         H))).
Defined.

Lemma create_grid_cells_fit_witness :
  exists l,
    FilmstripProcessor.placements toy_processor 25 = Some l
    /\ length l = Nat.min 25 (Z.to_nat (4 * 5))
    /\ (forall idx c, l !! idx = Some c ->
          inside_canvas toy_processor c
          /\ (0 <= FilmstripProcessor.row c < 4)%Z
          /\ (0 <= FilmstripProcessor.col c < 5)%Z
          /\ Z.of_nat idx
             = (FilmstripProcessor.row c * 5 + FilmstripProcessor.col c)%Z)
    /\ forall idx idx' c c', idx <> idx' ->
         l !! idx = Some c -> l !! idx' = Some c' -> apart toy_processor c c'.
Proof.
  apply (create_grid_cells_fit toy_processor 25); cbn; lia.
Defined.

(* --------------------------------------------------------------------- *)
(** ** AdaptiveFilmstripProcessor: sampling and the grids of a video       *)
(* --------------------------------------------------------------------- *)
Section AdaptiveSamplingProperties.

Import AdaptiveFilmstripProcessor.

(** The four counts of a layout, as [calculate_optimal_layout] computes
    them from the frame count and the grid. *)
Lemma layout_counts (cfg : config) (video_duration source_fps : float)
    (source_resolution : Z * Z) (l : layout) :
  calculate_optimal_layout cfg video_duration source_fps source_resolution
    = Some l ->
  frames_per_grid l = (grid_rows l * grid_cols l)%Z
  /\ max_frames_capacity l = (frames_per_grid l * max_grid_images cfg)%Z
  /\ frames_per_grid l <> 0%Z
  /\ num_grids_needed l
     = ((frames_to_extract l + frames_per_grid l - 1) / frames_per_grid l)%Z
  /\ ((total_frames l <= max_frames_capacity l)%Z ->
      sampling_rate l = 1%Z /\ frames_to_extract l = total_frames l)
  /\ ((max_frames_capacity l < total_frames l)%Z ->
      max_frames_capacity l <> 0%Z
      /\ sampling_rate l
         = ((total_frames l + max_frames_capacity l - 1)
            / max_frames_capacity l)%Z
      /\ sampling_rate l <> 0%Z
      /\ frames_to_extract l
         = ((total_frames l + sampling_rate l - 1) / sampling_rate l)%Z).
Proof.
  unfold calculate_optimal_layout. destruct source_resolution as [sw sh].
  intros Hl.
  apply bind_Some in Hl as (t & Ht & Hl).
  apply bind_Some in Hl as (ar & Har & Hl).
  apply bind_Some in Hl as ([[[cw ch] rows] cols] & Hgd & Hl).
  apply bind_Some in Hl as ([[s e] n] & Hnum & Hl).
  injection Hl as <-. cbn.
  unfold Py.floordiv in Hnum.
  destruct (Z.leb_spec t (rows * cols * max_grid_images cfg)) as [Hle|Hgt].
  - destruct (Z.eqb_spec (rows * cols) 0) as [|Hf]; [discriminate|].
    cbn in Hnum. injection Hnum as <- <- <-.
    repeat split; auto; lia.
  - destruct (Z.eqb_spec (rows * cols * max_grid_images cfg) 0) as [|Hc];
      [discriminate|].
    cbn in Hnum.
    destruct (Z.eqb_spec
                ((t + rows * cols * max_grid_images cfg - 1)
                 / (rows * cols * max_grid_images cfg)) 0) as [|Hs];
      [discriminate|].
    cbn in Hnum.
    destruct (Z.eqb_spec (rows * cols) 0) as [|Hf]; [discriminate|].
    cbn in Hnum. injection Hnum as <- <- <-.
    repeat split; auto; lia.
Qed.

(** X10.  For a layout with at least one frame per grid, a grid limit
    that is not negative and a frame count that is not negative: sampling
    is used exactly when the frames exceed the capacity of all grids; the
    frames extracted are never more than the video has nor than the grids
    can hold; one frame out of every [sampling_rate] reaches the end of
    the video; and the grids needed hold every frame extracted. *)
Theorem sampling_covers_video (cfg : config)
    (video_duration source_fps : float) (source_resolution : Z * Z)
    (l : layout) :
  calculate_optimal_layout cfg video_duration source_fps source_resolution
    = Some l ->
  (0 < frames_per_grid l)%Z -> (0 <= max_grid_images cfg)%Z ->
  (0 <= total_frames l)%Z ->
  (1 <= sampling_rate l)%Z
  /\ (sampling_rate l = 1%Z <-> (total_frames l <= max_frames_capacity l)%Z)
  /\ (0 <= frames_to_extract l <= total_frames l)%Z
  /\ (frames_to_extract l <= max_frames_capacity l)%Z
  /\ (total_frames l <= sampling_rate l * frames_to_extract l)%Z
  /\ (frames_to_extract l <= num_grids_needed l * frames_per_grid l)%Z.
Proof.
  intros Hl Hf Hg Ht.
  destruct (layout_counts _ _ _ _ _ Hl)
    as (_ & Hcap & _ & Hn & Hfits & Hsampled).
  assert (Hgrids : (frames_to_extract l
                    <= num_grids_needed l * frames_per_grid l)%Z)
    by (rewrite Hn; apply ceil_div_mul_ge; assumption).
  destruct (Z.le_gt_cases (total_frames l) (max_frames_capacity l))
    as [Hle|Hgt].
  - destruct (Hfits Hle) as [Hs He]. rewrite Hs, He in *.
    repeat split; auto; lia.
  - destruct (Hsampled Hgt) as (Hc0 & Hs & Hs0 & He).
    assert (Hcpos : (0 < max_frames_capacity l)%Z) by nia.
    assert (Hs2 : (2 <= sampling_rate l)%Z).
    { rewrite Hs. apply Z.div_le_lower_bound; lia. }
    assert (Hcover : (total_frames l
                      <= sampling_rate l * max_frames_capacity l)%Z).
    { rewrite Hs, Z.mul_comm.
      pose proof (ceil_div_mul_ge (total_frames l) (max_frames_capacity l)
                    Hcpos). lia. }
    assert (Hecap : (frames_to_extract l <= max_frames_capacity l)%Z)
      by (rewrite He; apply ceil_div_le; lia).
    assert (Hecov : (total_frames l
                     <= sampling_rate l * frames_to_extract l)%Z).
    { pose proof (ceil_div_mul_ge (total_frames l) (sampling_rate l)
                    ltac:(lia)) as H.
      rewrite <- He in H. lia. }
    assert (He0 : (0 <= frames_to_extract l)%Z)
      by (rewrite He; apply Z.div_pos; lia).
    assert (Het : (frames_to_extract l <= total_frames l)%Z)
      by (rewrite He; apply ceil_div_le; nia).
    repeat split; auto; lia.
Qed.

End AdaptiveSamplingProperties.

Section AdaptiveFilmstripsProperties.

Import AdaptiveFilmstripProcessor.

Context {frame hist : Type}.
Variable calcHist : Z * Z * Z -> frame -> hist.
Variable compareHist : hist -> hist -> float.
Variable _calculate_mse : frame -> frame -> float.
Variable zeros_like : frame -> frame.
Variable black_480x640 : frame.

Local Abbreviation grids_loop :=
  (grids_loop calcHist compareHist _calculate_mse).
Local Abbreviation create_adaptive_filmstrips :=
  (create_adaptive_filmstrips calcHist compareHist _calculate_mse
     zeros_like black_480x640).

Lemma slice_of_grid {A : Type} (l : list A) (s f : Z) :
  (0 <= s)%Z -> (0 < f)%Z ->
  Py.slice s (Z.min (s + f) (Z.of_nat (length l))) l = []
  <-> (Z.of_nat (length l) <= s)%Z.
Proof.
  intros Hs Hf. unfold Py.slice.
  destruct (Z.ltb_spec s 0) as [|_]; [lia|].
  destruct (Z.ltb_spec (Z.min (s + f) (Z.of_nat (length l))) 0) as [|_];
    [lia|].
  split.
  - intros Hnil. apply (f_equal length) in Hnil.
    rewrite length_take, length_drop in Hnil. cbn in Hnil. lia.
  - intros Hle. apply length_zero_iff_nil.
    rewrite length_take, length_drop. lia.
Qed.

(** The loop over the grids, from grid [a] on: grid after grid takes the
    next [frames_per_grid] frames, until the indices or the frames run
    out. *)
Lemma grids_loop_ranges (output_prefix : string) (detect : bool)
    (grid_saved : Z -> bool) (all_frames : list (frame * float))
    (frames_per_grid grid_cols : Z) :
  (0 < frames_per_grid)%Z ->
  forall (m : nat) (a : Z) p reports p',
    (0 <= a)%Z ->
    grids_loop output_prefix detect grid_saved all_frames frames_per_grid
      grid_cols (seqZ a (Z.of_nat m)) p = (Some reports, p') ->
    (forall (j : nat) r, reports !! j = Some r ->
       grid_index r = (a + Z.of_nat j)%Z
       /\ frame_range r
          = ((a + Z.of_nat j) * frames_per_grid,
             Z.min ((a + Z.of_nat j + 1) * frames_per_grid)
                   (Z.of_nat (length all_frames)) - 1)%Z
       /\ ((a + Z.of_nat j) * frames_per_grid
           < Z.of_nat (length all_frames))%Z)
    /\ (length reports = m
        \/ (Z.of_nat (length all_frames)
            <= (a + Z.of_nat (length reports)) * frames_per_grid)%Z).
Proof.
  intros Hf. induction m as [|m IH]; intros a p reports p' Ha Hloop.
  - cbn in Hloop. injection Hloop as <- <-.
    split; [intros j r [=] | left; reflexivity].
  - rewrite seqZ_cons in Hloop by lia.
    replace (Z.pred (Z.of_nat (S m))) with (Z.of_nat m) in Hloop by lia.
    cbn [AdaptiveFilmstripProcessor.grids_loop] in Hloop.
    pose proof (slice_of_grid all_frames (a * frames_per_grid)
                  frames_per_grid ltac:(nia) Hf) as Hslice.
    destruct (Py.slice (a * frames_per_grid)
                (Z.min (a * frames_per_grid + frames_per_grid)
                       (Z.of_nat (length all_frames))) all_frames)
      as [|ft fts] eqn:Hfts.
    + injection Hloop as <- <-.
      split; [intros j r [=]|]. right. cbn [length].
      pose proof (proj1 Hslice eq_refl). lia.
    + assert (Hlt : (a * frames_per_grid < Z.of_nat (length all_frames))%Z).
      { destruct (Z.lt_ge_cases (a * frames_per_grid)
                    (Z.of_nat (length all_frames))) as [|Hge]; [assumption|].
        apply Hslice in Hge. discriminate. }
      destruct (FilmstripProcessor.create_filmstrip _ _ _ p (ft :: fts) _ _)
        as [returned p1].
      destruct (returned ≫= _) as [[sc segs]|]; [|discriminate].
      destruct (grids_loop _ _ _ _ _ _ (seqZ (Z.succ a) (Z.of_nat m)) p1)
        as [[rest|] p2] eqn:Hrest; [|discriminate].
      cbn [fmap option_fmap option_map] in Hloop.
      injection Hloop as <- <-.
      destruct (IH (Z.succ a) p1 rest p2 ltac:(lia) Hrest) as [Hranges Hlen].
      split.
      * intros [|j] r Hr.
        -- injection Hr as <-. cbn [grid_index frame_range].
           rewrite Z.add_0_r. repeat split; [|assumption].
           f_equal. f_equal. f_equal. lia.
        -- destruct (Hranges j r Hr) as (Hi & Hrange & Hin).
           rewrite Hi, Hrange.
           replace (Z.succ a + Z.of_nat j)%Z with (a + Z.of_nat (S j))%Z
             in * by lia.
           auto.
      * cbn [length]. destruct Hlen as [-> | Hlen]; [left; reflexivity|].
        right. lia.
Qed.

(** X11.  When [create_adaptive_filmstrips] returns a layout with at
    least one frame per grid and the video opens for the extraction, the
    grids it reports hold every frame extracted, once and in order: grid
    [j] holds the frames from [j * frames_per_grid] up to the next
    multiple or the end, none is empty, and together they reach the last
    frame; there is one output file per grid. *)
Theorem adaptive_grids_hold_every_frame (cfg : config)
    (shot_detector : option (@ShotChangeDetector.detector frame hist))
    (pr : probe) (cap : @FilmstripProcessor.capture frame)
    (grid_saved : Z -> bool) (output_prefix : string)
    (video_duration source_fps : option float)
    (source_resolution : option (Z * Z)) (detect_shot_changes : bool)
    (start_time : float) (process_duration : option float)
    (result : filmstrips) (l : layout) :
  fst (create_adaptive_filmstrips cfg shot_detector pr cap grid_saved
         output_prefix video_duration source_fps source_resolution
         detect_shot_changes start_time process_duration) = Some result ->
  result_layout result = Some l ->
  FilmstripProcessor.opens cap || FilmstripProcessor.opens_on_retry cap
    = true ->
  (0 < frames_per_grid l)%Z ->
  let n := Z.max 0 (frames_to_extract l) in
  (forall (j : nat) r, result_shot_changes result !! j = Some r ->
     grid_index r = Z.of_nat j
     /\ frame_range r
        = (Z.of_nat j * frames_per_grid l,
           Z.min ((Z.of_nat j + 1) * frames_per_grid l) n - 1)%Z
     /\ (Z.of_nat j * frames_per_grid l < n)%Z)
  /\ (n <= Z.of_nat (length (result_shot_changes result))
           * frames_per_grid l)%Z
  /\ output_files result = output_file <$> result_shot_changes result.
Proof.
  intros Hrun Hlayout Hopen Hf n.
  unfold AdaptiveFilmstripProcessor.create_adaptive_filmstrips in Hrun.
  destruct (probe_opens pr); cbn [negb] in Hrun.
  2:{ cbn in Hrun. injection Hrun as <-. discriminate. }
  match type of Hrun with
  | context [match ?prepared with Some _ => _ | None => _ end] =>
      destruct prepared as [[layout all_frames]|] eqn:Hprep
  end; [|discriminate].
  apply bind_Some in Hprep as (res & _ & Hprep).
  apply bind_Some in Hprep as (dur & _ & Hprep).
  apply bind_Some in Hprep as (layout' & Hcalc & Hprep).
  apply bind_Some in Hprep as (frames & Hextract & Hprep).
  injection Hprep as -> ->.
  match type of Hrun with
  | context [grids_loop ?a ?b ?c ?d ?e ?f ?g ?h] =>
      destruct (grids_loop a b c d e f g h) as [[reports|] p'] eqn:Hloop
  end; [|discriminate].
  cbn in Hrun. injection Hrun as <-. cbn in Hlayout.
  injection Hlayout as ->. cbn [result_shot_changes output_files].
  unfold FilmstripProcessor.extract_frames_from_video in Hextract.
  rewrite Hopen in Hextract.
  apply bind_Some in Hextract as (total & _ & Hextract).
  injection Hextract as Hframes.
  pose proof (proj1 (extract_loop zeros_like black_480x640 cap start_time
                       (extraction_interval l)
                       (Z.to_nat (frames_to_extract l)))) as Hlen.
  cbv zeta in Hlen. rewrite Hframes in Hlen.
  assert (Hn : Z.of_nat (length all_frames) = n) by (subst n; lia).
  unfold seqZ in Hloop. rewrite <- (Nat2Z.id (Z.to_nat (num_grids_needed l)))
    in Hloop. fold (seqZ 0 (Z.of_nat (Z.to_nat (num_grids_needed l))))
    in Hloop.
  destruct (grids_loop_ranges _ _ _ _ _ _ Hf _ _ _ _ _ (Z.le_refl 0) Hloop)
    as [Hranges Hcover].
  rewrite Hn in Hranges, Hcover. cbn [Z.add] in Hranges, Hcover.
  split; [exact Hranges|]. split; [|reflexivity].
  destruct Hcover as [Hall | Hcover]; [|exact Hcover].
  rewrite Hall.
  destruct (layout_counts _ _ _ _ _ Hcalc) as (_ & _ & _ & Hgrids & _).
  pose proof (ceil_div_mul_ge (frames_to_extract l) (frames_per_grid l) Hf)
    as Hceil.
  rewrite <- Hgrids in Hceil. subst n. nia.
Qed.

End AdaptiveFilmstripsProperties.

Lemma sampling_covers_video_witness :
  (1 <= AdaptiveFilmstripProcessor.sampling_rate budget_layout)%Z
  /\ (AdaptiveFilmstripProcessor.sampling_rate budget_layout = 1%Z
      <-> (AdaptiveFilmstripProcessor.total_frames budget_layout
           <= AdaptiveFilmstripProcessor.max_frames_capacity budget_layout)%Z)
  /\ (0 <= AdaptiveFilmstripProcessor.frames_to_extract budget_layout
      <= AdaptiveFilmstripProcessor.total_frames budget_layout)%Z
  /\ (AdaptiveFilmstripProcessor.frames_to_extract budget_layout
      <= AdaptiveFilmstripProcessor.max_frames_capacity budget_layout)%Z
  /\ (AdaptiveFilmstripProcessor.total_frames budget_layout
      <= AdaptiveFilmstripProcessor.sampling_rate budget_layout
         * AdaptiveFilmstripProcessor.frames_to_extract budget_layout)%Z
  /\ (AdaptiveFilmstripProcessor.frames_to_extract budget_layout
      <= AdaptiveFilmstripProcessor.num_grids_needed budget_layout
         * AdaptiveFilmstripProcessor.frames_per_grid budget_layout)%Z.
Proof.
  apply (sampling_covers_video budget_config 20 30 (1920, 1080)%Z
           budget_layout); [vm_compute; reflexivity | cbn; lia..].
Defined.

Lemma adaptive_grids_hold_every_frame_witness :
  (forall (j : nat) r,
     AdaptiveFilmstripProcessor.result_shot_changes toy_filmstrips !! j
     = Some r ->
     AdaptiveFilmstripProcessor.grid_index r = Z.of_nat j
     /\ AdaptiveFilmstripProcessor.frame_range r
        = (Z.of_nat j * 4, Z.min ((Z.of_nat j + 1) * 4) 6 - 1)%Z
     /\ (Z.of_nat j * 4 < 6)%Z)
  /\ (6 <= Z.of_nat (length (AdaptiveFilmstripProcessor.result_shot_changes
                               toy_filmstrips)) * 4)%Z
  /\ AdaptiveFilmstripProcessor.output_files toy_filmstrips
     = AdaptiveFilmstripProcessor.output_file
       <$> AdaptiveFilmstripProcessor.result_shot_changes toy_filmstrips.
Proof.
  apply (adaptive_grids_hold_every_frame toy_calcHist toy_compareHist toy_mse
           toy_zeros_like toy_black fixed_config (Some toy_detector)
           toy_probe toy_capture (fun _ => true) "out" (Some 6%float)
           (Some 1%float) None true 0 None toy_filmstrips toy_layout);
    [vm_compute; reflexivity | reflexivity | reflexivity | cbn; lia].
Defined.

(* --------------------------------------------------------------------- *)
(** ** StreamMonitor: the chunk count it keeps                             *)
(* --------------------------------------------------------------------- *)
Section StreamMonitorCounts.

Import StreamMonitor.

Lemma update_activity_count (now : float) (c : components) (m : monitor) :
  last_chunk_count (snd (update_activity now c m))
  = Z.max (last_chunk_count m) (default 0%Z (chunk_count c))
  /\ stream_timeout (snd (update_activity now c m)) = stream_timeout m
  /\ transcription_was_running (snd (update_activity now c m))
     = transcription_was_running m.
Proof.
  unfold update_activity.
  destruct (Z.ltb_spec (last_chunk_count m) (default 0%Z (chunk_count c)));
    cbn; repeat split; lia.
Qed.

Lemma step_count (m : monitor) (k : call) :
  transcription_was_running m = false ->
  last_chunk_count (step m k) = Z.max (last_chunk_count m) (observed_count k)
  /\ stream_timeout (step m k) = stream_timeout m
  /\ transcription_was_running (step m k) = false.
Proof.
  intros Hflag.
  assert (Hended : forall t1 t2 c m0,
            transcription_was_running m0 = false ->
            snd (stream_appears_ended t1 t2 c m0)
            = snd (update_activity t1 c m0)).
  { intros t1 t2 c m0 H0. unfold stream_appears_ended, transcription_stopped.
    rewrite H0. cbn [andb]. destruct (update_activity t1 c m0). reflexivity. }
  destruct k as [now c | t1 t2 c | t0 t1 t2 t3 c];
    cbn [step observed_count].
  - destruct (update_activity_count now c m) as (H1 & H2 & H3).
    rewrite H1, H2, H3. auto.
  - rewrite Hended by assumption.
    destruct (update_activity_count t1 c m) as (H1 & H2 & H3).
    rewrite H1, H2, H3. auto.
  - unfold get_status.
    destruct (update_activity_count t0 c m) as (H1 & H2 & H3).
    destruct (update_activity t0 c m) as [b m1]. cbn [snd] in *.
    assert (Hf1 : transcription_was_running m1 = false) by congruence.
    pose proof (Hended t1 t2 c m1 Hf1) as He.
    destruct (update_activity_count t1 c m1) as (H4 & H5 & H6).
    destruct (stream_appears_ended t1 t2 c m1) as [e m2]. cbn [snd] in *.
    subst m2. rewrite H4, H5, H6, H1, H2. unfold observed_count.
    repeat split; [lia|congruence..].
Qed.

(** X12.  Driven through its methods, a monitor keeps as
    [last_chunk_count] the highest chunk count it has read so far (a
    missing attribute reads as 0), and its time-out stays the one it was
    built with. *)
Theorem monitor_keeps_highest_count (now timeout : float)
    (ks : list call) :
  last_chunk_count (run (__init__ now timeout) ks)
  = fold_left Z.max (observed_count <$> ks) 0%Z
  /\ stream_timeout (run (__init__ now timeout) ks) = timeout.
Proof.
  assert (Hgen : forall m,
            transcription_was_running m = false ->
            last_chunk_count (run m ks)
            = fold_left Z.max (observed_count <$> ks) (last_chunk_count m)
            /\ stream_timeout (run m ks) = stream_timeout m).
  { unfold run. induction ks as [|k ks IH]; intros m Hm; [split; reflexivity|].
    cbn [fold_left fmap list_fmap].
    destruct (step_count m k Hm) as (H1 & H2 & H3).
    destruct (IH (step m k) H3) as [IH1 IH2].
    rewrite IH1, IH2, H1, H2. split; reflexivity. }
  apply (Hgen (__init__ now timeout)). reflexivity.
Qed.

End StreamMonitorCounts.

(* --------------------------------------------------------------------- *)
(** ** ChunkProcessor: the monitoring loop and the wait for a chunk        *)
(* --------------------------------------------------------------------- *)
Section ChunkMonitorProperties.

Import ChunkProcessor.

Variable parse_duration : string -> option float.
Variable chunk_duration : Z.

Context {frame hist spectrogram : Type}.
Variable calcHist : Z * Z * Z -> frame -> hist.
Variable compareHist : hist -> hist -> float.
Variable _calculate_mse : frame -> frame -> float.
Variable zeros_like : frame -> frame.
Variable black_480x640 : frame.

Local Abbreviation _verify_chunk_ready :=
  (_verify_chunk_ready parse_duration chunk_duration).
Local Abbreviation monitor_step :=
  (monitor_step parse_duration chunk_duration).
Local Abbreviation _monitor_chunks :=
  (_monitor_chunks parse_duration chunk_duration).
Local Abbreviation wait_for_chunk :=
  (wait_for_chunk parse_duration chunk_duration).
Local Abbreviation _create_filmstrip :=
  (_create_filmstrip parse_duration chunk_duration (spectrogram:=spectrogram)
     calcHist compareHist _calculate_mse zeros_like black_480x640).

Lemma monitor_step_inv (c0 : Z) (is_final : bool) (st : monitor_state)
    (f : listed_file) :
  monitor_inv c0 st -> monitor_inv c0 (monitor_step is_final st f).
Proof.
  intros (Hnd & Hset & Hcount & Hpos).
  unfold ChunkProcessor.monitor_step.
  destruct (chunk_match f) as [n|]; [|repeat split; auto; apply Hset].
  destruct (bool_decide (Z.of_N n ∈ processed_chunks st)) eqn:Hin;
    cbn [negb andb]; [repeat split; auto; apply Hset|].
  destruct (exists_at_test f); [|repeat split; auto; apply Hset].
  destruct (_verify_chunk_ready (at_check f) is_final) as [[|] checked];
    [|repeat split; auto; apply Hset].
  apply bool_decide_eq_false in Hin.
  unfold monitor_inv. cbn [created processed_chunks chunk_count].
  repeat split.
  - apply NoDup_app. split; [assumption|]. split; [|apply NoDup_singleton].
    intros c Hc Hc'. apply list_elem_of_singleton in Hc'. subst c.
    apply Hin, Hset, Hc.
  - rewrite elem_of_union, elem_of_singleton, elem_of_app,
      list_elem_of_singleton, Hset. tauto.
  - rewrite elem_of_union, elem_of_singleton, elem_of_app,
      list_elem_of_singleton, Hset. tauto.
  - rewrite fmap_app, fold_left_app. cbn [fmap list_fmap fold_left].
    rewrite Hcount. reflexivity.
  - apply Forall_app. split; [assumption|]. repeat constructor. lia.
Qed.

Lemma monitor_round_inv (c0 : Z) (is_final : bool)
    (files : list listed_file) :
  forall st, monitor_inv c0 st ->
             monitor_inv c0 (fold_left (monitor_step is_final) files st).
Proof.
  induction files as [|f files IH]; intros st Hst; [assumption|].
  cbn [fold_left]. apply IH, monitor_step_inv, Hst.
Qed.

Lemma fold_max_ge (l : list Z) :
  forall a, (a <= fold_left Z.max l a)%Z
            /\ Forall (fun x => (x <= fold_left Z.max l a)%Z) l.
Proof.
  induction l as [|x l IH]; intros a; cbn [fold_left]; [split; [lia|constructor]|].
  destruct (IH (Z.max a x)) as [H1 H2]. split; [lia|].
  constructor; [lia | assumption].
Qed.

(** X13.  Whatever the directory shows round after round,
    [_monitor_chunks] hands each chunk number to [_create_filmstrip] at
    most once; [chunk_count] ends as the highest number handed over plus
    one (or as it was, when that is more), which is at least the number
    of chunks handed over when it started at 0 or above. *)
Theorem monitor_chunks_once_each (c0 : Z)
    (rounds : list (list listed_file)) (final_round : list listed_file) :
  let st := _monitor_chunks c0 rounds final_round in
  NoDup (created st)
  /\ (forall c, c ∈ processed_chunks st <-> c ∈ created st)
  /\ chunk_count st = fold_left Z.max ((fun c => c + 1)%Z <$> created st) c0
  /\ ((0 <= c0)%Z -> (Z.of_nat (length (created st)) <= chunk_count st)%Z).
Proof.
  intros st.
  assert (Hinv : monitor_inv c0 st).
  { subst st. unfold ChunkProcessor._monitor_chunks.
    apply monitor_round_inv.
    set (st0 := {| processed_chunks := ∅; chunk_count := c0;
                   created := []; lines := [] |}).
    assert (H0 : monitor_inv c0 st0).
    { repeat split; cbn; try constructor; try set_solver. }
    revert H0. generalize st0.
    induction rounds as [|r rs IH]; intros s Hs; [assumption|].
    cbn [fold_left]. apply IH, monitor_round_inv, Hs. }
  destruct Hinv as (Hnd & Hset & Hcount & Hpos).
  repeat split; auto; try apply Hset.
  intros Hc0.
  destruct (fold_max_ge ((fun c => c + 1)%Z <$> created st) c0)
    as [Hge Hall].
  rewrite <- Hcount in Hge, Hall.
  assert (Hsub : created st ⊆+ seqZ 0 (chunk_count st)).
  { apply NoDup_submseteq; [assumption|]. intros c Hc.
    apply elem_of_seqZ.
    rewrite Forall_forall in Hpos. specialize (Hpos c Hc).
    rewrite Forall_fmap, Forall_forall in Hall. specialize (Hall c Hc).
    cbn in Hall. lia. }
  apply submseteq_length in Hsub. rewrite length_seqZ in Hsub. lia.
Qed.

Lemma wait_for_chunk_never_ready (view_at : nat -> file_view)
    (attempts : list nat) :
  Forall (fun a => fst (_verify_chunk_ready (view_at a) false) = false)
         attempts ->
  fst (wait_for_chunk view_at attempts) = (length attempts, true).
Proof.
  induction 1 as [|a attempts Ha _ IH]; [reflexivity|].
  cbn [ChunkProcessor.wait_for_chunk].
  destruct (_verify_chunk_ready (view_at a) false) as [ready ls].
  cbn [fst] in Ha. subst ready.
  destruct (wait_for_chunk view_at attempts) as [[s r] ls'].
  cbn [fst] in *. injection IH as -> ->. reflexivity.
Qed.

(** X14.  [_create_filmstrip] on a chunk that does not pass the check of
    a regular chunk at any of its 30 attempts sleeps 30 times, logs that
    the chunk is not ready and goes on to the filmstrip; whatever the
    wait, an analysis is queued exactly when there is an analyzer and the
    filmstrip creation did not raise, for the time range that starts at
    [chunk_id * chunk_duration] and lasts [chunk_duration]. *)
Theorem create_filmstrip_waits_then_proceeds (output_dir : string)
    (filmstrip_processor : option (@FilmstripProcessor.processor frame hist))
    (has_analyzer : bool) (view_at : nat -> file_view)
    (cap : @FilmstripProcessor.capture frame) (grid_saved : bool)
    (spectrogram_data : option spectrogram) (chunk_id : Z) :
  (forall a, (a < 30)%nat ->
             fst (_verify_chunk_ready (view_at a) false) = false) ->
  let c := _create_filmstrip output_dir filmstrip_processor has_analyzer
             view_at cap grid_saved spectrogram_data chunk_id in
  sleeps c = 30%nat /\ not_ready_warning c = true
  /\ (is_Some (queued c)
      <-> has_analyzer = true /\ filmstrip_error c = false)
  /\ forall q, queued c = Some q ->
       queued_chunk_id q = chunk_id
       /\ queued_start_time q = (chunk_id * chunk_duration)%Z
       /\ queued_end_time q = (chunk_id * chunk_duration + chunk_duration)%Z
       /\ queued_filmstrip_path q = filmstrip_path output_dir chunk_id.
Proof.
  intros Hnever c. subst c. unfold ChunkProcessor._create_filmstrip.
  assert (Hwait : fst (wait_for_chunk view_at (seq 0 max_wait))
                  = (30%nat, true)).
  { rewrite wait_for_chunk_never_ready; [reflexivity|].
    apply Forall_forall. intros a Ha. apply elem_of_seq in Ha.
    apply Hnever. unfold max_wait in Ha. lia. }
  destruct (wait_for_chunk view_at (seq 0 max_wait)) as [[s r] ls].
  cbn [fst] in Hwait. injection Hwait as -> ->.
  destruct filmstrip_processor as [p|];
    [destruct (FilmstripProcessor.create_filmstrip_from_video _ _ _ _ _ p _
                 _ _ _ _ _) as [[scf|] p']|];
    destruct has_analyzer;
    cbn [sleeps not_ready_warning queued filmstrip_error];
    (split; [reflexivity|]); (split; [reflexivity|]); split;
    solve [ split; [intros [? [=]] | intros [? ?]; discriminate]
          | split; [auto | eauto]
          | intros q [= <-]; cbn; auto
          | intros q [=] ].
Qed.

End ChunkMonitorProperties.

Lemma create_filmstrip_waits_then_proceeds_witness :
  let c := ChunkProcessor._create_filmstrip toy_parse_duration 20
             (spectrogram:=unit) toy_calcHist toy_compareHist toy_mse
             toy_zeros_like toy_black "out" (Some toy_processor) true
             short_chunk toy_capture true (Some tt) 2 in
  ChunkProcessor.sleeps c = 30%nat
  /\ ChunkProcessor.not_ready_warning c = true
  /\ (is_Some (ChunkProcessor.queued c)
      <-> true = true /\ ChunkProcessor.filmstrip_error c = false)
  /\ forall q, ChunkProcessor.queued c = Some q ->
       ChunkProcessor.queued_chunk_id q = 2%Z
       /\ ChunkProcessor.queued_start_time q = (2 * 20)%Z
       /\ ChunkProcessor.queued_end_time q = (2 * 20 + 20)%Z
       /\ ChunkProcessor.queued_filmstrip_path q
          = ChunkProcessor.filmstrip_path "out" 2.
Proof.
  apply (create_filmstrip_waits_then_proceeds toy_parse_duration 20
           toy_calcHist toy_compareHist toy_mse toy_zeros_like toy_black
           "out" (Some toy_processor) true short_chunk toy_capture true
           (Some tt) 2).
  intros a _. reflexivity.
Defined.

(* --------------------------------------------------------------------- *)
(** ** FusionAnalyzer: the cleanup on any history                          *)
(* --------------------------------------------------------------------- *)
Section CleanupProperties.

Import FusionAnalyzer.

Lemma cleaned_head_user (keep : string -> bool) (ms : list message) :
  cleaned keep ms ->
  forall m rest, ms = m :: rest -> role m = "user"%string.
Proof.
  intros H m rest E. destruct H as [|u a r [Hu _] _ _|u r [Hu _] _ _];
    [discriminate|injection E as <- _; exact Hu..].
Qed.

(** What [filter_messages] does at the head of a list. *)
Lemma filter_messages_cons (keep : string -> bool) (m : message)
    (rest : list message) :
  filter_messages keep (m :: rest)
  = if String.eqb (role m) "user" then
      match content m with
      | blocks ((_ :: _) as bs) =>
          match rest with
          | next :: rest' =>
              if String.eqb (role next) "assistant" then
                (if keep (text_content bs) then [m; next] else [])
                ++ filter_messages keep rest'
              else
                (if keep (text_content bs) then [m] else [])
                ++ filter_messages keep rest
          | [] => if keep (text_content bs) then [m] else []
          end
      | _ => filter_messages keep rest
      end
    else filter_messages keep rest.
Proof.
  cbn [filter_messages]. destruct (String.eqb (role m) "user"); [|reflexivity].
  destruct (content m) as [[|b bs]|]; try reflexivity.
  destruct (keep (text_content (b :: bs))), rest as [|next rest'];
    try reflexivity; destruct (String.eqb (role next) "assistant");
    reflexivity.
Qed.

Lemma filter_messages_shape (keep : string -> bool) (n : nat) :
  forall ms, (length ms <= n)%nat ->
    sublist (filter_messages keep ms) ms
    /\ cleaned keep (filter_messages keep ms).
Proof.
  induction n as [|n IH]; intros ms Hlen.
  - destruct ms; [|cbn in Hlen; lia]. split; constructor.
  - destruct ms as [|m rest]; [split; constructor|].
    cbn [length] in Hlen.
    destruct (IH rest ltac:(lia)) as [Hsub Hclean].
    rewrite filter_messages_cons.
    destruct (String.eqb_spec (role m) "user") as [Hu|Hu];
      [|split; [apply sublist_cons|]; assumption].
    destruct (content m) as [[|b bs]|] eqn:Hc;
      [split; [apply sublist_cons|]; assumption| |
       split; [apply sublist_cons|]; assumption].
    destruct rest as [|next rest'].
    { destruct (keep (text_content (b :: bs))) eqn:Hk.
      - split; [reflexivity|]. apply cleaned_single; [|discriminate|constructor].
        split; [assumption|]. eauto.
      - split; [apply sublist_nil_l|constructor]. }
    cbn [length] in Hlen.
    destruct (IH rest' ltac:(lia)) as [Hsub' Hclean'].
    destruct (String.eqb_spec (role next) "assistant") as [Ha|Ha].
    + destruct (keep (text_content (b :: bs))) eqn:Hk; cbn [app].
      * split; [repeat apply sublist_skip; assumption|].
        apply cleaned_pair; [|assumption..]. split; [assumption|]. eauto.
      * split; [repeat apply sublist_cons; assumption | assumption].
    + destruct (keep (text_content (b :: bs))) eqn:Hk; cbn [app].
      * split; [apply sublist_skip; assumption|].
        apply cleaned_single; [| |assumption].
        -- split; [assumption|]. eauto.
        -- intros nx r E Hnx.
           pose proof (cleaned_head_user _ _ Hclean nx r E) as Hux.
           rewrite Hux in Hnx. discriminate.
      * split; [apply sublist_cons; assumption | assumption].
Qed.

Lemma filter_messages_cleaned (keep : string -> bool) (ms : list message) :
  cleaned keep ms -> filter_messages keep ms = ms.
Proof.
  induction 1 as [|u a rest [Hu (b & bs & Hc & Hk)] Ha _ IH
                  |u rest [Hu (b & bs & Hc & Hk)] Hnext _ IH];
    [reflexivity| |].
  - rewrite filter_messages_cons, Hu, Hc, Ha, Hk.
    change (String.eqb "user" "user") with true.
    change (String.eqb "assistant" "assistant") with true.
    cbn [app]. rewrite IH. reflexivity.
  - rewrite filter_messages_cons, Hu, Hc, Hk.
    change (String.eqb "user" "user") with true. cbv iota.
    destruct rest as [|next rest']; [reflexivity|].
    destruct (String.eqb_spec (role next) "assistant") as [E|_];
      [destruct (Hnext next rest' eq_refl E)|].
    cbn [app]. rewrite IH. reflexivity.
Qed.

Lemma cleanup_old_messages_twice (keep_n : option Z)
    (all_chapters : list Chapter) (ms : list message) :
  _cleanup_old_messages keep_n all_chapters
    (_cleanup_old_messages keep_n all_chapters ms)
  = _cleanup_old_messages keep_n all_chapters ms.
Proof.
  unfold _cleanup_old_messages. destruct keep_n as [k|]; [|reflexivity].
  destruct (Z.of_nat (length all_chapters) <=? k + 1)%Z; [reflexivity|].
  apply filter_messages_cleaned.
  apply (filter_messages_shape _ (length ms) ms (Nat.le_refl _)).
Qed.

(** X15.  On any history, [_cleanup_old_messages] only removes: what it
    leaves is a sub-sequence of the history, in the same order; and it
    has nothing more to remove from its own result, so cleaning twice is
    cleaning once. *)
Theorem cleanup_only_removes (keep_n : option Z) (all_chapters : list Chapter)
    (ms : list message) :
  sublist (_cleanup_old_messages keep_n all_chapters ms) ms
  /\ _cleanup_old_messages keep_n all_chapters
       (_cleanup_old_messages keep_n all_chapters ms)
     = _cleanup_old_messages keep_n all_chapters ms.
Proof.
  split; [|apply cleanup_old_messages_twice].
  unfold _cleanup_old_messages. destruct keep_n as [k|]; [|reflexivity].
  destruct (Z.of_nat (length all_chapters) <=? k + 1)%Z; [reflexivity|].
  apply (filter_messages_shape _ (length ms) ms (Nat.le_refl _)).
Qed.

End CleanupProperties.

(* --------------------------------------------------------------------- *)
(** ** FusionAnalyzer: the latest result and the finalized chapters        *)
(* --------------------------------------------------------------------- *)
Section FinalizedChaptersProperties.

Import FusionAnalyzer.

(** The entry with the greatest chunk id. *)
Lemma latest_result_spec (rs : gmap Z analysis_result) :
  match latest_result rs with
  | None => rs = ∅
  | Some r => exists k, rs !! k = Some r
                        /\ forall j, is_Some (rs !! j) -> (j <= k)%Z
  end.
Proof.
  unfold latest_result.
  set (f := fun (k : Z) (r : analysis_result) acc =>
              match acc with
              | Some (k', _) => if (k' <? k)%Z then Some (k, r) else acc
              | None => Some (k, r)
              end).
  assert (H : match map_fold f None rs with
              | None => rs = ∅
              | Some (k, r) =>
                  rs !! k = Some r
                  /\ forall j, is_Some (rs !! j) -> (j <= k)%Z
              end).
  { apply (map_fold_weak_ind
             (fun acc (m : gmap Z analysis_result) =>
                match acc with
                | None => m = ∅
                | Some (k, r) =>
                    m !! k = Some r
                    /\ forall j, is_Some (m !! j) -> (j <= k)%Z
                end)); [reflexivity|].
    intros i x m acc Hi Hacc. unfold f.
    destruct acc as [[k r]|].
    - destruct Hacc as [Hk Hmax].
      destruct (Z.ltb_spec k i) as [Hlt|Hge].
      + split; [apply lookup_insert_eq|].
        intros j [y Hj]. destruct (decide (j = i)) as [->|Hne]; [lia|].
        rewrite lookup_insert_ne in Hj by congruence.
        specialize (Hmax j (ex_intro _ y Hj)). lia.
      + assert (i <> k) by (intros ->; congruence).
        split; [rewrite lookup_insert_ne by assumption; exact Hk|].
        intros j [y Hj]. destruct (decide (j = i)) as [->|Hne]; [lia|].
        rewrite lookup_insert_ne in Hj by congruence.
        apply Hmax. eauto.
    - subst m. split; [apply lookup_insert_eq|].
      intros j [y Hj]. destruct (decide (j = i)) as [->|Hne]; [lia|].
      rewrite lookup_insert_ne, lookup_empty in Hj by congruence.
      discriminate. }
  destruct (map_fold f None rs) as [[k r]|]; cbn; [eauto | assumption].
Qed.

Lemma latest_result_highest (rs : gmap Z analysis_result) (k : Z)
    (r : analysis_result) :
  rs !! k = Some r -> (forall j, is_Some (rs !! j) -> (j <= k)%Z) ->
  latest_result rs = Some r.
Proof.
  intros Hk Hmax. pose proof (latest_result_spec rs) as H.
  destruct (latest_result rs) as [r'|].
  - destruct H as (k' & Hk' & Hmax').
    assert (k = k') by (pose proof (Hmax k' (ex_intro _ _ Hk'));
                        pose proof (Hmax' k (ex_intro _ _ Hk)); lia).
    subst k'. congruence.
  - subst rs. rewrite lookup_empty in Hk. discriminate.
Qed.

(** X16.  [update_finalized_chapters] works from the stored result with
    the greatest chunk id, whichever was stored last: when that result
    has chapters, they become the table data, and all of them but the
    last are the candidates for finalization. *)
Theorem update_uses_highest_chunk (a : analyzer) (k : Z)
    (r : analysis_result) :
  analysis_results a !! k = Some r ->
  (forall j, is_Some (analysis_results a !! j) -> (j <= k)%Z) ->
  chapters r <> [] ->
  let a' := update_finalized_chapters a in
  all_chapters_for_display a' = Some (chapters r)
  /\ (finalized_chapters a' = finalized_chapters a
      \/ finalized_chapters a' = take (length (chapters r) - 1) (chapters r)).
Proof.
  intros Hk Hmax Hne a'. subst a'. unfold update_finalized_chapters.
  rewrite (latest_result_highest _ _ _ Hk Hmax).
  destruct (chapters r) as [|c cs] eqn:Hc; [congruence|].
  change (1 <=? length (c :: cs))%nat with true. cbv iota.
  destruct (1 <? length (c :: cs))%nat; cbn; [|auto].
  split; [reflexivity|].
  destruct (0 <? _)%Z; auto.
Qed.

Lemma update_finalized_chapters_fields (a : analyzer) :
  let a' := update_finalized_chapters a in
  analysis_results a' = analysis_results a
  /\ keep_n_chapters a' = keep_n_chapters a
  /\ (length (finalized_chapters a) <= length (finalized_chapters a'))%nat
  /\ forall latest,
       latest_result (analysis_results a) = Some latest ->
       (length (chapters latest) - 1 <= length (finalized_chapters a'))%nat.
Proof.
  cbv zeta. unfold update_finalized_chapters.
  destruct (latest_result (analysis_results a)) as [latest|] eqn:Hlatest;
    [|repeat split; auto; intros ? [=]].
  destruct (Nat.leb_spec 1 (length (chapters latest))) as [H1|H1];
    [|repeat split; auto; intros ? [= <-]; lia].
  destruct (Nat.ltb_spec 1 (length (chapters latest))) as [H2|H2];
    cbn; [|repeat split; auto; intros ? [= <-]; lia].
  rewrite length_take.
  destruct (0 <? _)%Z eqn:Hn;
    [apply Z.ltb_lt in Hn | apply Z.ltb_ge in Hn];
    repeat split; auto; try (intros ? [= <-]);
    rewrite ?length_take; lia.
Qed.

(** X17.  [update_finalized_chapters] settles at once: called again with
    nothing new stored, it changes nothing more, neither the history nor
    the finalized chapters, and it starts no second run of the clips. *)
Theorem update_finalized_chapters_idempotent (a : analyzer) :
  update_finalized_chapters (update_finalized_chapters a)
  = update_finalized_chapters a.
Proof.
  unfold update_finalized_chapters at 2 3.
  destruct (latest_result (analysis_results a)) as [latest|] eqn:Hlatest.
  2:{ unfold update_finalized_chapters. rewrite Hlatest. reflexivity. }
  destruct (Nat.leb_spec 1 (length (chapters latest))) as [H1|H1].
  2:{ unfold update_finalized_chapters. rewrite Hlatest.
      destruct (Nat.leb_spec 1 (length (chapters latest))); [lia|reflexivity]. }
  destruct (Nat.ltb_spec 1 (length (chapters latest))) as [H2|H2].
  2:{ unfold update_finalized_chapters. cbn [analysis_results].
      rewrite Hlatest.
      destruct (Nat.leb_spec 1 (length (chapters latest))); [|lia].
      destruct (Nat.ltb_spec 1 (length (chapters latest))); [lia|].
      reflexivity. }
  unfold update_finalized_chapters. cbn [analysis_results]. rewrite Hlatest.
  destruct (Nat.leb_spec 1 (length (chapters latest))); [|lia].
  destruct (Nat.ltb_spec 1 (length (chapters latest))); [|lia].
  cbn [keep_n_chapters messages finalized_chapters clip_runs log].
  rewrite cleanup_old_messages_twice.
  set (finalized := take (length (chapters latest) - 1) (chapters latest)).
  destruct (Z.ltb_spec 0 (Z.of_nat (length finalized)
                          - Z.of_nat (length (finalized_chapters a))))
    as [Hn|Hn].
  - rewrite Z.sub_diag. reflexivity.
  - destruct (Z.ltb_spec 0 (Z.of_nat (length finalized)
                            - Z.of_nat (length (finalized_chapters a))));
      [lia|reflexivity].
Qed.

(** X18.  Once [finalize_all_chapters] has run on results with chapters,
    every chapter of the latest result is final, the last one too, and a
    later [update_finalized_chapters] takes none of them back and starts
    no further run of the clips. *)
Theorem finalize_all_chapters_is_final (a : analyzer)
    (latest : analysis_result) :
  latest_result (analysis_results a) = Some latest ->
  chapters latest <> [] ->
  let a1 := fst (finalize_all_chapters a) in
  finalized_chapters a1 = chapters latest
  /\ clip_runs a1 = clip_runs a ++ [chapters latest]
  /\ snd (finalize_all_chapters a) = None
  /\ finalized_chapters (update_finalized_chapters a1) = chapters latest
  /\ clip_runs (update_finalized_chapters a1) = clip_runs a1.
Proof.
  intros Hlatest Hne a1. subst a1. unfold finalize_all_chapters.
  rewrite Hlatest. destruct (chapters latest) as [|c cs] eqn:Hc; [congruence|].
  cbn [fst snd finalized_chapters clip_runs].
  repeat split.
  - unfold update_finalized_chapters. cbn [analysis_results].
    rewrite Hlatest, Hc.
    change (1 <=? length (c :: cs))%nat with true. cbv iota.
    destruct (1 <? length (c :: cs))%nat; [|reflexivity].
    cbn [finalized_chapters]. rewrite length_take.
    destruct (0 <? _)%Z eqn:Hn; [apply Z.ltb_lt in Hn; lia|reflexivity].
  - unfold update_finalized_chapters. cbn [analysis_results].
    rewrite Hlatest, Hc.
    change (1 <=? length (c :: cs))%nat with true. cbv iota.
    destruct (1 <? length (c :: cs))%nat; [|reflexivity].
    cbn [clip_runs finalized_chapters]. rewrite length_take.
    destruct (0 <? _)%Z eqn:Hn; [apply Z.ltb_lt in Hn; lia|reflexivity].
Qed.

End FinalizedChaptersProperties.

Lemma update_uses_highest_chunk_witness :
  let a' := FusionAnalyzer.update_finalized_chapters analyzer_1 in
  FusionAnalyzer.all_chapters_for_display a'
  = Some [chapter_1 (topic_1 40 [0%Z; 1%Z])]
  /\ (FusionAnalyzer.finalized_chapters a'
      = FusionAnalyzer.finalized_chapters analyzer_1
      \/ FusionAnalyzer.finalized_chapters a'
         = take (length [chapter_1 (topic_1 40 [0%Z; 1%Z])] - 1)
                [chapter_1 (topic_1 40 [0%Z; 1%Z])]).
Proof.
  apply (update_uses_highest_chunk analyzer_1 1
           (result_of 1 20 40 [chapter_1 (topic_1 40 [0%Z; 1%Z])])).
  - reflexivity.
  - intros j [r Hj]. change (store_1 !! j = Some r) in Hj. unfold store_1, store_0 in Hj.
    destruct (decide (j = 1%Z)) as [->|H1]; [lia|].
    rewrite lookup_insert_ne in Hj by congruence.
    destruct (decide (j = 0%Z)) as [->|H0]; [lia|].
    rewrite lookup_singleton_ne in Hj by congruence. discriminate.
  - discriminate.
Defined.

Lemma finalize_all_chapters_is_final_witness :
  let a1 := fst (FusionAnalyzer.finalize_all_chapters analyzer_1) in
  FusionAnalyzer.finalized_chapters a1
  = [chapter_1 (topic_1 40 [0%Z; 1%Z])]
  /\ FusionAnalyzer.clip_runs a1
     = FusionAnalyzer.clip_runs analyzer_1
       ++ [[chapter_1 (topic_1 40 [0%Z; 1%Z])]]
  /\ snd (FusionAnalyzer.finalize_all_chapters analyzer_1) = None
  /\ FusionAnalyzer.finalized_chapters
       (FusionAnalyzer.update_finalized_chapters a1)
     = [chapter_1 (topic_1 40 [0%Z; 1%Z])]
  /\ FusionAnalyzer.clip_runs (FusionAnalyzer.update_finalized_chapters a1)
     = FusionAnalyzer.clip_runs a1.
Proof.
  apply (finalize_all_chapters_is_final analyzer_1
           (result_of 1 20 40 [chapter_1 (topic_1 40 [0%Z; 1%Z])]));
    [vm_compute; reflexivity | discriminate].
Defined.

(* --------------------------------------------------------------------- *)
(** ** FusionAnalyzer: what a request may change                           *)
(* --------------------------------------------------------------------- *)
Section WorkerProperties.

Import FusionAnalyzer.

Variable json_loads : string -> json_outcome.
Variable json_dumps : list sentence_json -> string.
Variable format_1f : float -> string.

Local Abbreviation parse_and_store := (parse_and_store json_loads).
Local Abbreviation _perform_fusion_analysis :=
  (_perform_fusion_analysis json_loads json_dumps format_1f).
Local Abbreviation _analysis_worker :=
  (_analysis_worker json_loads json_dumps format_1f).

Lemma touches_only_log (chunk_id : Z) (a : analyzer) (l : list log_event) :
  touches_only chunk_id a (add_log a l).
Proof.
  repeat split; cbn; auto. apply prefix_app_r. reflexivity.
Qed.

Lemma parse_and_store_touches_only (a : analyzer) (rq : request)
    (text : string) (sentences : list sentence_json) (content : string) :
  touches_only (request_chunk_id rq) a
    (parse_and_store a rq text sentences content).
Proof.
  unfold FusionAnalyzer.parse_and_store.
  destruct (extract_json_block content) as [body|];
    [|apply touches_only_log].
  destruct (json_loads body) as [|inc|]; try apply touches_only_log.
  destruct (_process_incremental_updates _ _ _ _ _ _ _) as [r|];
    [|apply touches_only_log].
  destruct (_detect_overlapping_topics r (request_chunk_id rq)) as [r' logs].
  destruct (_print_analysis_result_returns r').
  - set (a1 := store_result (add_log a logs) (request_chunk_id rq) r').
    destruct (update_finalized_chapters_fields a1) as (Hres & Hkeep & Hfin & _).
    destruct (update_finalized_chapters_results a1) as [_ Hlog].
    repeat split.
    + right. exists r'. rewrite Hres. reflexivity.
    + rewrite Hkeep. reflexivity.
    + rewrite Hlog. cbn. apply prefix_app_r. reflexivity.
    + exact Hfin.
  - repeat split; cbn; eauto.
    rewrite <- app_assoc. apply prefix_app_r. reflexivity.
Qed.

Lemma perform_touches_only (a : analyzer) (rq : request)
    (sentence_buffer : list buffered_sentence) (image : option string)
    (spectrogram_text filmstrip_caption : string)
    (response : option string) :
  touches_only (request_chunk_id rq) a
    (_perform_fusion_analysis a rq sentence_buffer image spectrogram_text
       filmstrip_caption response).
Proof.
  unfold FusionAnalyzer._perform_fusion_analysis.
  destruct (_get_transcript_for_timerange _ _ _) as [text sentences].
  destruct image as [image|]; [|apply touches_only_log].
  destruct response as [content|].
  - match goal with
    | |- touches_only _ _ (parse_and_store ?a0 _ _ _ _) =>
        pose proof (parse_and_store_touches_only a0 rq text sentences content)
          as H
    end.
    exact H.
  - repeat split; cbn; auto. apply prefix_app_r. reflexivity.
Qed.

(** X19.  Whatever the worker is given and whatever the model answers,
    analysing a list of requests removes no stored result and changes
    none but those of the chunks requested; the retention parameter stays,
    the log only grows and the finalized chapters never get fewer. *)
Theorem worker_touches_only_requested_chunks (a : analyzer)
    (taken : list work_item) :
  let a' := _analysis_worker a taken in
  (forall k, k ∉ (request_chunk_id ∘ item_request <$> taken) ->
             analysis_results a' !! k = analysis_results a !! k)
  /\ (forall k, is_Some (analysis_results a !! k) ->
                is_Some (analysis_results a' !! k))
  /\ keep_n_chapters a' = keep_n_chapters a
  /\ log a `prefix_of` log a'
  /\ (length (finalized_chapters a) <= length (finalized_chapters a'))%nat.
Proof.
  cbv zeta. unfold FusionAnalyzer._analysis_worker. revert a.
  induction taken as [|it taken IH]; intros a.
  - cbn. repeat split; auto.
  - cbn [fold_left fmap list_fmap].
    pose proof (perform_touches_only a (item_request it)
                  (item_sentence_buffer it) (item_image it)
                  (item_spectrogram_text it) (item_filmstrip_caption it)
                  (item_response it)) as (Hres & Hkeep & Hlog & Hfin).
    set (a1 := _perform_fusion_analysis a _ _ _ _ _ _) in *.
    destruct (IH a1) as (IH1 & IH2 & IH3 & IH4 & IH5).
    assert (Hkept : forall k, is_Some (analysis_results a !! k) ->
                              is_Some (analysis_results a1 !! k)).
    { intros k Hk. destruct Hres as [-> | [r ->]]; [assumption|].
      destruct (decide (k = request_chunk_id (item_request it))) as [->|Hne];
        [rewrite lookup_insert_eq; eauto
        |rewrite lookup_insert_ne by congruence; assumption]. }
    repeat split.
    + intros k Hk. apply not_elem_of_cons in Hk as [Hne Hk].
      rewrite (IH1 k Hk). destruct Hres as [-> | [r ->]]; [reflexivity|].
      apply lookup_insert_ne. cbn in Hne. congruence.
    + intros k Hk. apply IH2, Hkept, Hk.
    + congruence.
    + etransitivity; eassumption.
    + lia.
Qed.

End WorkerProperties.

(* --------------------------------------------------------------------- *)
(** ** FusionAnalyzer: the shape of a merged result                        *)
(* --------------------------------------------------------------------- *)
Section MergeShapeProperties.

Import FusionAnalyzer.

Implicit Types (chs : list Chapter) (ts : list Topic) (st : merge_state).
Implicit Types (tm : gmap (option string) (nat * nat)) (k : option string).

Lemma index_chapters_titles chs :
  forall (h0 : nat) tm,
    chapter <$> (index_chapters h0 chs tm).1 = chapter <$> chs.
Proof.
  induction chs as [|h rest IH]; intros h0 tm; [reflexivity|].
  cbn [index_chapters].
  destruct (index_topic_list h0 0 (topics h) tm) as [ts tm1].
  specialize (IH (S h0) tm1).
  destruct (index_chapters (S h0) rest tm1) as [rest' tm2].
  cbn in *. congruence.
Qed.

Lemma initial_state_titles chs :
  chapter <$> st_chapters (initial_state chs) = chapter <$> chs.
Proof.
  unfold initial_state.
  pose proof (index_chapters_titles chs 0 ∅) as H.
  destruct (index_chapters 0 chs ∅) as [chs' tm]. exact H.
Qed.

Lemma find_chapter_titles chs :
  forall (i : nat) k, chapter <$> (find_chapter i chs k).1 = chapter <$> chs.
Proof.
  induction chs as [|h rest IH]; intros i k; [reflexivity|].
  cbn [find_chapter].
  set (h' := match chapter_id h with
             | Some _ => h
             | None => with_chapter_id h (Some ("h" +:+ pretty (i + 1)%nat))
             end).
  assert (Hh : chapter h' = chapter h)
    by (subst h'; destruct (chapter_id h); reflexivity).
  destruct (decide (chapter_id h' = Some k)).
  - cbn. congruence.
  - specialize (IH (S i) k).
    destruct (find_chapter (S i) rest k) as [rest' found]. cbn in *.
    congruence.
Qed.

Lemma insert_same_title chs (i : nat) (c c' : Chapter) :
  chs !! i = Some c -> chapter c' = chapter c ->
  chapter <$> <[i := c']> chs = chapter <$> chs.
Proof.
  intros Hi Hc. rewrite list_fmap_insert, Hc.
  apply list_insert_id. rewrite list_lookup_fmap, Hi. reflexivity.
Qed.

Lemma apply_action_titles st st' (a : action) :
  apply_action st a = Some st' ->
  chapter <$> st_chapters st'
  = (chapter <$> st_chapters st) ++ created_titles [a].
Proof.
  destruct a as [id title conf | id wanted summary s e cks
                | id summary s e cks | ]; cbn [apply_action]; intros Hstep.
  - injection Hstep as <-. cbn [st_chapters]. rewrite fmap_app. reflexivity.
  - pose proof (find_chapter_titles (st_chapters st) 0 wanted) as Hsame.
    destruct (find_chapter 0 (st_chapters st) wanted) as [chs' found].
    cbn [fst] in Hsame. cbn [created_titles omap]. rewrite app_nil_r.
    destruct found as [idx|].
    + apply bind_Some in Hstep as (c & Hc & Hstep). injection Hstep as <-.
      cbn [st_chapters]. rewrite <- Hsame.
      eapply insert_same_title; [eassumption | reflexivity].
    + injection Hstep as <-. exact Hsame.
  - cbn [created_titles omap]. rewrite app_nil_r.
    destruct (st_topic_map st !! id) as [[h t]|].
    + apply bind_Some in Hstep as (c & Hc & Hstep).
      apply bind_Some in Hstep as (tp & Ht & Hstep). injection Hstep as <-.
      cbn [st_chapters]. eapply insert_same_title; [eassumption | reflexivity].
    + injection Hstep as <-. reflexivity.
  - injection Hstep as <-. cbn [created_titles omap]. rewrite app_nil_r.
    reflexivity.
Qed.

Lemma run_actions_titles (acts : list action) :
  forall st st',
    run_actions acts st = Some st' ->
    chapter <$> st_chapters st'
    = (chapter <$> st_chapters st) ++ created_titles acts.
Proof.
  unfold run_actions.
  induction acts as [|a acts IH]; intros st st' Hrun.
  - injection Hrun as <-. cbn. rewrite app_nil_r. reflexivity.
  - cbn [Py.for_each] in Hrun.
    destruct (apply_action st a) as [st1|] eqn:Hstep; [|discriminate].
    rewrite (IH _ _ Hrun), (apply_action_titles _ _ _ Hstep), <- app_assoc.
    f_equal. unfold created_titles.
    change (a :: acts) with ([a] ++ acts). rewrite omap_app. reflexivity.
Qed.

(** X20.  The merge returns a result whose chapter titles are those of
    the structure it started from, in their order, followed by the titles
    of the response's [new_chapter] actions, in the order of the actions:
    no action renames, reorders, removes or duplicates a chapter. *)
Theorem merge_appends_chapters_in_order (results : gmap Z analysis_result)
    (inc : incremental_result) (cid : Z) (s e : float) (text : string)
    (sentences : list sentence_json) :
  exists r,
    _process_incremental_updates results inc cid s e text sentences = Some r
    /\ chapter <$> chapters r
       = (chapter <$> starting_chapters results cid)
         ++ created_titles (actions inc).
Proof.
  destruct (process_incremental_updates_returns results inc cid s e text
              sentences) as (r & Hr & _).
  exists r. split; [assumption|].
  unfold _process_incremental_updates in Hr.
  apply bind_Some in Hr as (st & Hrun & Hr). injection Hr as <-.
  cbn [chapters]. rewrite (run_actions_titles _ _ _ Hrun).
  rewrite initial_state_titles. reflexivity.
Qed.

(** *** A topic created and then updated by the same response *)

Lemma find_chapter_finds chs :
  forall (i : nat) k,
    k ∈ chapter_ids chs -> is_Some (find_chapter i chs k).2.
Proof.
  unfold chapter_ids.
  induction chs as [|h rest IH]; intros i k Hk; [inversion Hk|].
  cbn [find_chapter omap list_omap] in *.
  destruct (chapter_id h) as [k0|] eqn:Hid.
  - rewrite Hid. destruct (decide (Some k0 = Some k)) as [|Hne]; [cbn; eauto|].
    apply elem_of_cons in Hk as [->|Hk]; [congruence|].
    specialize (IH (S i) k Hk).
    destruct (find_chapter (S i) rest k) as [rest' found]. exact IH.
  - cbn [chapter_id with_chapter_id].
    destruct (decide (_ = Some k)); [cbn; eauto|].
    specialize (IH (S i) k Hk).
    destruct (find_chapter (S i) rest k) as [rest' found]. exact IH.
Qed.

(** X21.  In a structure that has a chapter with the id named, a
    [new_topic] followed by an [update_topic] of the id just created
    gives what a single [new_topic] carrying the updated fields gives:
    the update reaches the topic the same response has just added. *)
Theorem new_topic_then_update_topic st (id wanted : option string)
    (summary : option string) (s e : float) (cks : list Z)
    (summary' : option (option string)) (s' e' : option float)
    (cks' : option (list Z)) :
  wanted ∈ chapter_ids (st_chapters st) ->
  run_actions [new_topic id wanted summary s e cks;
               update_topic id summary' s' e' cks'] st
  = run_actions [patched_new_topic id wanted summary s e cks
                   summary' s' e' cks'] st.
Proof.
  intros Hw. unfold run_actions, patched_new_topic.
  cbn [Py.for_each apply_action].
  pose proof (find_chapter_finds _ 0 _ Hw) as [idx Hfound].
  destruct (find_chapter_spec _ _ _ _ _
              (surjective_pairing (find_chapter 0 (st_chapters st) wanted)))
    as (_ & Hidx).
  destruct (find_chapter 0 (st_chapters st) wanted) as [chs' found].
  cbn [fst snd] in *. subst found.
  destruct (Hidx idx eq_refl) as (j & c & -> & Hc). cbn [Nat.add] in *.
  rewrite Hc. cbn [mbind option_bind st_topic_map st_chapters].
  rewrite lookup_insert_eq.
  rewrite list_lookup_insert_eq by (eapply lookup_lt_Some; eassumption).
  cbn [mbind option_bind topics with_topics].
  rewrite !length_app. cbn [length].
  replace (length (topics c) + 1 - 1)%nat
    with (length (topics c) + 0)%nat by lia.
  rewrite lookup_app_r by lia.
  replace (length (topics c) + 0 - length (topics c))%nat with 0%nat by lia.
  cbn [lookup list_lookup mbind option_bind].
  rewrite list_insert_insert_eq. rewrite insert_app_r.
  reflexivity.
Qed.

Lemma new_topic_then_update_topic_witness :
  Some "h2" ∈ chapter_ids (st_chapters two_chapters)
  /\ run_actions [new_topic (Some "t3") (Some "h2") (Some "Indexes") 50 55
                    [2%Z];
                  update_topic (Some "t3") None None (Some 60%float) None]
       two_chapters
     = run_actions [new_topic (Some "t3") (Some "h2") (Some "Indexes") 50 60
                      [2%Z]] two_chapters.
Proof.
  assert (H : Some "h2" ∈ chapter_ids (st_chapters two_chapters)).
  { vm_compute. repeat constructor. }
  split; [exact H|].
  exact (new_topic_then_update_topic two_chapters (Some "t3") (Some "h2")
           (Some "Indexes") 50 55 [2%Z] None None (Some 60%float) None H).
Defined.

(** *** A topic for a chapter that does not exist *)

Lemma find_chapter_unknown chs :
  forall (i : nat) k,
    Forall (fun c => is_Some (chapter_id c)) chs ->
    k ∉ chapter_ids chs ->
    find_chapter i chs k = (chs, None).
Proof.
  unfold chapter_ids.
  induction chs as [|h rest IH]; intros i k Hall Hk; [reflexivity|].
  apply Forall_cons in Hall as [[k0 Hk0] Hrest].
  cbn [find_chapter omap list_omap] in *. rewrite Hk0 in *.
  apply not_elem_of_cons in Hk as [Hne Hk].
  destruct (decide (chapter_id h = Some k)); [congruence|].
  rewrite (IH (S i) k Hrest Hk). reflexivity.
Qed.

(** X22.  A [new_topic] naming a chapter id that no chapter carries at
    the point where it is applied (every chapter there having its '_id')
    adds nothing and raises nothing: the merge returns what it returns
    for the response without that action, so the topic is lost. *)
Theorem new_topic_for_unknown_chapter_is_dropped
    (results : gmap Z analysis_result) (inc : incremental_result) (cid : Z)
    (s e : float) (text : string) (sentences : list sentence_json)
    (before after : list action) (id wanted : option string)
    (summary : option string) (s' e' : float) (cks : list Z) st :
  actions inc = before ++ new_topic id wanted summary s' e' cks :: after ->
  run_actions before (initial_state (starting_chapters results cid))
  = Some st ->
  Forall (fun c => is_Some (chapter_id c)) (st_chapters st) ->
  wanted ∉ chapter_ids (st_chapters st) ->
  _process_incremental_updates results inc cid s e text sentences
  = _process_incremental_updates results
      {| actions := before ++ after;
         response_status := response_status inc |}
      cid s e text sentences.
Proof.
  intros Hacts Hbefore Hall Hw.
  unfold _process_incremental_updates. cbn [actions response_status].
  rewrite Hacts, !run_actions_app, Hbefore. cbn [mbind option_bind].
  change (run_actions (new_topic id wanted summary s' e' cks :: after) st)
    with (match apply_action st (new_topic id wanted summary s' e' cks) with
          | Some st' => run_actions after st'
          | None => None
          end).
  cbn [apply_action]. rewrite (find_chapter_unknown _ 0 _ Hall Hw).
  destruct st; reflexivity.
Qed.

Lemma new_topic_for_unknown_chapter_is_dropped_witness :
  _process_incremental_updates store_0 response_lost_topic 1 20 40
    EmptyString []
  = _process_incremental_updates store_0
      {| actions := []; response_status := empty_status |} 1 20 40
      EmptyString [].
Proof.
  apply (new_topic_for_unknown_chapter_is_dropped store_0 response_lost_topic
           1 20 40 EmptyString [] [] [] (Some "t9") (Some "h9")
           (Some "Indexes") 20 40 [1%Z]
           (initial_state (starting_chapters store_0 1))).
  - reflexivity.
  - reflexivity.
  - vm_compute. repeat constructor. eexists. reflexivity.
  - vm_compute. intros H. apply list_elem_of_singleton in H. discriminate.
Defined.

End MergeShapeProperties.
